(** * Ventry inventory manager: the persistence layer and its ledger

    A shallow embedding of [database.py] (class [DatabaseManager]) and of
    [BillsViewScreen.load_bills] from [main.py].

    Modelling decisions, fixed here once:

    - The four SQLite tables are lists of rows in insertion order; each
      table carries its AUTOINCREMENT counter (the [sqlite_sequence] entry).
    - Columns of type REAL hold exact rationals ([Q]) in the main model, and
      results on quantities are stated up to [Qeq].  SQLite computes on
      binary64 values, so the main model describes the code for finite
      values, and for sums and differences where binary64 arithmetic is
      exact: whole-number quantities whose totals stay within 2^53.
      Statements about sums carry that hypothesis.  Module [Ieee] embeds the
      ledger methods over binary64 values (NaN stored as NULL); it is used to
      evaluate the code where rounding or an infinity decides the result.
    - INTEGER ids are integers ([Z]); SQLite holds signed 64-bit integers, and
      handing it any other id raises [OverflowError] ([bind_id]).
    - TEXT columns are [string]s of characters with code points below 256,
      compared by code point (SQLite's BINARY collation, Python's [str]
      order).
    - SQLite's size limits are met by no table or string of the model: a
      table never reaches 2^63 - 1 rows, a string never 10^9 bytes.  The
      limit of 50000 bytes on LIKE patterns is a hypothesis of the
      statements about searches ([term_fits]).
    - [created_at] columns (wall-clock defaults) are not stored.
    - The connection runs in the [sqlite3] module's default transaction mode:
      a data-modifying statement run through [cursor.execute] opens a
      transaction when none is open, a statement that fails is undone on its
      own and leaves that transaction open, and an explicit [BEGIN] inside an
      open transaction raises [OperationalError].  The flag [in_transaction]
      records whether a transaction is open.  A transaction that is open
      between two method calls never holds changes, so [rollback] restores
      the rows seen at method entry. *)

From Stdlib Require Import List String Ascii Bool ZArith QArith Lia Lqa.
From Stdlib Require Import Permutation Sorted DecimalString.
From Stdlib Require DecimalN.
From Stdlib Require Import PrimFloat.
From Stdlib Require FloatOps SpecFloat.
Import ListNotations.

Local Open Scope string_scope.
Local Open Scope Z_scope.

(** ** Rows *)

Module Item.
(** A row of table [items]. *)
Record row := mk {
  id : Z;
  item_name : string;
  current_stock : Q;
  purchase_price : Q;
  sale_price : Q
}.
End Item.

Module Bill.
(** A row of table [purchases] or of table [sales] (same columns). *)
Record row := mk {
  id : Z;
  bill_no : string;
  date : string;
  item_id : Z;
  quantity : Q;
  rate : Q;
  total : Q
}.
End Bill.

(** Column [type] of [stock_log], constrained by
    [CHECK(type IN ('purchase', 'sale'))]. *)
Inductive log_type := purchase | sale.

Module Log.
(** A row of table [stock_log]. *)
Record row := mk {
  id : Z;
  item_id : Z;
  change_qty : Q;
  type : log_type;
  date : string;
  bill_no : string
}.
End Log.

(** ** The database behind one [DatabaseManager] *)

Record database := mkdb {
  items : list Item.row;
  items_seq : Z;
  purchases : list Bill.row;
  purchases_seq : Z;
  sales : list Bill.row;
  sales_seq : Z;
  stock_log : list Log.row;
  stock_log_seq : Z;
  in_transaction : bool
}.

(** State after [__init__]: [connect] and [create_tables] on a new file. *)
Definition create_tables : database :=
  mkdb [] 0 [] 0 [] 0 [] 0 false.

Definition set_in_transaction (b : bool) (db : database) : database :=
  mkdb (items db) (items_seq db) (purchases db) (purchases_seq db)
       (sales db) (sales_seq db) (stock_log db) (stock_log_seq db) b.

Definition set_items (l : list Item.row) (s : Z) (db : database) : database :=
  mkdb l s (purchases db) (purchases_seq db)
       (sales db) (sales_seq db) (stock_log db) (stock_log_seq db)
       (in_transaction db).

(** The stored rows of a database: everything but the connection flag. *)
Definition same_rows (a b : database) : Prop :=
  items a = items b /\ items_seq a = items_seq b /\
  purchases a = purchases b /\ purchases_seq a = purchases_seq b /\
  sales a = sales b /\ sales_seq a = sales_seq b /\
  stock_log a = stock_log b /\ stock_log_seq a = stock_log_seq b.

(** ** Exceptions and statement sequencing *)

Inductive sql_error :=
| IntegrityError (msg : string)
| OperationalError (msg : string)
| OverflowError (msg : string).

Definition error_message (e : sql_error) : string :=
  match e with
  | IntegrityError m => m
  | OperationalError m => m
  | OverflowError m => m
  end.

(** Outcome of running statements on the connection: a value, or an
    exception, each with the connection as it is left. *)
Inductive outcome (A : Type) :=
| Returned (a : A) (db : database)
| Raised (e : sql_error) (db : database).
Arguments Returned {A} a db.
Arguments Raised {A} e db.

Definition sql (A : Type) := database -> outcome A.

Definition ret {A} (a : A) : sql A := fun db => Returned a db.

Definition bind {A B} (m : sql A) (k : A -> sql B) : sql B :=
  fun db =>
    match m db with
    | Returned a db' => k a db'
    | Raised e db' => Raised e db'
    end.

Notation "x <- m ;; k" := (bind m (fun x => k))
  (at level 61, m at next level, right associativity).
Notation "m ;;; k" := (bind m (fun _ => k))
  (at level 61, right associativity).

(** [connection.execute("BEGIN TRANSACTION")]. *)
Definition begin_transaction : sql unit := fun db =>
  if in_transaction db
  then Raised (OperationalError
                 "cannot start a transaction within a transaction") db
  else Returned tt (set_in_transaction true db).

(** The transaction [cursor.execute] opens before INSERT, UPDATE or DELETE
    when none is open. *)
Definition implicit_begin : sql unit := fun db =>
  Returned tt (set_in_transaction true db).

(** [connection.commit()]. *)
Definition commit : sql unit := fun db =>
  Returned tt (set_in_transaction false db).

(** [connection.rollback()], given the rows as they were at method entry. *)
Definition rollback (entry : database) : database :=
  set_in_transaction false entry.

(** SQLite's INTEGER: a signed 64-bit integer. *)
Definition sqlite_int (z : Z) : bool := (- 2 ^ 63 <=? z) && (z <? 2 ^ 63).

(** Handing an id to SQLite as a statement parameter: a Python [int] outside
    the 64-bit range raises [OverflowError] before the statement runs.  Each
    method below binds its [item_id] in several statements; the check stands
    at the first of them. *)
Definition bind_id (item_id : Z) : sql unit := fun db =>
  if sqlite_int item_id then Returned tt db
  else Raised (OverflowError
                 "Python int too large to convert to SQLite INTEGER") db.

(** ** Comparisons on REAL values *)

Definition Qltb (x y : Q) : bool := negb (Qle_bool y x).
Definition Qgtb (x y : Q) : bool := Qltb y x.

(** ** Item operations *)

Definition name_taken (name : string) (l : list Item.row) : bool :=
  existsb (fun it => String.eqb (Item.item_name it) name) l.

(** INSERT INTO items (item_name, purchase_price, sale_price):
    [current_stock] takes its default 0, [id] the next AUTOINCREMENT value;
    the UNIQUE constraint on [item_name] raises [IntegrityError]. *)
Definition insert_item (item_name : string) (purchase_price sale_price : Q)
  : sql unit :=
  implicit_begin ;;; fun db =>
    if name_taken item_name (items db)
    then Raised (IntegrityError "UNIQUE constraint failed: items.item_name") db
    else
      let new_id := items_seq db + 1 in
      Returned tt
        (set_items
           (items db ++ [Item.mk new_id item_name 0 purchase_price sale_price])
           new_id db).

(** [DatabaseManager.add_item]: only [IntegrityError] is caught, and the
    handler does not roll back. *)
Definition add_item (item_name : string) (purchase_price sale_price : Q)
  : sql bool := fun db =>
  match (insert_item item_name purchase_price sale_price ;;; commit) db with
  | Returned _ db' => Returned true db'
  | Raised (IntegrityError _) db' => Returned false db'
  | Raised e db' => Raised e db'
  end.

(** UPDATE items SET item_name, purchase_price, sale_price WHERE id = ?.
    The transaction is opened before the parameters are bound. *)
Definition update_item_row (item_id : Z) (item_name : string)
           (purchase_price sale_price : Q) : sql unit :=
  implicit_begin ;;; bind_id item_id ;;; fun db =>
    let hit := existsb (fun it => Item.id it =? item_id) (items db) in
    let clash :=
      existsb (fun it => negb (Item.id it =? item_id)
                         && String.eqb (Item.item_name it) item_name)
              (items db) in
    if hit && clash
    then Raised (IntegrityError "UNIQUE constraint failed: items.item_name") db
    else
      Returned tt
        (set_items
           (map (fun it =>
                   if Item.id it =? item_id
                   then Item.mk (Item.id it) item_name (Item.current_stock it)
                                purchase_price sale_price
                   else it)
                (items db))
           (items_seq db) db).

(** [DatabaseManager.update_item]: only [IntegrityError] is caught, and the
    handler does not roll back. *)
Definition update_item (item_id : Z) (item_name : string)
           (purchase_price sale_price : Q) : sql bool := fun db =>
  match (update_item_row item_id item_name purchase_price sale_price ;;; commit)
          db with
  | Returned _ db' => Returned true db'
  | Raised (IntegrityError _) db' => Returned false db'
  | Raised e db' => Raised e db'
  end.

(** SELECT COUNT( * ) FROM purchases (or sales) WHERE item_id = ?. *)
Definition count_bills (item_id : Z) (l : list Bill.row) : Z :=
  Z.of_nat (List.length (filter (fun b => Bill.item_id b =? item_id) l)).

(** DELETE FROM items WHERE id = ?. *)
Definition delete_item_row (item_id : Z) : sql unit :=
  implicit_begin ;;; fun db =>
    Returned tt
      (set_items (filter (fun it => negb (Item.id it =? item_id)) (items db))
                 (items_seq db) db).

(** [DatabaseManager.delete_item]: the bare [except] turns every exception
    into [False]. *)
Definition delete_item (item_id : Z) : sql bool := fun db =>
  let body : sql bool :=
    bind_id item_id ;;;
    purchase_count <- (fun d => Returned (count_bills item_id (purchases d)) d) ;;
    sale_count <- (fun d => Returned (count_bills item_id (sales d)) d) ;;
    if (purchase_count >? 0) || (sale_count >? 0)
    then ret false
    else delete_item_row item_id ;;; commit ;;; ret true in
  match body db with
  | Returned b db' => Returned b db'
  | Raised _ db' => Returned false db'
  end.

(** SELECT * FROM items WHERE id = ?, [fetchone]: the item returned, if any.
    (For an id that cannot be bound the method raises and returns no
    item.) *)
Definition get_item_by_id (item_id : Z) (db : database) : option Item.row :=
  find (fun it => Item.id it =? item_id) (items db).

(** ** Purchases *)

Definition set_purchases (l : list Bill.row) (s : Z) (db : database)
  : database :=
  mkdb (items db) (items_seq db) l s
       (sales db) (sales_seq db) (stock_log db) (stock_log_seq db)
       (in_transaction db).

Definition set_sales (l : list Bill.row) (s : Z) (db : database) : database :=
  mkdb (items db) (items_seq db) (purchases db) (purchases_seq db)
       l s (stock_log db) (stock_log_seq db) (in_transaction db).

Definition set_stock_log (l : list Log.row) (s : Z) (db : database)
  : database :=
  mkdb (items db) (items_seq db) (purchases db) (purchases_seq db)
       (sales db) (sales_seq db) l s (in_transaction db).

(** INSERT INTO purchases (bill_no, date, item_id, quantity, rate, total). *)
Definition insert_purchase (bill_no date : string) (item_id : Z)
           (quantity rate total : Q) : sql unit :=
  implicit_begin ;;; bind_id item_id ;;; fun db =>
    let new_id := purchases_seq db + 1 in
    Returned tt
      (set_purchases
         (purchases db ++ [Bill.mk new_id bill_no date item_id quantity rate total])
         new_id db).

(** INSERT INTO sales (bill_no, date, item_id, quantity, rate, total). *)
Definition insert_sale (bill_no date : string) (item_id : Z)
           (quantity rate total : Q) : sql unit :=
  implicit_begin ;;; fun db =>
    let new_id := sales_seq db + 1 in
    Returned tt
      (set_sales
         (sales db ++ [Bill.mk new_id bill_no date item_id quantity rate total])
         new_id db).

(** INSERT INTO stock_log (item_id, change_qty, type, date, bill_no). *)
Definition insert_stock_log (item_id : Z) (change_qty : Q) (type : log_type)
           (date bill_no : string) : sql unit :=
  implicit_begin ;;; fun db =>
    let new_id := stock_log_seq db + 1 in
    Returned tt
      (set_stock_log
         (stock_log db ++ [Log.mk new_id item_id change_qty type date bill_no])
         new_id db).

(** UPDATE items SET current_stock = current_stock + ?, purchase_price = ?
    WHERE id = ?. *)
Definition update_stock_purchase (quantity rate : Q) (item_id : Z) : sql unit :=
  implicit_begin ;;; fun db =>
    Returned tt
      (set_items
         (map (fun it =>
                 if Item.id it =? item_id
                 then Item.mk (Item.id it) (Item.item_name it)
                              (Item.current_stock it + quantity)
                              rate (Item.sale_price it)
                 else it)
              (items db))
         (items_seq db) db).

(** UPDATE items SET current_stock = current_stock - ?, sale_price = ?
    WHERE id = ?. *)
Definition update_stock_sale (quantity rate : Q) (item_id : Z) : sql unit :=
  implicit_begin ;;; fun db =>
    Returned tt
      (set_items
         (map (fun it =>
                 if Item.id it =? item_id
                 then Item.mk (Item.id it) (Item.item_name it)
                              (Item.current_stock it - quantity)
                              (Item.purchase_price it) rate
                 else it)
              (items db))
         (items_seq db) db).

(** [DatabaseManager.add_purchase]. *)
Definition add_purchase (bill_no date : string) (item_id : Z)
           (quantity rate : Q) : sql bool := fun db =>
  let body : sql bool :=
    begin_transaction ;;;
    let total := (quantity * rate)%Q in
    insert_purchase bill_no date item_id quantity rate total ;;;
    update_stock_purchase quantity rate item_id ;;;
    insert_stock_log item_id quantity purchase date bill_no ;;;
    commit ;;;
    ret true in
  match body db with
  | Returned b db' => Returned b db'
  | Raised _ _ => Returned false (rollback db)
  end.

(** ORDER BY id DESC LIMIT 1, [fetchone]: the row with the greatest id, if
    the table has a row. *)
Definition last_by_id (l : list Bill.row) : option Bill.row :=
  fold_left (fun best b =>
               match best with
               | None => Some b
               | Some a => if Bill.id a <? Bill.id b then Some b else best
               end) l None.

(** [DatabaseManager.get_last_purchase_bill_no]. *)
Definition get_last_purchase_bill_no (db : database) : string :=
  match last_by_id (purchases db) with
  | Some b => Bill.bill_no b
  | None => "P0000"
  end.

(** ** Sales *)

(** The second component of [add_sale]'s result: ["Success"],
    ["Item not found"], [f"Insufficient stock! Available: {current_stock}"]
    or [str(e)] of the exception caught. *)
Inductive sale_message :=
| Success
| ItemNotFound
| InsufficientStock (available : Q)
| ErrorText (msg : string).

(** SELECT current_stock FROM items WHERE id = ?, [fetchone].  The ids in
    the table are 64-bit integers, so an id that cannot be bound is the id of
    no row: where the statement would find no row, binding it raises. *)
Definition select_current_stock (item_id : Z) : sql (option Q) := fun db =>
  match find (fun it => Item.id it =? item_id) (items db) with
  | Some it => Returned (Some (Item.current_stock it)) db
  | None => (bind_id item_id ;;; ret None) db
  end.

(** [DatabaseManager.add_sale]. *)
Definition add_sale (bill_no date : string) (item_id : Z)
           (quantity rate : Q) : sql (bool * sale_message) := fun db =>
  let body : sql (bool * sale_message) :=
    begin_transaction ;;;
    result <- select_current_stock item_id ;;
    match result with
    | None => fun _ => Returned (false, ItemNotFound) (rollback db)
    | Some current_stock =>
        if Qltb current_stock quantity
        then fun _ =>
               Returned (false, InsufficientStock current_stock) (rollback db)
        else
          let total := (quantity * rate)%Q in
          insert_sale bill_no date item_id quantity rate total ;;;
          update_stock_sale quantity rate item_id ;;;
          insert_stock_log item_id (- quantity) sale date bill_no ;;;
          commit ;;;
          ret (true, Success)
    end in
  match body db with
  | Returned r db' => Returned r db'
  | Raised e _ => Returned (false, ErrorText (error_message e)) (rollback db)
  end.

(** [DatabaseManager.get_last_sale_bill_no]. *)
Definition get_last_sale_bill_no (db : database) : string :=
  match last_by_id (sales db) with
  | Some b => Bill.bill_no b
  | None => "S0000"
  end.

(** ** Bill numbers *)

Fixpoint string_forall (p : ascii -> bool) (s : string) : bool :=
  match s with
  | EmptyString => true
  | String c t => p c && string_forall p t
  end.

Definition is_digit (c : ascii) : bool :=
  let n := N_of_ascii c in ((48 <=? n) && (n <=? 57))%N.

(** Whitespace that [int()] skips around its argument, among the characters
    below 256: tab, newline, vertical tab, form feed, carriage return, space,
    next line (U+0085) and no-break space (U+00A0). *)
Definition int_space (c : ascii) : bool :=
  let n := N_of_ascii c in
  (((9 <=? n) && (n <=? 13)) || (n =? 32) || (n =? 133) || (n =? 160))%N.

(** Whitespace that [str.strip()] removes, among the characters below 256:
    the above and the separators U+001C to U+001F. *)
Definition str_space (c : ascii) : bool :=
  let n := N_of_ascii c in
  (((9 <=? n) && (n <=? 13)) || ((28 <=? n) && (n <=? 32))
   || (n =? 133) || (n =? 160))%N.

Fixpoint lstrip (p : ascii -> bool) (s : string) : string :=
  match s with
  | EmptyString => EmptyString
  | String c t => if p c then lstrip p t else s
  end.

Fixpoint rstrip (p : ascii -> bool) (s : string) : string :=
  match s with
  | EmptyString => EmptyString
  | String c t =>
      match rstrip p t with
      | EmptyString => if p c then EmptyString else String c EmptyString
      | r => String c r
      end
  end.

Definition strip (p : ascii -> bool) (s : string) : string :=
  rstrip p (lstrip p s).

(** The digits of a base-10 [int()] argument once sign and surrounding
    whitespace are gone: decimal digits, with single underscores allowed
    between two digits.  Returns the digits without the underscores. *)
Fixpoint int_digits (after_digit : bool) (s : string) : option string :=
  match s with
  | EmptyString => if after_digit then Some EmptyString else None
  | String c t =>
      if is_digit c then option_map (String c) (int_digits true t)
      else if Ascii.eqb c "_" then
             if after_digit then int_digits false t else None
           else None
  end.

(** CPython's default [sys.int_max_str_digits]: conversions between [str]
    and [int] with more digits raise [ValueError]. *)
Definition int_max_str_digits : nat := 4300.

(** The optional sign that opens the argument of [int()]. *)
Definition split_sign (body : string) : bool * string :=
  match body with
  | String "-" t => (true, t)
  | String "+" t => (false, t)
  | _ => (false, body)
  end.

(** The value of what follows the sign; [None] stands for [ValueError]. *)
Definition int_unsigned (negative : bool) (unsigned : string) : option Z :=
  match int_digits false unsigned with
  | None => None
  | Some ds =>
      if (int_max_str_digits <? String.length ds)%nat then None
      else
        match NilEmpty.uint_of_string ds with
        | None => None
        | Some u => Some (if negative then - Z.of_uint u else Z.of_uint u)
        end
  end.

(** Python's [int(s)]; [None] stands for [ValueError].  Among the characters
    below 256 the decimal digits are "0" to "9". *)
Definition py_int (s : string) : option Z :=
  let '(negative, unsigned) := split_sign (strip int_space s) in
  int_unsigned negative unsigned.

(** Decimal digits of a natural number, without leading zeros ("0" for 0). *)
Definition decimal (n : N) : string := NilEmpty.string_of_uint (N.to_uint n).

Fixpoint zeros (n : nat) : string :=
  match n with
  | O => EmptyString
  | S k => String "0" (zeros k)
  end.

(** Left padding with zeros up to [width] characters. *)
Definition zfill (width : nat) (s : string) : string :=
  (zeros (width - String.length s) ++ s)%string.

(** Python's [f"{z:04d}"]: sign first, then zeros up to a total width of 4;
    [None] stands for the [ValueError] of the digit limit. *)
Definition format_04d (z : Z) : option string :=
  let ds := decimal (Z.abs_N z) in
  if (int_max_str_digits <? String.length ds)%nat then None
  else Some (if z <? 0 then String "-" (zfill 3 ds) else zfill 4 ds).

(** [DatabaseManager.get_next_bill_no]: the bare [except] turns every
    exception into the first bill number. *)
Definition get_next_bill_no (prefix last_bill : string) : string :=
  let first := (prefix ++ "0001")%string in
  match last_bill with
  | String _ rest =>
      if (1 <? String.length last_bill)%nat then
        match py_int rest with
        | Some number =>
            match format_04d (number + 1) with
            | Some text => (prefix ++ text)%string
            | None => first
            end
        | None => first
        end
      else first
  | EmptyString => first
  end.

(** ** Queries *)

(** SQLite folds ASCII upper case to lower case when [LIKE] compares. *)
Definition to_lower (c : ascii) : ascii :=
  let n := N_of_ascii c in
  if ((65 <=? n) && (n <=? 90))%N then ascii_of_N (n + 32) else c.

(** The matching of SQLite's LIKE: [%] stands for any run of characters,
    [_] for any one character, any other character for itself up to ASCII
    case. *)
Fixpoint like_chars (pattern s : string) : bool :=
  match pattern with
  | EmptyString =>
      match s with EmptyString => true | String _ _ => false end
  | String c rest =>
      if Ascii.eqb c "%" then
        (fix any_run (s : string) : bool :=
           like_chars rest s
           || match s with
              | EmptyString => false
              | String _ t => any_run t
              end) s
      else
        match s with
        | EmptyString => false
        | String d t =>
            (Ascii.eqb c "_" || Ascii.eqb (to_lower c) (to_lower d))
            && like_chars rest t
        end
  end.

(** A string as C code reads it: the characters before the first NUL. *)
Fixpoint c_string (s : string) : string :=
  match s with
  | EmptyString => EmptyString
  | String c t =>
      if Ascii.eqb c Ascii.zero then EmptyString else String c (c_string t)
  end.

(** SQLite's [s LIKE pattern], for a pattern that SQLite accepts.  LIKE
    reads both operands as C strings. *)
Definition like (pattern s : string) : bool :=
  like_chars (c_string pattern) (c_string s).

(** SQLite refuses a LIKE pattern of more than 50000 bytes.  A search term
    of at most 24999 characters gives a pattern that it accepts: a character
    below 256 takes two bytes at most, and the pattern adds two [%]. *)
Definition term_fits (search_term : string) : Prop :=
  Z.of_nat (String.length search_term) <= 24999.

(** The pattern [f"%{search_term}%"]. *)
Definition contains_pattern (search_term : string) : string :=
  ("%" ++ search_term ++ "%")%string.

(** Sorting that keeps rows with equal keys in their given order (ORDER BY
    within one query, [list.sort] in Python): [before x y] says that [x] may
    stand before [y]. *)
Fixpoint insert_by {A} (before : A -> A -> bool) (x : A) (l : list A)
  : list A :=
  match l with
  | [] => [x]
  | y :: t => if before x y then x :: l else y :: insert_by before x t
  end.

Definition sort_by {A} (before : A -> A -> bool) (l : list A) : list A :=
  fold_right (insert_by before) [] l.

(** [l LEFT JOIN r ON on]. *)
Definition left_join {A B} (on : A -> B -> bool) (l : list A) (r : list B)
  : list (A * option B) :=
  flat_map (fun a =>
              match filter (on a) r with
              | [] => [(a, None)]
              | m => map (fun b => (a, Some b)) m
              end) l.

(** [l JOIN r ON on]. *)
Definition inner_join {A B} (on : A -> B -> bool) (l : list A) (r : list B)
  : list (A * B) :=
  flat_map (fun a => map (fun b => (a, b)) (filter (on a) r)) l.

(** [GROUP BY key], groups in order of first appearance. *)
Definition group_by {A} (key : A -> Z) (l : list A) : list (list A) :=
  map (fun k => filter (fun x => key x =? k) l) (nodup Z.eq_dec (map key l)).

(** [SUM] over a column with NULLs: NULL when no row has a value. *)
Definition sql_sum (column : list (option Q)) : option Q :=
  fold_left (fun acc x =>
               match x, acc with
               | None, _ => acc
               | Some v, None => Some v
               | Some v, Some a => Some (a + v)%Q
               end) column None.

Definition coalesce (x : option Q) (default : Q) : Q :=
  match x with Some v => v | None => default end.

Module Listing.
(** A row of the item listing. *)
Record row := mk {
  id : Z;
  item_name : string;
  purchased_qty : Q;
  sold_qty : Q;
  current_stock : Q;
  purchase_price : Q;
  sale_price : Q
}.
End Listing.

(** A row of [items i LEFT JOIN purchases p LEFT JOIN sales s]. *)
Definition joined : Type := (Item.row * option Bill.row * option Bill.row)%type.

(** FROM items i LEFT JOIN purchases p ON i.id = p.item_id
               LEFT JOIN sales s ON i.id = s.item_id. *)
Definition items_purchases_sales (db : database) : list joined :=
  left_join (fun (ip : Item.row * option Bill.row) s =>
               Item.id (fst ip) =? Bill.item_id s)
    (left_join (fun i p => Item.id i =? Bill.item_id p)
               (items db) (purchases db))
    (sales db).

(** The select list over one group; the item columns are those of the
    group's first row. *)
Definition aggregate (group : list joined) : list Listing.row :=
  match group with
  | [] => []
  | (i, _, _) :: _ =>
      [Listing.mk (Item.id i) (Item.item_name i)
         (coalesce
            (sql_sum (map (fun r : joined =>
                             option_map Bill.quantity (snd (fst r))) group)) 0)
         (coalesce
            (sql_sum (map (fun r : joined =>
                             option_map Bill.quantity (snd r)) group)) 0)
         (Item.current_stock i) (Item.purchase_price i) (Item.sale_price i)]
  end.

(** SELECT ... GROUP BY i.id ORDER BY i.item_name over the joined rows. *)
Definition select_listing (rows : list joined) : list Listing.row :=
  sort_by (fun a b => String.leb (Listing.item_name a) (Listing.item_name b))
    (flat_map aggregate
       (group_by (fun r : joined => Item.id (fst (fst r))) rows)).

(** [DatabaseManager.get_all_items]. *)
Definition get_all_items (db : database) : list Listing.row :=
  select_listing (items_purchases_sales db).

(** [DatabaseManager.search_items]: the same query with
    WHERE i.item_name LIKE ?. *)
Definition search_items (search_term : string) (db : database)
  : list Listing.row :=
  select_listing
    (filter (fun r : joined =>
               like (contains_pattern search_term)
                    (Item.item_name (fst (fst r))))
            (items_purchases_sales db)).

(** ** The bill listing of [BillsViewScreen] *)

(** A listed bill: ["P"] or ["S"], then bill_no, date, item_name, quantity,
    rate, total. *)
Definition bill_tuple : Type :=
  (string * string * string * string * Q * Q * Q)%type.

Definition tuple_date (x : bill_tuple) : string :=
  let '(_, _, date, _, _, _, _) := x in date.

(** ORDER BY date DESC, id DESC. *)
Definition date_desc_id_desc (x y : Bill.row * Item.row) : bool :=
  match String.compare (Bill.date (fst y)) (Bill.date (fst x)) with
  | Lt => true
  | Eq => Bill.id (fst y) <=? Bill.id (fst x)
  | Gt => false
  end.

(** SELECT p.bill_no, p.date, i.item_name, p.quantity, p.rate, p.total
    FROM table p JOIN items i ON p.item_id = i.id WHERE p.bill_no LIKE ?
    ORDER BY p.date DESC, p.id DESC, before the select list is applied. *)
Definition select_bill_rows (table : list Bill.row) (search_term : string)
           (db : database) : list (Bill.row * Item.row) :=
  sort_by date_desc_id_desc
    (filter (fun r : Bill.row * Item.row =>
               like (contains_pattern search_term) (Bill.bill_no (fst r)))
            (inner_join (fun p i => Bill.item_id p =? Item.id i)
                        table (items db))).

(** The select list, with the tag [load_bills] puts in front. *)
Definition tagged (tag : string) (r : Bill.row * Item.row) : bill_tuple :=
  (tag, Bill.bill_no (fst r), Bill.date (fst r), Item.item_name (snd r),
   Bill.quantity (fst r), Bill.rate (fst r), Bill.total (fst r)).

Definition one_of (s : string) (choices : list string) : bool :=
  existsb (String.eqb s) choices.

(** [all_bills.sort(key=lambda x: x[2], reverse=True)]. *)
Definition date_desc (x y : bill_tuple) : bool :=
  String.leb (tuple_date y) (tuple_date x).

(** [BillsViewScreen.load_bills], up to the list handed to
    [populate_table]; [bill_type] is the text of the type filter and
    [search_text] the text of the search box. *)
Definition load_bills (bill_type search_text : string) (db : database)
  : list bill_tuple :=
  let search_term := strip str_space search_text in
  let purchases :=
    if one_of bill_type ["All Bills"; "Purchases Only"]
    then map (tagged "P") (select_bill_rows (purchases db) search_term db)
    else [] in
  let sales :=
    if one_of bill_type ["All Bills"; "Sales Only"]
    then map (tagged "S") (select_bill_rows (sales db) search_term db)
    else [] in
  sort_by date_desc (purchases ++ sales).

(** The bill-number rule in the words of the specification, for comparison
    with [get_next_bill_no]: strip the prefix from the last bill number, read
    the remaining digits as a number, add one, pad with zeros to four digits;
    the first number when there is nothing to read. *)
Fixpoint strip_prefix (prefix s : string) : option string :=
  match prefix, s with
  | EmptyString, _ => Some s
  | String a p, String b t => if Ascii.eqb a b then strip_prefix p t else None
  | String _ _, EmptyString => None
  end.

Definition next_bill_no_as_specified (prefix last_bill : string) : string :=
  match strip_prefix prefix last_bill with
  | Some (String c t as digits) =>
      if string_forall is_digit digits then
        match NilEmpty.uint_of_string digits with
        | Some u => (prefix ++ zfill 4 (decimal (N.of_uint u + 1)))%string
        | None => (prefix ++ "0001")%string
        end
      else (prefix ++ "0001")%string
  | _ => (prefix ++ "0001")%string
  end.

(** ** Decimal literals

    The argument strings that Python's [int()] accepts in base 10, in the
    words of the language reference, for comparison with [py_int]:
    whitespace, an optional sign, groups of decimal digits separated by
    single underscores, whitespace. *)

Inductive sign := NoSign | Plus | Minus.

Definition sign_text (s : sign) : string :=
  match s with NoSign => "" | Plus => "+" | Minus => "-" end.

Definition signed (s : sign) (n : Z) : Z :=
  match s with Minus => - n | _ => n end.

(** A non-empty string of decimal digits. *)
Definition digit_group (g : string) : Prop :=
  g <> "" /\ string_forall is_digit g = true.

(** The groups after the first, each behind its underscore. *)
Fixpoint tail_groups (groups : list string) : string :=
  match groups with
  | [] => ""
  | g :: rest => "_" ++ g ++ tail_groups rest
  end.

Fixpoint concat_groups (groups : list string) : string :=
  match groups with
  | [] => ""
  | g :: rest => g ++ concat_groups rest
  end.

(** The number a string of decimal digits denotes. *)
Definition digits_value (ds : string) : Z :=
  match NilEmpty.uint_of_string ds with
  | Some u => Z.of_uint u
  | None => 0
  end.

(** [s] is a decimal literal of value [z], of at most
    [int_max_str_digits] digits. *)
Definition int_literal (s : string) (z : Z) : Prop :=
  exists (lead : string) (sgn : sign) (g : string) (groups : list string)
         (trail : string),
    s = lead ++ sign_text sgn ++ g ++ tail_groups groups ++ trail
    /\ string_forall int_space lead = true
    /\ string_forall int_space trail = true
    /\ digit_group g /\ Forall digit_group groups
    /\ (String.length (g ++ concat_groups groups) <= int_max_str_digits)%nat
    /\ z = signed sgn (digits_value (g ++ concat_groups groups)).

(** ** What a call leaves of an item *)

(** The row [add_purchase] leaves in place of item [it]. *)
Definition purchased (quantity rate : Q) (it : Item.row) : Item.row :=
  Item.mk (Item.id it) (Item.item_name it)
          (Item.current_stock it + quantity) rate (Item.sale_price it).

(** The row [add_sale] leaves in place of item [it]. *)
Definition sold (quantity rate : Q) (it : Item.row) : Item.row :=
  Item.mk (Item.id it) (Item.item_name it)
          (Item.current_stock it - quantity) (Item.purchase_price it) rate.

Definition on_item (item_id : Z) (f : Item.row -> Item.row) (it : Item.row)
  : Item.row :=
  if Item.id it =? item_id then f it else it.

(** ** Sessions: sequences of calls on one [DatabaseManager] *)

Definition state_of {A} (o : outcome A) : database :=
  match o with Returned _ db => db | Raised _ db => db end.

Inductive call :=
| AddItem (item_name : string) (purchase_price sale_price : Q)
| UpdateItem (item_id : Z) (item_name : string) (purchase_price sale_price : Q)
| DeleteItem (item_id : Z)
| AddPurchase (bill_no date : string) (item_id : Z) (quantity rate : Q)
| AddSale (bill_no date : string) (item_id : Z) (quantity rate : Q).

(** The database a call leaves behind. *)
Definition perform (c : call) (db : database) : database :=
  match c with
  | AddItem n p s => state_of (add_item n p s db)
  | UpdateItem i n p s => state_of (update_item i n p s db)
  | DeleteItem i => state_of (delete_item i db)
  | AddPurchase b d i q r => state_of (add_purchase b d i q r db)
  | AddSale b d i q r => state_of (add_sale b d i q r db)
  end.

Fixpoint session (cs : list call) (db : database) : database :=
  match cs with
  | [] => db
  | c :: cs' => session cs' (perform c db)
  end.

(** Sum of the [quantity] column over the rows of [l] that name [item_id]. *)
Definition sum_quantity (item_id : Z) (l : list Bill.row) : Q :=
  fold_right Qplus 0%Q
    (map Bill.quantity (filter (fun b => Bill.item_id b =? item_id) l)).

(** A call that commits a purchase for item [j] comes after [add_item] has
    handed out the id [j]. *)
Definition follows_creation (j : Z) (c : call) (db : database) : Prop :=
  match c with
  | AddPurchase bill_no date item_id quantity rate =>
      item_id = j ->
      (exists db',
         add_purchase bill_no date item_id quantity rate db =
         Returned true db') ->
      j <= items_seq db
  | _ => True
  end.

(** Every purchase the session commits for item [j] is made once the item
    exists: the session commits no purchase for the id before [add_item]
    hands it out. *)
Fixpoint purchases_follow_creation (j : Z) (cs : list call) (db : database)
  : Prop :=
  match cs with
  | [] => True
  | c :: cs' =>
      follows_creation j c db /\ purchases_follow_creation j cs' (perform c db)
  end.

(** A REAL value that is a whole number. *)
Definition whole (q : Q) : Prop := Qden q = 1%positive.

(** The quantity by which a call changes the stock of item [j]: the
    quantity of a purchase or of a sale that names [j] and commits, 0 for
    every other call. *)
Definition committed_quantity (j : Z) (c : call) (db : database) : Q :=
  match c with
  | AddPurchase bill_no date item_id quantity rate =>
      match add_purchase bill_no date item_id quantity rate db with
      | Returned true _ => if item_id =? j then quantity else 0%Q
      | _ => 0%Q
      end
  | AddSale bill_no date item_id quantity rate =>
      match add_sale bill_no date item_id quantity rate db with
      | Returned (true, _) _ => if item_id =? j then quantity else 0%Q
      | _ => 0%Q
      end
  | _ => 0%Q
  end.

(** The quantities a session commits for item [j], added up without their
    signs. *)
Fixpoint volume (j : Z) (cs : list call) (db : database) : Z :=
  match cs with
  | [] => 0
  | c :: cs' =>
      Z.abs (Qnum (committed_quantity j c db)) + volume j cs' (perform c db)
  end.

Fixpoint committed_whole (j : Z) (cs : list call) (db : database) : Prop :=
  match cs with
  | [] => True
  | c :: cs' =>
      whole (committed_quantity j c db) /\ committed_whole j cs' (perform c db)
  end.

(** The sessions on which the running stock of item [j] is exact in
    binary64: every quantity committed for [j] is a whole number, and these
    quantities, added up without their signs, stay within [bound]. *)
Definition whole_quantities (j : Z) (bound : Z) (cs : list call)
           (db : database) : Prop :=
  committed_whole j cs db /\ volume j cs db <= bound.

(** The quantity a call hands to the ledger, 0 for the item operations. *)
Definition call_quantity (c : call) : Q :=
  match c with
  | AddPurchase _ _ _ quantity _ => quantity
  | AddSale _ _ _ quantity _ => quantity
  | _ => 0%Q
  end.

(** The quantities handed to the ledger over a session, added up without
    their signs. *)
Fixpoint total_volume (cs : list call) : Z :=
  match cs with
  | [] => 0
  | c :: cs' => Z.abs (Qnum (call_quantity c)) + total_volume cs'
  end.

(** The sessions on which the sums of the item listing are exact in
    binary64: every quantity is a whole number, and the quantities, added up
    without their signs and multiplied by the number of calls, stay within
    2^53 (the listing sums a quantity once per row of the other table). *)
Definition whole_session (cs : list call) : Prop :=
  Forall (fun c => whole (call_quantity c)) cs
  /\ total_volume cs * Z.max 1 (Z.of_nat (List.length cs)) <= 2 ^ 53.

(** Every purchase and every sale of the session has a positive quantity. *)
Definition positive_quantities (cs : list call) : Prop :=
  Forall (fun c =>
            match c with
            | AddPurchase _ _ _ quantity _ => (0 < quantity)%Q
            | AddSale _ _ _ quantity _ => (0 < quantity)%Q
            | _ => True
            end) cs.

(** ** Predicates of the statements below *)

(** Some purchase or sale row names item [item_id]. *)
Definition referenced (item_id : Z) (db : database) : Prop :=
  exists b, (In b (purchases db) \/ In b (sales db)) /\ Bill.item_id b = item_id.

(** The invariant behind C2, for the item id [j]: the stored
    [current_stock] of item [j] is the balance of its purchase and sale rows,
    and no row names [j] as long as [add_item] has yet to hand it out. *)
Record ledger_inv (j : Z) (db : database) : Prop := {
  inv_stock : forall it, In it (items db) -> Item.id it = j ->
    (Item.current_stock it ==
     sum_quantity j (purchases db) - sum_quantity j (sales db))%Q;
  inv_items : forall it, In it (items db) -> Item.id it <= items_seq db;
  inv_purchases : items_seq db < j ->
    forall b, In b (purchases db) -> Bill.item_id b <> j;
  inv_sales : items_seq db < j ->
    forall b, In b (sales db) -> Bill.item_id b <> j
}.

(** The stored [current_stock] of item [j] is a whole number of magnitude
    at most [bound]. *)
Definition whole_stock (j : Z) (bound : Z) (db : database) : Prop :=
  0 <= bound
  /\ forall it, In it (items db) -> Item.id it = j ->
       whole (Item.current_stock it)
       /\ Z.abs (Qnum (Item.current_stock it)) <= bound.

(** Stocks are non-negative and item ids are distinct (the primary key),
    none above the AUTOINCREMENT counter. *)
Record stock_inv (db : database) : Prop := {
  inv_nonneg : forall it, In it (items db) -> (0 <= Item.current_stock it)%Q;
  inv_nodup : NoDup (map Item.id (items db));
  inv_bound : forall it, In it (items db) -> Item.id it <= items_seq db
}.

(** [x] stands before [y] in a list sorted by [sort_by before]: the keys
    allow it, and when the keys tie, [x] stood before [y] in the given list
    ([given x y]). *)
Definition stable_order {A} (before : A -> A -> bool)
           (given : A -> A -> Prop) (x y : A) : Prop :=
  before x y = true /\ (before y x = true -> given x y).

(** A listed bill with the rows it was selected from. *)
Definition listed : Type := (string * (Bill.row * Item.row))%type.

Definition listed_tuple (x : listed) : bill_tuple := tagged (fst x) (snd x).

Definition listed_date (x : listed) : string := Bill.date (fst (snd x)).

Definition listed_id (x : listed) : Z := Bill.id (fst (snd x)).

(** [x] is listed above [y]: the date of [x] is not earlier, and on equal
    dates either [x] is a purchase and [y] a sale, or both are of one kind
    and [x] has the larger row id (was inserted later). *)
Definition listing_order (x y : listed) : Prop :=
  String.leb (listed_date y) (listed_date x) = true
  /\ (listed_date x = listed_date y ->
      (fst x = "P" /\ fst y = "S")
      \/ (fst x = fst y /\ listed_id y <= listed_id x)).

(** How two rows stand in the list that [load_bills] sorts: purchases
    before sales, each kind in the order of its query. *)
Definition given_order (x y : listed) : Prop :=
  (fst x = "P" /\ fst y = "S")
  \/ (fst x = fst y /\ date_desc_id_desc (snd x) (snd y) = true).

(** ** Databases used as examples *)

(** Item "Bolt" (id 1) after [add_purchase("P0001", "2024-01-01", 1, 10, 5)]. *)
Definition bolt_stocked : database :=
  state_of (add_purchase "P0001" "2024-01-01" 1 10 5
              (state_of (add_item "Bolt" 10 15 create_tables))).

(** The same database after a second [add_item("Bolt", 10, 15)]. *)
Definition bolt_refused : database :=
  state_of (add_item "Bolt" 10 15 bolt_stocked).

(** A session on item "Bolt": bought 10, sold 4, sold the remaining 6,
    a sale of 1 refused, bought 3. *)
Definition bolt_session : list call :=
  [ AddItem "Bolt" 10 15;
    AddPurchase "P0001" "2024-01-01" 1 10 5;
    AddSale "S0001" "2024-01-02" 1 4 8;
    AddSale "S0002" "2024-01-03" 1 6 8;
    AddSale "S0003" "2024-01-04" 1 1 8;
    AddPurchase "P0002" "2024-01-05" 1 3 6 ].

(** Item "Bolt" bought and then sold on the same day. *)
Definition same_day_purchase : database :=
  session [ AddItem "Bolt" 10 15;
            AddPurchase "P0001" "2024-01-01" 1 10 5 ] create_tables.

Definition same_day_sale : database :=
  state_of (add_sale "S0001" "2024-01-01" 1 4 8 same_day_purchase).

(** Item "Bolt" with two purchases (10 and 5) and one sale (3). *)
Definition bolt_two_purchases : database :=
  session [ AddItem "Bolt" 10 15;
            AddPurchase "P0001" "2024-01-01" 1 10 5;
            AddPurchase "P0002" "2024-01-02" 1 5 5;
            AddSale "S0001" "2024-01-03" 1 3 8 ] create_tables.

(** ** The entry form of [EntryScreen] *)

(** The bill number [EntryScreen.update_entry_form] puts in the form:
    [entry_type] is the text of the transaction-type selector. *)
Definition update_entry_form (entry_type : string) (db : database) : string :=
  if String.eqb entry_type "Purchase Entry"
  then get_next_bill_no "P" (get_last_purchase_bill_no db)
  else get_next_bill_no "S" (get_last_sale_bill_no db).

(** ** Predicates on databases *)

(** The columns [add_purchase] and [add_sale] write to [stock_log]. *)
Definition log_columns : Type := (Z * Q * log_type * string * string)%type.

Definition log_entry (e : Log.row) : log_columns :=
  (Log.item_id e, Log.change_qty e, Log.type e, Log.date e, Log.bill_no e).

Definition log_of_purchase (b : Bill.row) : log_columns :=
  (Bill.item_id b, Bill.quantity b, purchase, Bill.date b, Bill.bill_no b).

Definition log_of_sale (b : Bill.row) : log_columns :=
  (Bill.item_id b, (- Bill.quantity b)%Q, sale, Bill.date b, Bill.bill_no b).

Definition is_purchase_entry (e : Log.row) : bool :=
  match Log.type e with purchase => true | sale => false end.

Definition is_sale_entry (e : Log.row) : bool :=
  match Log.type e with purchase => false | sale => true end.

(** Sum of [change_qty] over the log entries of [l] that name [item_id]. *)
Definition sum_change (item_id : Z) (l : list Log.row) : Q :=
  fold_right Qplus 0%Q
    (map Log.change_qty (filter (fun e => Log.item_id e =? item_id) l)).

(** The ids 1, 2, ..., n of a table that only ever grows. *)
Definition first_ids (n : nat) : list Z := map Z.of_nat (seq 1 n).

(** What every session keeps true of the item table. *)
Record catalog_inv (db : database) : Prop := {
  cat_ids : NoDup (map Item.id (items db));
  cat_bound : forall it, In it (items db) -> 1 <= Item.id it <= items_seq db;
  cat_seq : 0 <= items_seq db;
  cat_names : NoDup (map Item.item_name (items db));
  cat_sales : forall s, In s (sales db) ->
    exists it, In it (items db) /\ Item.id it = Bill.item_id s
}.

(** What every session keeps true of the three ledger tables. *)
Record ledger_rows_inv (db : database) : Prop := {
  rows_purchase_ids :
    map Bill.id (purchases db) = first_ids (List.length (purchases db));
  rows_purchase_seq : purchases_seq db = Z.of_nat (List.length (purchases db));
  rows_sale_ids : map Bill.id (sales db) = first_ids (List.length (sales db));
  rows_sale_seq : sales_seq db = Z.of_nat (List.length (sales db));
  rows_log_ids :
    map Log.id (stock_log db) = first_ids (List.length (stock_log db));
  rows_log_seq : stock_log_seq db = Z.of_nat (List.length (stock_log db));
  rows_totals : forall b, In b (purchases db) \/ In b (sales db) ->
    Bill.total b = (Bill.quantity b * Bill.rate b)%Q;
  rows_log_purchases :
    map log_entry (filter is_purchase_entry (stock_log db)) =
    map log_of_purchase (purchases db);
  rows_log_sales :
    map log_entry (filter is_sale_entry (stock_log db)) =
    map log_of_sale (sales db)
}.

(** The signed changes logged for an item add up to the balance of its
    purchase and sale rows. *)
Definition log_balanced (db : database) : Prop :=
  forall j,
    (sum_change j (stock_log db) ==
     sum_quantity j (purchases db) - sum_quantity j (sales db))%Q.

(** The bill number of the [k]-th purchase when numbers run from "P0001". *)
Definition purchase_label (k : nat) : string :=
  String "P" (zfill 4 (decimal (N.of_nat k))).

(** Purchases recorded one after the other, each under the bill number the
    entry form proposes at that moment ([update_entry_form], then
    [add_purchase] with that number); an entry is (date, item_id, quantity,
    rate). *)
Fixpoint save_purchases_as_proposed
         (entries : list (string * Z * Q * Q)) (db : database) : database :=
  match entries with
  | [] => db
  | (date, item_id, quantity, rate) :: rest =>
      save_purchases_as_proposed rest
        (state_of (add_purchase (update_entry_form "Purchase Entry" db)
                                date item_id quantity rate db))
  end.

(** The item id of an entry is one that SQLite can hold. *)
Definition entry_id_fits (entry : string * Z * Q * Q) : Prop :=
  sqlite_int (snd (fst (fst entry))) = true.

(** Two purchases of item 1, as entries of the form. *)
Definition two_entries : list (string * Z * Q * Q) :=
  [ ("2024-01-01", 1, 10%Q, 5%Q); ("2024-01-02", 1, 3%Q, 6%Q) ].

(** A string without NUL character. *)
Definition no_nul (s : string) : Prop := c_string s = s.

(** ASCII lower case of a string: two strings with the same image differ
    in the case of letters at most. *)
Fixpoint lower_string (s : string) : string :=
  match s with
  | EmptyString => EmptyString
  | String c t => String (to_lower c) (lower_string t)
  end.

(** The right-hand sides a left row is paired with by a LEFT JOIN: the
    matching rows, or one NULL when there is none. *)
Definition opt_rows {B} (matching : list B) : list (option B) :=
  match matching with
  | [] => [None]
  | m => map Some m
  end.

(** The joined rows of one item. *)
Definition item_rows (db : database) (i : Item.row) : list joined :=
  flat_map
    (fun op => map (pair (i, op))
                   (opt_rows (filter (fun s => Item.id i =? Bill.item_id s)
                                     (sales db))))
    (opt_rows (filter (fun p => Item.id i =? Bill.item_id p) (purchases db))).

(** The purchase and sale columns that the listing sums. *)
Definition purchase_quantity (r : joined) : option Q :=
  option_map Bill.quantity (snd (fst r)).

Definition sale_quantity (r : joined) : option Q :=
  option_map Bill.quantity (snd r).

(** The listing row of one item. *)
Definition listing_row (db : database) (i : Item.row) : Listing.row :=
  Listing.mk (Item.id i) (Item.item_name i)
    (coalesce (sql_sum (map purchase_quantity (item_rows db i))) 0)
    (coalesce (sql_sum (map sale_quantity (item_rows db i))) 0)
    (Item.current_stock i) (Item.purchase_price i) (Item.sale_price i).

(** ORDER BY item_name. *)
Definition by_name (a b : Listing.row) : bool :=
  String.leb (Listing.item_name a) (Listing.item_name b).

(** The values of a column that are not NULL. *)
Definition not_null (column : list (option Q)) : list Q :=
  flat_map (fun x => match x with Some v => [v] | None => [] end) column.

Definition qsum (l : list Q) : Q := fold_right Qplus 0%Q l.

(** The value of a column entry in a sum: NULL counts for nothing. *)
Definition null_as_zero (x : option Q) : Q :=
  match x with Some v => v | None => 0%Q end.

(** The state of the purchases table after [k] purchases numbered in
    sequence. *)
Definition numbered (k : nat) (db : database) : Prop :=
  in_transaction db = false
  /\ List.length (purchases db) = k
  /\ map Bill.id (purchases db) = first_ids k
  /\ purchases_seq db = Z.of_nat k
  /\ map Bill.bill_no (purchases db) = map purchase_label (seq 1 k).

(** ** The ledger over binary64 values

    [add_item], [add_purchase] and [add_sale] once more, with the REAL
    columns as SQLite holds them: binary64 values, NaN stored as NULL.  Each
    method is written as the result and the database it leaves, statement
    failures included; the methods are those of the main model with the
    arithmetic of the machine. *)

Module Ieee.

(** What SQLite keeps of a binary64 value that is bound to a parameter or
    that an expression yields: NaN becomes NULL ([None]). *)
Definition stored (x : float) : option float :=
  if PrimFloat.is_nan x then None else Some x.

(** [a + b] and [a - b] in SQL: NULL when an operand is NULL. *)
Definition sql_add (a b : option float) : option float :=
  match a, b with
  | Some x, Some y => stored (PrimFloat.add x y)
  | _, _ => None
  end.

Definition sql_sub (a b : option float) : option float :=
  match a, b with
  | Some x, Some y => stored (PrimFloat.sub x y)
  | _, _ => None
  end.

(** The rational number a finite binary64 value stands for. *)
Definition exact (x : float) : option Q :=
  match FloatOps.Prim2SF x with
  | SpecFloat.S754_zero _ => Some 0%Q
  | SpecFloat.S754_finite negative m e =>
      let n := if negative then Z.neg m else Z.pos m in
      Some (if 0 <=? e then inject_Z (n * 2 ^ e)
            else Qmake n (Pos.pow 2 (Z.to_pos (- e))))
  | _ => None
  end.

Module Item.
Record row := mk {
  id : Z;
  item_name : string;
  current_stock : option float;
  purchase_price : option float;
  sale_price : option float
}.
End Item.

Module Bill.
Record row := mk {
  id : Z;
  bill_no : string;
  date : string;
  item_id : Z;
  quantity : float;
  rate : float;
  total : float
}.
End Bill.

Module Log.
Record row := mk {
  id : Z;
  item_id : Z;
  change_qty : float;
  type : log_type;
  date : string;
  bill_no : string
}.
End Log.

Record database := mkdb {
  items : list Item.row;
  items_seq : Z;
  purchases : list Bill.row;
  purchases_seq : Z;
  sales : list Bill.row;
  sales_seq : Z;
  stock_log : list Log.row;
  stock_log_seq : Z;
  in_transaction : bool
}.

Definition create_tables : database := mkdb [] 0 [] 0 [] 0 [] 0 false.

Definition set_in_transaction (b : bool) (db : database) : database :=
  mkdb (items db) (items_seq db) (purchases db) (purchases_seq db)
       (sales db) (sales_seq db) (stock_log db) (stock_log_seq db) b.

Definition rollback (entry : database) : database :=
  set_in_transaction false entry.

(** [DatabaseManager.add_item]: the result and the connection it leaves. *)
Definition add_item (item_name : string) (purchase_price sale_price : float)
           (db : database) : bool * database :=
  if existsb (fun it => String.eqb (Item.item_name it) item_name) (items db)
  then (false, set_in_transaction true db)
  else
    let new_id := items_seq db + 1 in
    (true,
     mkdb (items db ++
             [Item.mk new_id item_name (Some zero)
                      (stored purchase_price) (stored sale_price)])
          new_id (purchases db) (purchases_seq db) (sales db) (sales_seq db)
          (stock_log db) (stock_log_seq db) false).

(** The first of the columns [quantity], [rate] and [total] that breaks its
    NOT NULL constraint, NaN being bound as NULL. *)
Definition null_column (quantity rate total : float) : option string :=
  if PrimFloat.is_nan quantity then Some "quantity"
  else if PrimFloat.is_nan rate then Some "rate"
  else if PrimFloat.is_nan total then Some "total"
  else None.

(** [DatabaseManager.add_purchase]: [BEGIN], the INSERT (which binds the
    parameters and checks the constraints), the UPDATE of the item, the
    INSERT into the log, [commit]; [False] and [rollback] on an exception. *)
Definition add_purchase (bill_no date : string) (item_id : Z)
           (quantity rate : float) (db : database) : bool * database :=
  if in_transaction db then (false, rollback db)
  else
    let total := PrimFloat.mul quantity rate in
    if negb (sqlite_int item_id) then (false, rollback db)
    else
      match null_column quantity rate total with
      | Some _ => (false, rollback db)
      | None =>
          (true,
           mkdb (map (fun it =>
                        if Item.id it =? item_id
                        then Item.mk (Item.id it) (Item.item_name it)
                               (sql_add (Item.current_stock it)
                                        (stored quantity))
                               (stored rate) (Item.sale_price it)
                        else it)
                     (items db))
                (items_seq db)
                (purchases db ++
                   [Bill.mk (purchases_seq db + 1) bill_no date item_id
                            quantity rate total])
                (purchases_seq db + 1) (sales db) (sales_seq db)
                (stock_log db ++
                   [Log.mk (stock_log_seq db + 1) item_id quantity purchase
                           date bill_no])
                (stock_log_seq db + 1) false)
      end.

Inductive sale_message :=
| Success
| ItemNotFound
| InsufficientStock (available : float)
| ErrorText (msg : string).

(** [DatabaseManager.add_sale].  [result[0]] is [None] when the stored
    [current_stock] is NULL, and Python's [None < quantity] raises
    [TypeError]. *)
Definition add_sale (bill_no date : string) (item_id : Z)
           (quantity rate : float) (db : database)
  : bool * sale_message * database :=
  if in_transaction db
  then (false, ErrorText "cannot start a transaction within a transaction",
        rollback db)
  else
    match find (fun it => Item.id it =? item_id) (items db) with
    | None =>
        if sqlite_int item_id then (false, ItemNotFound, rollback db)
        else (false,
              ErrorText "Python int too large to convert to SQLite INTEGER",
              rollback db)
    | Some it =>
        match Item.current_stock it with
        | None =>
            (false,
             ErrorText
               "'<' not supported between instances of 'NoneType' and 'float'",
             rollback db)
        | Some current_stock =>
            if PrimFloat.ltb current_stock quantity
            then (false, InsufficientStock current_stock, rollback db)
            else
              let total := PrimFloat.mul quantity rate in
              match null_column quantity rate total with
              | Some column =>
                  (false,
                   ErrorText ("NOT NULL constraint failed: sales." ++ column),
                   rollback db)
              | None =>
                (true, Success,
                 mkdb (map (fun it =>
                              if Item.id it =? item_id
                              then Item.mk (Item.id it) (Item.item_name it)
                                     (sql_sub (Item.current_stock it)
                                              (stored quantity))
                                     (Item.purchase_price it) (stored rate)
                              else it)
                           (items db))
                      (items_seq db) (purchases db) (purchases_seq db)
                      (sales db ++
                         [Bill.mk (sales_seq db + 1) bill_no date item_id
                                  quantity rate total])
                      (sales_seq db + 1)
                      (stock_log db ++
                         [Log.mk (stock_log_seq db + 1) item_id
                                 (PrimFloat.opp quantity) sale date bill_no])
                      (stock_log_seq db + 1) false)
              end
        end
    end.

(** [SUM] over a REAL column, in row order. *)
Definition sql_sum (column : list float) : float :=
  fold_left PrimFloat.add column zero.

(** The [quantity] column of the rows naming [item_id]. *)
Definition quantities (item_id : Z) (l : list Bill.row) : list float :=
  map Bill.quantity (filter (fun b => Bill.item_id b =? item_id) l).

(** The stored [current_stock] of item [item_id]. *)
Definition stock_of (item_id : Z) (db : database) : option (option float) :=
  option_map Item.current_stock
    (find (fun it => Item.id it =? item_id) (items db)).

End Ieee.

(** One tenth and one fifth as [float()] reads "0.1" and "0.2": the binary64
    values nearest to them. *)
Definition tenth : float := PrimFloat.div 1 10.
Definition fifth : float := PrimFloat.div 2 10.

(** Item "Bolt" (id 1), then two purchases of 0.1 and 0.2. *)
Definition ieee_bolt : Ieee.database :=
  snd (Ieee.add_item "Bolt" 10 15 Ieee.create_tables).

Definition ieee_two_purchases : Ieee.database :=
  snd (Ieee.add_purchase "P0002" "2024-01-02" 1 fifth 5
         (snd (Ieee.add_purchase "P0001" "2024-01-01" 1 tenth 5 ieee_bolt))).

(** Item "Bolt": 0.1 bought, 0.1 sold, 0.2 bought. *)
Definition ieee_sold_between : Ieee.database :=
  snd (Ieee.add_purchase "P0002" "2024-01-03" 1 fifth 5
         (snd (Ieee.add_sale "S0001" "2024-01-02" 1 tenth 8
                 (snd (Ieee.add_purchase "P0001" "2024-01-01" 1 tenth 5
                         ieee_bolt))))).

(** Item "Bolt" after a purchase of quantity [inf], and after the sale of
    quantity [inf] that follows. *)
Definition ieee_infinite_purchase : Ieee.database :=
  snd (Ieee.add_purchase "P0001" "2024-01-01" 1 infinity 5 ieee_bolt).

Definition ieee_infinite_sale : Ieee.database :=
  snd (Ieee.add_sale "S0001" "2024-01-02" 1 infinity 8 ieee_infinite_purchase).

(** A purchase for id 7, which no item has. *)
Definition dangling_purchase : database :=
  session [ AddItem "Bolt" 10 15;
            AddPurchase "P0001" "2024-01-01" 7 4 5 ] create_tables.

(** * Properties *)

(** ** Basic facts *)

Lemma Qltb_lt (x y : Q) : Qltb x y = true <-> (x < y)%Q.
Proof.
  unfold Qltb. rewrite negb_true_iff, <- not_true_iff_false, Qle_bool_iff.
  split; [apply Qnot_le_lt | apply Qlt_not_le].
Qed.

Lemma Qltb_ge (x y : Q) : Qltb x y = false <-> (y <= x)%Q.
Proof.
  unfold Qltb. rewrite negb_false_iff. apply Qle_bool_iff.
Qed.

Lemma set_in_transaction_same (db : database) :
  set_in_transaction (in_transaction db) db = db.
Proof. destruct db; reflexivity. Qed.

Lemma rollback_idle (db : database) :
  in_transaction db = false -> rollback db = db.
Proof.
  intros H. unfold rollback. rewrite <- H. apply set_in_transaction_same.
Qed.



Ltac simpl_db :=
  cbn [in_transaction set_in_transaction set_items set_purchases set_sales
       set_stock_log items items_seq purchases purchases_seq sales sales_seq
       stock_log stock_log_seq rollback option_map].

(** Unfolds one method down to its statements. *)
Ltac run_sql :=
  unfold add_item, update_item, delete_item, add_purchase, add_sale,
    insert_item, update_item_row, delete_item_row, insert_purchase,
    insert_sale, insert_stock_log, update_stock_purchase, update_stock_sale,
    select_current_stock, bind_id, begin_transaction, implicit_begin, commit,
    bind, ret;
  simpl_db.

Lemma find_map_on_item (item_id j : Z) f (l : list Item.row) :
  (forall it, Item.id (f it) = Item.id it) ->
  find (fun it => Item.id it =? j) (map (on_item item_id f) l) =
  option_map (on_item item_id f) (find (fun it => Item.id it =? j) l).
Proof.
  intros Hid. induction l as [|a l IH]; [reflexivity|].
  cbn [map find]. unfold on_item at 1.
  destruct (Item.id a =? item_id) eqn:Ea.
  - rewrite Hid. destruct (Item.id a =? j) eqn:Ej.
    + cbn [option_map]. unfold on_item. now rewrite Ea.
    + exact IH.
  - destruct (Item.id a =? j); [|exact IH].
    cbn [option_map]. unfold on_item. now rewrite Ea.
Qed.

Lemma map_on_item_absent (item_id : Z) f (l : list Item.row) :
  find (fun it => Item.id it =? item_id) l = None ->
  map (on_item item_id f) l = l.
Proof.
  induction l as [|a l IH]; [reflexivity|]. cbn [find map].
  unfold on_item at 1.
  destruct (Item.id a =? item_id); [discriminate|].
  intros H. now rewrite IH.
Qed.

(** What a call of [add_purchase] does, on an idle connection. *)
Lemma add_purchase_idle bill_no date item_id quantity rate db :
  in_transaction db = false -> sqlite_int item_id = true ->
  add_purchase bill_no date item_id quantity rate db =
  Returned true
    (mkdb (map (on_item item_id (purchased quantity rate)) (items db))
          (items_seq db)
          (purchases db ++
             [Bill.mk (purchases_seq db + 1) bill_no date item_id
                      quantity rate (quantity * rate)])
          (purchases_seq db + 1)
          (sales db) (sales_seq db)
          (stock_log db ++
             [Log.mk (stock_log_seq db + 1) item_id quantity purchase
                     date bill_no])
          (stock_log_seq db + 1)
          false).
Proof.
  intros Hidle Hid. run_sql. rewrite Hidle. simpl_db. rewrite Hid.
  reflexivity.
Qed.

(** What a call of [add_purchase] does with an id that SQLite cannot hold. *)
Lemma add_purchase_unbound bill_no date item_id quantity rate db :
  sqlite_int item_id = false ->
  add_purchase bill_no date item_id quantity rate db =
  Returned false (rollback db).
Proof.
  intros Hid. run_sql. destruct (in_transaction db); [reflexivity|].
  simpl_db. rewrite Hid. reflexivity.
Qed.

(** What a call of [add_purchase] does when a transaction is open. *)
Lemma add_purchase_pending bill_no date item_id quantity rate db :
  in_transaction db = true ->
  add_purchase bill_no date item_id quantity rate db =
  Returned false (rollback db).
Proof.
  intros Hp. run_sql. rewrite Hp. reflexivity.
Qed.

(** What a call of [add_sale] does when a transaction is open. *)
Lemma add_sale_pending bill_no date item_id quantity rate db :
  in_transaction db = true ->
  add_sale bill_no date item_id quantity rate db =
  Returned
    (false, ErrorText "cannot start a transaction within a transaction")
    (rollback db).
Proof.
  intros Hp. run_sql. rewrite Hp. reflexivity.
Qed.

Lemma add_sale_not_found bill_no date item_id quantity rate db :
  in_transaction db = false ->
  get_item_by_id item_id db = None ->
  sqlite_int item_id = true ->
  add_sale bill_no date item_id quantity rate db =
  Returned (false, ItemNotFound) db.
Proof.
  intros Hidle Hnone Hid. unfold get_item_by_id in Hnone.
  run_sql. rewrite Hidle. simpl_db. rewrite Hnone, Hid. simpl_db.
  fold (rollback db). now rewrite rollback_idle.
Qed.

(** What a call of [add_sale] does with an id that SQLite cannot hold and
    that no row of the model carries. *)
Lemma add_sale_unbound bill_no date item_id quantity rate db :
  in_transaction db = false ->
  get_item_by_id item_id db = None ->
  sqlite_int item_id = false ->
  add_sale bill_no date item_id quantity rate db =
  Returned
    (false, ErrorText "Python int too large to convert to SQLite INTEGER")
    db.
Proof.
  intros Hidle Hnone Hid. unfold get_item_by_id in Hnone.
  run_sql. rewrite Hidle. simpl_db. rewrite Hnone, Hid. simpl_db.
  fold (rollback db). now rewrite rollback_idle.
Qed.

(** The insufficient-stock exit of [add_sale], on an idle connection. *)
Lemma add_sale_short_of_stock bill_no date item_id quantity rate db it :
  in_transaction db = false ->
  get_item_by_id item_id db = Some it ->
  (Item.current_stock it < quantity)%Q ->
  add_sale bill_no date item_id quantity rate db =
  Returned (false, InsufficientStock (Item.current_stock it)) db.
Proof.
  intros Hidle Hit Hlt. unfold get_item_by_id in Hit.
  run_sql. rewrite Hidle. simpl_db. rewrite Hit. simpl_db.
  apply Qltb_lt in Hlt. rewrite Hlt.
  fold (rollback db). now rewrite rollback_idle.
Qed.

(** The committing path of [add_sale], on an idle connection. *)
Lemma add_sale_commits bill_no date item_id quantity rate db it :
  in_transaction db = false ->
  get_item_by_id item_id db = Some it ->
  (quantity <= Item.current_stock it)%Q ->
  add_sale bill_no date item_id quantity rate db =
  Returned (true, Success)
    (mkdb (map (on_item item_id (sold quantity rate)) (items db))
          (items_seq db)
          (purchases db) (purchases_seq db)
          (sales db ++
             [Bill.mk (sales_seq db + 1) bill_no date item_id
                      quantity rate (quantity * rate)])
          (sales_seq db + 1)
          (stock_log db ++
             [Log.mk (stock_log_seq db + 1) item_id (- quantity) sale
                     date bill_no])
          (stock_log_seq db + 1)
          false).
Proof.
  intros Hidle Hit Hge. unfold get_item_by_id in Hit.
  run_sql. rewrite Hidle. simpl_db. rewrite Hit. simpl_db.
  apply Qltb_ge in Hge. rewrite Hge. reflexivity.
Qed.

Lemma update_item_outcome i n p s db :
  update_item i n p s db =
  if sqlite_int i then
    if existsb (fun it => Item.id it =? i) (items db)
       && existsb (fun it => negb (Item.id it =? i)
                             && String.eqb (Item.item_name it) n) (items db)
    then Returned false (set_in_transaction true db)
    else Returned true
           (set_in_transaction false
              (set_items
                 (map (on_item i (fun it =>
                         Item.mk (Item.id it) n (Item.current_stock it) p s))
                      (items db))
                 (items_seq db) db))
  else Raised (OverflowError
                 "Python int too large to convert to SQLite INTEGER")
              (set_in_transaction true db).
Proof.
  run_sql. destruct (sqlite_int i); [|reflexivity].
  destruct (_ && _); reflexivity.
Qed.

Lemma delete_item_outcome i db :
  delete_item i db =
  if sqlite_int i then
    if (count_bills i (purchases db) >? 0) || (count_bills i (sales db) >? 0)
    then Returned false db
    else Returned true
           (set_in_transaction false
              (set_items (filter (fun it => negb (Item.id it =? i)) (items db))
                         (items_seq db) db))
  else Returned false db.
Proof.
  run_sql. destruct (sqlite_int i); [|reflexivity].
  destruct (_ || _); reflexivity.
Qed.

(** ** Deleting items *)

Lemma count_bills_pos (item_id : Z) (l : list Bill.row) :
  (count_bills item_id l >? 0) = true <->
  exists b, In b l /\ Bill.item_id b = item_id.
Proof.
  unfold count_bills. rewrite Z.gtb_lt. split.
  - destruct (filter _ l) as [|b t] eqn:E; [cbn; lia|].
    intros _. exists b.
    assert (Hin : In b (filter (fun b => Bill.item_id b =? item_id) l))
      by (rewrite E; now left).
    apply filter_In in Hin. destruct Hin as [Hin Hb].
    split; [exact Hin | now apply Z.eqb_eq].
  - intros [b [Hin Hb]].
    assert (Hf : In b (filter (fun b => Bill.item_id b =? item_id) l))
      by (apply filter_In; split; [exact Hin | now apply Z.eqb_eq]).
    destruct (filter _ l); [destruct Hf | cbn [List.length]; lia].
Qed.

Lemma delete_item_guard (item_id : Z) (db : database) :
  (count_bills item_id (purchases db) >? 0)
  || (count_bills item_id (sales db) >? 0) = true <->
  referenced item_id db.
Proof.
  rewrite orb_true_iff, !count_bills_pos. unfold referenced. split.
  - intros [[b [Hin Hb]]|[b [Hin Hb]]]; exists b; auto.
  - intros [b [[Hin|Hin] Hb]]; [left|right]; exists b; auto.
Qed.





(** ** Recording purchases *)


(** ** A refused [add_item] leaves its transaction open *)

(** The second [add_item] is refused, changes no row, and returns with the
    transaction of its INSERT still open: its handler has no [rollback]. *)
Lemma add_item_refused_leaves_transaction :
  add_item "Bolt" 10 15 bolt_stocked = Returned false bolt_refused
  /\ in_transaction bolt_stocked = false
  /\ in_transaction bolt_refused = true
  /\ same_rows bolt_refused bolt_stocked
  /\ get_item_by_id 1 bolt_refused = Some (Item.mk 1 "Bolt" 10 5 15).
Proof. vm_compute. repeat split. Qed.

(** In general: a refused [add_item] changes no row and leaves the
    transaction open; an accepted one closes it. *)
Lemma add_item_outcome item_name purchase_price sale_price db :
  add_item item_name purchase_price sale_price db =
  if name_taken item_name (items db)
  then Returned false (set_in_transaction true db)
  else Returned true
         (set_in_transaction false
            (set_items
               (items db ++
                  [Item.mk (items_seq db + 1) item_name 0
                           purchase_price sale_price])
               (items_seq db + 1) db)).
Proof.
  run_sql. destruct (name_taken item_name (items db)); reflexivity.
Qed.

(** C1, at the failing input.  Item 1 exists with [current_stock = 10]; the
    sale asks for 15.  Coming right after the refused [add_item], the call
    fails at [BEGIN TRANSACTION]: the reason returned is the text of that
    exception, not the available quantity.  No row changes. *)
Theorem add_sale_insufficient_after_refused_add_item :
  option_map Item.current_stock (get_item_by_id 1 bolt_refused) = Some 10%Q
  /\ (10 < 15)%Q
  /\ add_sale "S0001" "2024-01-02" 1 15 8 bolt_refused =
       Returned
         (false, ErrorText "cannot start a transaction within a transaction")
         bolt_stocked
  /\ add_sale "S0001" "2024-01-02" 1 15 8 bolt_stocked =
       Returned (false, InsufficientStock 10) bolt_stocked.
Proof. vm_compute. repeat split. Qed.

(** C9, at the failing input.  Item 1 exists with [current_stock = 10]; the
    sale asks for exactly 10.  Right after the refused [add_item] the call
    returns failure and the stock stays 10; on the idle connection the same
    call commits and leaves 0. *)
Theorem add_sale_whole_stock_after_refused_add_item :
  option_map Item.current_stock (get_item_by_id 1 bolt_refused) = Some 10%Q
  /\ add_sale "S0001" "2024-01-02" 1 10 8 bolt_refused =
       Returned
         (false, ErrorText "cannot start a transaction within a transaction")
         bolt_stocked
  /\ option_map Item.current_stock (get_item_by_id 1 bolt_stocked) = Some 10%Q
  /\ exists db',
       add_sale "S0001" "2024-01-02" 1 10 8 bolt_stocked =
         Returned (true, Success) db'
       /\ option_map Item.current_stock (get_item_by_id 1 db') = Some 0%Q.
Proof.
  split; [vm_compute; reflexivity|]. split; [vm_compute; reflexivity|].
  split; [vm_compute; reflexivity|].
  eexists. split; vm_compute; reflexivity.
Qed.

(** C10, at the failing input.  No item has id 7.  Right after the refused
    [add_item] the purchase for item 7 returns [False] and inserts nothing;
    on the idle connection the same call returns [True] and inserts a
    purchase row and a log row naming item 7. *)
Theorem add_purchase_missing_item_after_refused_add_item :
  get_item_by_id 7 bolt_refused = None
  /\ add_purchase "P0002" "2024-01-03" 7 4 5 bolt_refused =
       Returned false bolt_stocked
  /\ exists db',
       add_purchase "P0002" "2024-01-03" 7 4 5 bolt_stocked =
         Returned true db'
       /\ purchases db' =
            (purchases bolt_stocked ++
               [Bill.mk 2 "P0002" "2024-01-03" 7 4 5 (4 * 5)])%list
       /\ stock_log db' =
            (stock_log bolt_stocked ++
               [Log.mk 2 7 4 purchase "2024-01-03" "P0002"])%list
       /\ items db' = items bolt_stocked.
Proof.
  split; [vm_compute; reflexivity|]. split; [vm_compute; reflexivity|].
  eexists. split; [vm_compute; reflexivity|].
  vm_compute. repeat split.
Qed.


(** On an idle connection a purchase for an id that no item has, and that
    SQLite can hold, commits its purchase row and its log row and changes no
    item. *)
Lemma purchase_for_missing_item_commits bill_no date item_id quantity rate db :
  in_transaction db = false ->
  sqlite_int item_id = true ->
  get_item_by_id item_id db = None ->
  exists db',
    add_purchase bill_no date item_id quantity rate db = Returned true db'
    /\ purchases db' =
         (purchases db ++
            [Bill.mk (purchases_seq db + 1) bill_no date item_id
                     quantity rate (quantity * rate)])%list
    /\ stock_log db' =
         (stock_log db ++
            [Log.mk (stock_log_seq db + 1) item_id quantity purchase
                    date bill_no])%list
    /\ items db' = items db
    /\ in_transaction db' = false.
Proof.
  intros Hidle Hid Hnone. eexists. split; [now apply add_purchase_idle|].
  simpl_db. repeat split. now apply map_on_item_absent.
Qed.

(** The five shapes a call can give the database. *)
Lemma add_purchase_cases b d i q r db :
  add_purchase b d i q r db = Returned false (rollback db) \/
  add_purchase b d i q r db =
    Returned true
      (mkdb (map (on_item i (purchased q r)) (items db)) (items_seq db)
            (purchases db ++ [Bill.mk (purchases_seq db + 1) b d i q r (q * r)])
            (purchases_seq db + 1) (sales db) (sales_seq db)
            (stock_log db ++ [Log.mk (stock_log_seq db + 1) i q purchase d b])
            (stock_log_seq db + 1) false).
Proof.
  destruct (in_transaction db) eqn:E.
  - left. now apply add_purchase_pending.
  - destruct (sqlite_int i) eqn:Ei.
    + right. now apply add_purchase_idle.
    + left. now apply add_purchase_unbound.
Qed.

Lemma add_sale_cases b d i q r db :
  (exists m, add_sale b d i q r db = Returned (false, m) (rollback db)) \/
  (exists it, get_item_by_id i db = Some it /\
              (q <= Item.current_stock it)%Q /\
     add_sale b d i q r db =
       Returned (true, Success)
         (mkdb (map (on_item i (sold q r)) (items db)) (items_seq db)
               (purchases db) (purchases_seq db)
               (sales db ++ [Bill.mk (sales_seq db + 1) b d i q r (q * r)])
               (sales_seq db + 1)
               (stock_log db ++ [Log.mk (stock_log_seq db + 1) i (- q) sale d b])
               (stock_log_seq db + 1) false)).
Proof.
  destruct (in_transaction db) eqn:E.
  - left. eexists. now apply add_sale_pending.
  - destruct (get_item_by_id i db) as [it|] eqn:Hit.
    + destruct (Qlt_le_dec (Item.current_stock it) q) as [Hlt|Hge].
      * left. eexists.
        rewrite (add_sale_short_of_stock b d i q r db it E Hit Hlt).
        now rewrite rollback_idle.
      * right. exists it. split; [reflexivity|]. split; [exact Hge|].
        now apply add_sale_commits with (it := it).
    + destruct (sqlite_int i) eqn:Ei; left; eexists.
      * rewrite (add_sale_not_found b d i q r db E Hit Ei).
        now rewrite rollback_idle.
      * rewrite (add_sale_unbound b d i q r db E Hit Ei).
        now rewrite rollback_idle.
Qed.

Lemma update_item_cases i n p s db :
  state_of (update_item i n p s db) = set_in_transaction true db \/
  update_item i n p s db =
    Returned true
      (set_in_transaction false
         (set_items
            (map (on_item i (fun it =>
                    Item.mk (Item.id it) n (Item.current_stock it) p s))
                 (items db))
            (items_seq db) db)).
Proof.
  run_sql. destruct (sqlite_int i); [|left; reflexivity].
  destruct (_ && _); [left|right]; reflexivity.
Qed.

Lemma delete_item_cases i db :
  delete_item i db = Returned false db \/
  delete_item i db =
    Returned true
      (set_in_transaction false
         (set_items (filter (fun it => negb (Item.id it =? i)) (items db))
                    (items_seq db) db)).
Proof.
  run_sql. destruct (sqlite_int i); [|left; reflexivity].
  destruct (_ || _); [left|right]; reflexivity.
Qed.

(** ** The ledger on an idle connection *)

(** On a connection with no open transaction, a sale that asks for more than
    the stock of an existing item returns failure with the available
    quantity and leaves the database as it was. *)
Theorem add_sale_reports_available_stock
        bill_no date item_id quantity rate db it :
  in_transaction db = false ->
  get_item_by_id item_id db = Some it ->
  (Item.current_stock it < quantity)%Q ->
  add_sale bill_no date item_id quantity rate db =
  Returned (false, InsufficientStock (Item.current_stock it)) db.
Proof. apply add_sale_short_of_stock. Qed.

Lemma add_sale_reports_available_stock_witness :
  add_sale "S0001" "2024-01-02" 1 15 8 bolt_stocked =
  Returned (false, InsufficientStock 10) bolt_stocked.
Proof.
  assert (H1 : in_transaction bolt_stocked = false)
    by (vm_compute; reflexivity).
  assert (H2 : get_item_by_id 1 bolt_stocked = Some (Item.mk 1 "Bolt" 10 5 15))
    by (vm_compute; reflexivity).
  assert (H3 : (Item.current_stock (Item.mk 1 "Bolt" 10 5 15) < 15)%Q)
    by (vm_compute; reflexivity).
  exact (add_sale_reports_available_stock
           "S0001" "2024-01-02" 1 15 8 bolt_stocked _ H1 H2 H3).
Defined.


Lemma purchase_for_missing_item_commits_witness :
  exists db',
    add_purchase "P0002" "2024-01-03" 7 4 5 bolt_stocked = Returned true db'
    /\ purchases db' =
         (purchases bolt_stocked ++
            [Bill.mk (purchases_seq bolt_stocked + 1) "P0002" "2024-01-03" 7
                     4 5 (4 * 5)])%list
    /\ stock_log db' =
         (stock_log bolt_stocked ++
            [Log.mk (stock_log_seq bolt_stocked + 1) 7 4 purchase
                    "2024-01-03" "P0002"])%list
    /\ items db' = items bolt_stocked
    /\ in_transaction db' = false.
Proof.
  assert (H1 : in_transaction bolt_stocked = false)
    by (vm_compute; reflexivity).
  assert (H2 : get_item_by_id 7 bolt_stocked = None)
    by (vm_compute; reflexivity).
  assert (H3 : sqlite_int 7 = true) by reflexivity.
  exact (purchase_for_missing_item_commits
           "P0002" "2024-01-03" 7 4 5 bolt_stocked H1 H3 H2).
Defined.

(** An [add_item] with a name that is taken returns [False], changes no row
    and leaves a transaction open; the [add_purchase] or [add_sale] that
    comes next then fails at its [BEGIN TRANSACTION], whatever it asks for,
    changes no row and closes the transaction. *)
Theorem refused_add_item_breaks_next_ledger_call
        item_name purchase_price sale_price db
        bill_no date item_id quantity rate :
  name_taken item_name (items db) = true ->
  exists db',
    add_item item_name purchase_price sale_price db = Returned false db'
    /\ in_transaction db' = true
    /\ same_rows db' db
    /\ add_purchase bill_no date item_id quantity rate db' =
         Returned false (rollback db)
    /\ add_sale bill_no date item_id quantity rate db' =
         Returned
           (false,
            ErrorText "cannot start a transaction within a transaction")
           (rollback db).
Proof.
  intros Htaken. exists (set_in_transaction true db).
  rewrite add_item_outcome, Htaken.
  split; [reflexivity|]. split; [reflexivity|].
  split; [repeat split|]. split.
  - now rewrite add_purchase_pending.
  - now rewrite add_sale_pending.
Qed.

Lemma refused_add_item_breaks_next_ledger_call_witness :
  exists db',
    add_item "Bolt" 10 15 bolt_stocked = Returned false db'
    /\ in_transaction db' = true
    /\ same_rows db' bolt_stocked
    /\ add_purchase "P0002" "2024-01-03" 1 4 5 db' =
         Returned false (rollback bolt_stocked)
    /\ add_sale "P0002" "2024-01-03" 1 4 5 db' =
         Returned
           (false,
            ErrorText "cannot start a transaction within a transaction")
           (rollback bolt_stocked).
Proof.
  assert (H : name_taken "Bolt" (items bolt_stocked) = true)
    by (vm_compute; reflexivity).
  exact (refused_add_item_breaks_next_ledger_call
           "Bolt" 10 15 bolt_stocked "P0002" "2024-01-03" 1 4 5
           H).
Defined.

(** ** The running stock against the ledger *)

Lemma sum_quantity_snoc (j : Z) (l : list Bill.row) (b : Bill.row) :
  (sum_quantity j (l ++ [b]) ==
   sum_quantity j l + (if Bill.item_id b =? j then Bill.quantity b else 0))%Q.
Proof.
  unfold sum_quantity. rewrite filter_app, map_app, fold_right_app.
  cbn [filter]. destruct (Bill.item_id b =? j); cbn [map fold_right].
  - generalize (map Bill.quantity
                  (filter (fun b0 => Bill.item_id b0 =? j) l)).
    intros qs. induction qs as [|x qs IH]; cbn [fold_right]; [ring|].
    rewrite IH. ring.
  - ring.
Qed.

Lemma sum_quantity_unnamed (j : Z) (l : list Bill.row) :
  (forall b, In b l -> Bill.item_id b <> j) -> sum_quantity j l = 0%Q.
Proof.
  intros H. unfold sum_quantity.
  replace (filter (fun b => Bill.item_id b =? j) l) with (@nil Bill.row);
    [reflexivity|].
  symmetry. induction l as [|a l IH]; [reflexivity|]. cbn [filter].
  destruct (Bill.item_id a =? j) eqn:E.
  - apply Z.eqb_eq in E. exfalso. apply (H a); [now left | exact E].
  - apply IH. intros b Hb. apply H. now right.
Qed.

Lemma ledger_inv_flag (j : Z) (b : bool) (db : database) :
  ledger_inv j db -> ledger_inv j (set_in_transaction b db).
Proof. intros [H1 H2 H3 H4]. constructor; assumption. Qed.

Lemma ledger_inv_create_tables (j : Z) : ledger_inv j create_tables.
Proof.
  constructor; unfold create_tables; simpl_db;
    [intros ? [] | intros ? [] | intros _ ? [] | intros _ ? []].
Qed.

Lemma In_map_on_item (i : Z) f (l : list Item.row) (it' : Item.row) :
  In it' (map (on_item i f) l) ->
  exists it, In it l /\
    ((Item.id it = i /\ it' = f it) \/ (Item.id it <> i /\ it' = it)).
Proof.
  intros H. apply in_map_iff in H. destruct H as [it [Hf Hin]].
  exists it. split; [exact Hin|]. unfold on_item in Hf.
  destruct (Item.id it =? i) eqn:E.
  - left. apply Z.eqb_eq in E. now split.
  - right. apply Z.eqb_neq in E. now split.
Qed.

Lemma ledger_inv_perform (j : Z) (c : call) (db : database) :
  ledger_inv j db -> follows_creation j c db -> ledger_inv j (perform c db).
Proof.
  intros Hinv Hc. pose proof Hinv as [Hs Hi Hp Hsl].
  destruct c as [n p s|i n p s|i|b d i q r|b d i q r]; cbn [perform].
  - (* add_item *)
    rewrite add_item_outcome. destruct (name_taken n (items db)).
    + now apply ledger_inv_flag.
    + cbn [state_of]. constructor; simpl_db.
      * intros it Hin Hid. apply in_app_or in Hin. destruct Hin as [Hin|Hin].
        { now apply Hs. }
        destruct Hin as [<-|[]]. cbn [Item.current_stock Item.id] in *.
        rewrite !sum_quantity_unnamed; [ring| |].
        { apply Hsl. lia. }
        { apply Hp. lia. }
      * intros it Hin. apply in_app_or in Hin. destruct Hin as [Hin|Hin].
        { apply Hi in Hin. lia. }
        destruct Hin as [<-|[]]. cbn [Item.id]. lia.
      * intros Hlt. apply Hp. lia.
      * intros Hlt. apply Hsl. lia.
  - (* update_item *)
    destruct (update_item_cases i n p s db) as [E|E]; rewrite E;
      cbn [state_of].
    + now apply ledger_inv_flag.
    + constructor; simpl_db; try assumption.
      * intros it' Hin. apply In_map_on_item in Hin.
        destruct Hin as [it [Hin [[_ ->]|[_ ->]]]];
          cbn [Item.current_stock Item.id]; now apply Hs.
      * intros it' Hin. apply In_map_on_item in Hin.
        destruct Hin as [it [Hin [[_ ->]|[_ ->]]]];
          cbn [Item.id]; now apply Hi.
  - (* delete_item *)
    destruct (delete_item_cases i db) as [E|E]; rewrite E; cbn [state_of].
    + exact Hinv.
    + constructor; simpl_db; try assumption.
      * intros it Hin. apply filter_In in Hin. now apply Hs.
      * intros it Hin. apply filter_In in Hin. now apply Hi.
  - (* add_purchase *)
    cbn [follows_creation] in Hc.
    destruct (add_purchase_cases b d i q r db) as [E|E]; rewrite E in *;
      cbn [state_of].
    + now apply ledger_inv_flag.
    + constructor; simpl_db; try assumption.
      * intros it' Hin. apply In_map_on_item in Hin.
        destruct Hin as [it [Hin [[Hid ->]|[Hid ->]]]];
          cbn [purchased Item.current_stock Item.id]; intros Hj;
          rewrite sum_quantity_snoc; cbn [Bill.item_id Bill.quantity];
          rewrite (Hs it Hin Hj).
        { replace (i =? j) with true
            by (symmetry; apply Z.eqb_eq; congruence). ring. }
        { replace (i =? j) with false
            by (symmetry; apply Z.eqb_neq; congruence). ring. }
      * intros it' Hin. apply In_map_on_item in Hin.
        destruct Hin as [it [Hin [[_ ->]|[_ ->]]]];
          cbn [purchased Item.id]; now apply Hi.
      * intros Hlt b' Hb. apply in_app_or in Hb.
        destruct Hb as [Hb|[<-|[]]]; [now apply Hp|].
        cbn [Bill.item_id]. intros Hij.
        assert (j <= items_seq db) by (apply Hc; [exact Hij|now eexists]).
        lia.
  - (* add_sale *)
    destruct (add_sale_cases b d i q r db) as [[m E]|[it0 [Hit0 [_ E]]]];
      rewrite E; cbn [state_of].
    + now apply ledger_inv_flag.
    + constructor; simpl_db; try assumption.
      * intros it' Hin. apply In_map_on_item in Hin.
        destruct Hin as [it [Hin [[Hid ->]|[Hid ->]]]];
          cbn [sold Item.current_stock Item.id]; intros Hj;
          rewrite sum_quantity_snoc; cbn [Bill.item_id Bill.quantity];
          rewrite (Hs it Hin Hj).
        { replace (i =? j) with true
            by (symmetry; apply Z.eqb_eq; congruence). ring. }
        { replace (i =? j) with false
            by (symmetry; apply Z.eqb_neq; congruence). ring. }
      * intros it' Hin. apply In_map_on_item in Hin.
        destruct Hin as [it [Hin [[_ ->]|[_ ->]]]];
          cbn [sold Item.id]; now apply Hi.
      * intros Hlt b' Hb. apply in_app_or in Hb.
        destruct Hb as [Hb|[<-|[]]]; [now apply Hsl|].
        cbn [Bill.item_id]. unfold get_item_by_id in Hit0.
        apply find_some in Hit0. destruct Hit0 as [Hin Hid].
        apply Z.eqb_eq in Hid. apply Hi in Hin. lia.
Qed.

Lemma ledger_inv_session (j : Z) (cs : list call) (db : database) :
  ledger_inv j db -> purchases_follow_creation j cs db ->
  ledger_inv j (session cs db).
Proof.
  revert db. induction cs as [|c cs IH]; intros db Hinv Hcs; [exact Hinv|].
  cbn [session]. destruct Hcs as [Hc Hcs]. apply IH; [|exact Hcs].
  now apply ledger_inv_perform.
Qed.

Lemma whole_stock_more (j v w : Z) (db : database) :
  v <= w -> whole_stock j v db -> whole_stock j w db.
Proof.
  intros Hvw [Hv H]. split; [lia|]. intros it Hin Hid.
  destruct (H it Hin Hid) as [H1 H2]. split; [exact H1|lia].
Qed.

Lemma whole_plus (a q : Q) :
  whole a -> whole q ->
  whole (a + q) /\ Qnum (a + q) = Qnum a + Qnum q.
Proof.
  unfold whole. destruct a as [an ad], q as [qn qd]. cbn [Qden Qnum Qplus].
  intros -> ->. split; [reflexivity|]. lia.
Qed.

Lemma whole_minus (a q : Q) :
  whole a -> whole q ->
  whole (a - q) /\ Qnum (a - q) = Qnum a - Qnum q.
Proof.
  unfold whole. destruct a as [an ad], q as [qn qd].
  cbn [Qden Qnum Qplus Qminus Qopp]. intros -> ->.
  split; [reflexivity|]. lia.
Qed.

Lemma whole_stock_perform (j v : Z) (c : call) (db : database) :
  whole_stock j v db -> whole (committed_quantity j c db) ->
  whole_stock j (v + Z.abs (Qnum (committed_quantity j c db))) (perform c db).
Proof.
  intros Hinv Hq.
  assert (Hmore : whole_stock j (v + Z.abs (Qnum (committed_quantity j c db)))
                    db)
    by (apply (whole_stock_more j v); [lia | exact Hinv]).
  destruct Hmore as [Hv Hw].
  destruct c as [n p s|i n p s|i|b d i q r|b d i q r];
    cbn [perform committed_quantity] in *.
  - rewrite add_item_outcome. destruct (name_taken n (items db));
      cbn [state_of]; [now split|].
    split; [exact Hv|]. simpl_db. intros it Hin Hid. apply in_app_or in Hin.
    destruct Hin as [Hin|[<-|[]]]; [now apply Hw|].
    cbn [Item.current_stock]. split; [reflexivity|].
    change (Z.abs (Qnum 0)) with 0 in *. lia.
  - destruct (update_item_cases i n p s db) as [E|E]; rewrite E;
      cbn [state_of]; [now split|].
    split; [exact Hv|]. simpl_db. intros it' Hin.
    apply In_map_on_item in Hin.
    destruct Hin as [it [Hin [[_ ->]|[_ ->]]]];
      cbn [Item.current_stock Item.id]; now apply Hw.
  - destruct (delete_item_cases i db) as [E|E]; rewrite E; cbn [state_of];
      [now split|].
    split; [exact Hv|]. simpl_db. intros it Hin. apply filter_In in Hin.
    now apply Hw.
  - destruct (add_purchase_cases b d i q r db) as [E|E]; rewrite E in *;
      cbn [state_of]; [now split|].
    split; [exact Hv|]. simpl_db. intros it' Hin.
    apply In_map_on_item in Hin.
    destruct Hin as [it [Hin [[Hi ->]|[_ ->]]]]; [|now apply Hw].
    cbn [purchased Item.current_stock Item.id]. intros Hj.
    replace (i =? j) with true in *
      by (symmetry; apply Z.eqb_eq; congruence).
    destruct Hinv as [_ Hinv]. destruct (Hinv it Hin Hj) as [H1 H2].
    destruct (whole_plus _ _ H1 Hq) as [H3 H4]. split; [exact H3|].
    rewrite H4. lia.
  - destruct (add_sale_cases b d i q r db) as [[m E]|[it0 [_ [_ E]]]];
      rewrite E in *; cbn [state_of]; [now split|].
    split; [exact Hv|]. simpl_db. intros it' Hin.
    apply In_map_on_item in Hin.
    destruct Hin as [it [Hin [[Hi ->]|[_ ->]]]]; [|now apply Hw].
    cbn [sold Item.current_stock Item.id]. intros Hj.
    replace (i =? j) with true in *
      by (symmetry; apply Z.eqb_eq; congruence).
    destruct Hinv as [_ Hinv]. destruct (Hinv it Hin Hj) as [H1 H2].
    destruct (whole_minus _ _ H1 Hq) as [H3 H4]. split; [exact H3|].
    rewrite H4. lia.
Qed.

Lemma whole_stock_session (j v : Z) (cs : list call) (db : database) :
  whole_stock j v db -> committed_whole j cs db ->
  whole_stock j (v + volume j cs db) (session cs db).
Proof.
  revert v db. induction cs as [|c cs IH]; intros v db Hinv Hcs.
  - cbn [volume session]. now rewrite Z.add_0_r.
  - destruct Hcs as [Hc Hcs]. cbn [volume session].
    rewrite Z.add_assoc. apply IH; [|exact Hcs].
    now apply whole_stock_perform.
Qed.

(** The balance is about purchases made once the item exists: a purchase
    that names id 1 before any item was added is committed all the same, and
    the item that [add_item] then creates under id 1 starts at stock 0. *)
Example purchase_before_creation :
  let db := session [ AddPurchase "P0001" "2024-01-01" 1 10 5;
                      AddItem "Bolt" 10 15 ] create_tables in
  items db = [Item.mk 1 "Bolt" 0 10 15]
  /\ (sum_quantity 1 (purchases db) == 10)%Q
  /\ ~ purchases_follow_creation 1
        [ AddPurchase "P0001" "2024-01-01" 1 10 5; AddItem "Bolt" 10 15 ]
        create_tables.
Proof.
  split; [vm_compute; reflexivity|]. split; [vm_compute; reflexivity|].
  intros [H _]. cbn [follows_creation] in H.
  assert (Hle : 1 <= items_seq create_tables).
  { apply H; [reflexivity|]. eexists. vm_compute. reflexivity. }
  vm_compute in Hle. apply Hle. reflexivity.
Qed.

(** C2, as the code has it.  Start from the empty database and run any
    session of [add_item], [update_item], [delete_item], [add_purchase] and
    [add_sale] calls.  Take an item of the table whose purchases were all
    committed once it existed, such that every quantity committed for it is
    a whole number and these quantities add up to at most 2^53.  Then its
    [current_stock] equals the sum of the quantities of the purchase rows
    naming it minus the sum of the quantities of the sale rows naming it, and
    it is a whole number of magnitude at most 2^53: a value that binary64
    arithmetic holds and reaches without rounding. *)
Theorem current_stock_is_ledger_balance (cs : list call) (it : Item.row) :
  whole_quantities (Item.id it) (2 ^ 53) cs create_tables ->
  purchases_follow_creation (Item.id it) cs create_tables ->
  In it (items (session cs create_tables)) ->
  (Item.current_stock it ==
   sum_quantity (Item.id it) (purchases (session cs create_tables))
   - sum_quantity (Item.id it) (sales (session cs create_tables)))%Q
  /\ whole (Item.current_stock it)
  /\ Z.abs (Qnum (Item.current_stock it)) <= 2 ^ 53.
Proof.
  intros [Hwhole Hvol] Hcs Hin. split.
  - apply (inv_stock _ _ (ledger_inv_session _ cs create_tables
                            (ledger_inv_create_tables _) Hcs));
      [exact Hin | reflexivity].
  - assert (H0 : whole_stock (Item.id it) 0 create_tables).
    { split; [lia|]. intros ? []. }
    pose proof (whole_stock_session _ 0 cs create_tables H0 Hwhole) as [_ H].
    destruct (H it Hin eq_refl) as [H1 H2]. split; [exact H1|]. lia.
Qed.

Lemma current_stock_is_ledger_balance_witness :
  (3 == sum_quantity 1 (purchases (session bolt_session create_tables))
        - sum_quantity 1 (sales (session bolt_session create_tables)))%Q
  /\ whole 3 /\ Z.abs 3 <= 2 ^ 53.
Proof.
  assert (H0 : whole_quantities 1 (2 ^ 53) bolt_session create_tables).
  { split; [vm_compute; repeat split|]. vm_compute. intros H. discriminate H. }
  assert (H1 : purchases_follow_creation 1 bolt_session create_tables).
  { cbn [bolt_session purchases_follow_creation follows_creation].
    repeat split; intros _ _; vm_compute; intros H; discriminate H. }
  assert (H2 : In (Item.mk 1 "Bolt" 3 6 8)
                  (items (session bolt_session create_tables))).
  { vm_compute. left. reflexivity. }
  exact (current_stock_is_ledger_balance bolt_session
           (Item.mk 1 "Bolt" 3 6 8) H0 H1 H2).
Defined.

(** C2, as stated, fails on fractional quantities.  After purchases of 0.1
    and 0.2 the stored [current_stock] is the binary64 sum
    0.30000000000000004, which is not the sum of the two stored quantities.
    After a purchase of 0.1, a sale of 0.1 and a purchase of 0.2 the stored
    [current_stock] is 0.2, while the sum of the purchase quantities minus
    the sum of the sale quantities, as SQLite's SUM and [-] compute them, is
    0.20000000000000004. *)
Lemma current_stock_rounds_fractions :
  Ieee.quantities 1 (Ieee.purchases ieee_two_purchases) = [tenth; fifth]
  /\ Ieee.quantities 1 (Ieee.sales ieee_two_purchases) = []
  /\ (exists stock s a b,
        Ieee.stock_of 1 ieee_two_purchases = Some (Some stock)
        /\ Ieee.exact stock = Some s
        /\ Ieee.exact tenth = Some a /\ Ieee.exact fifth = Some b
        /\ ~ (s == a + b - 0)%Q)
  /\ Ieee.quantities 1 (Ieee.purchases ieee_sold_between) = [tenth; fifth]
  /\ Ieee.quantities 1 (Ieee.sales ieee_sold_between) = [tenth]
  /\ Ieee.stock_of 1 ieee_sold_between = Some (Some fifth)
  /\ PrimFloat.eqb
       (PrimFloat.sub
          (Ieee.sql_sum (Ieee.quantities 1 (Ieee.purchases ieee_sold_between)))
          (Ieee.sql_sum (Ieee.quantities 1 (Ieee.sales ieee_sold_between))))
       fifth = false.
Proof.
  split; [vm_compute; reflexivity|]. split; [vm_compute; reflexivity|].
  split.
  { do 4 eexists. split; [vm_compute; reflexivity|].
    split; [vm_compute; reflexivity|]. split; [vm_compute; reflexivity|].
    split; [vm_compute; reflexivity|].
    unfold Qeq. vm_compute. intros H. discriminate H. }
  split; [vm_compute; reflexivity|]. split; [vm_compute; reflexivity|].
  split; vm_compute; reflexivity.
Qed.

(** ** Stock never goes negative *)

Lemma stock_inv_flag (b : bool) (db : database) :
  stock_inv db -> stock_inv (set_in_transaction b db).
Proof. intros [H1 H2 H3]. constructor; assumption. Qed.

Lemma stock_inv_create_tables : stock_inv create_tables.
Proof.
  constructor; cbn; try (intros ? []). constructor.
Qed.

Lemma map_id_on_item (i : Z) f (l : list Item.row) :
  (forall it, Item.id (f it) = Item.id it) ->
  map Item.id (map (on_item i f) l) = map Item.id l.
Proof.
  intros Hf. rewrite map_map. apply map_ext. intros it. unfold on_item.
  destruct (Item.id it =? i); [apply Hf | reflexivity].
Qed.

Lemma NoDup_map_filter {A B} (g : A -> B) (f : A -> bool) (l : list A) :
  NoDup (map g l) -> NoDup (map g (filter f l)).
Proof.
  induction l as [|a l IH]; cbn [map filter]; intros H; [exact H|].
  inversion H as [|x xs Hnin Hnd]; subst.
  destruct (f a); [|now apply IH].
  cbn [map]. constructor; [|now apply IH].
  intros Hin. apply Hnin. apply in_map_iff in Hin.
  destruct Hin as [y [Hy Hin]]. apply filter_In in Hin.
  apply in_map_iff. exists y. tauto.
Qed.

(** Under the primary key, the row [fetchone] returns is the only row with
    that id. *)
Lemma find_by_id_unique (i : Z) (l : list Item.row) (it0 it : Item.row) :
  NoDup (map Item.id l) ->
  find (fun x => Item.id x =? i) l = Some it0 ->
  In it l -> Item.id it = i -> it = it0.
Proof.
  induction l as [|a l IH]; cbn [map find]; intros Hnd Hfind Hin Hid;
    [destruct Hin|].
  inversion Hnd as [|x xs Hnin Hnd']; subst.
  destruct (Item.id a =? Item.id it) eqn:E.
  - injection Hfind as <-. destruct Hin as [Hin|Hin]; [now symmetry|].
    exfalso. apply Hnin. apply Z.eqb_eq in E. rewrite E.
    now apply in_map.
  - destruct Hin as [->|Hin]; [rewrite Z.eqb_refl in E; discriminate|].
    now apply IH.
Qed.

Lemma stock_inv_perform (c : call) (db : database) :
  stock_inv db ->
  match c with
  | AddPurchase _ _ _ quantity _ => (0 < quantity)%Q
  | AddSale _ _ _ quantity _ => (0 < quantity)%Q
  | _ => True
  end ->
  stock_inv (perform c db).
Proof.
  intros Hinv Hc. pose proof Hinv as [Hn Hd Hb].
  destruct c as [n p s|i n p s|i|b d i q r|b d i q r]; cbn [perform].
  - rewrite add_item_outcome. destruct (name_taken n (items db)).
    + now apply stock_inv_flag.
    + cbn [state_of]. constructor; simpl_db.
      * intros it Hin. apply in_app_or in Hin.
        destruct Hin as [Hin|[<-|[]]]; [now apply Hn|].
        cbn [Item.current_stock]. apply Qle_refl.
      * rewrite map_app. apply NoDup_app; [exact Hd| |].
        { cbn [map]. constructor; [intros []|constructor]. }
        intros a Ha [<-|[]]. cbn [Item.id] in Ha.
        apply in_map_iff in Ha. destruct Ha as [it [Hid Hin]].
        apply Hb in Hin. lia.
      * intros it Hin. apply in_app_or in Hin.
        destruct Hin as [Hin|[<-|[]]]; [apply Hb in Hin; lia|].
        cbn [Item.id]. lia.
  - destruct (update_item_cases i n p s db) as [E|E]; rewrite E;
      cbn [state_of].
    + now apply stock_inv_flag.
    + constructor; simpl_db.
      * intros it' Hin. apply In_map_on_item in Hin.
        destruct Hin as [it [Hin [[_ ->]|[_ ->]]]];
          cbn [Item.current_stock]; now apply Hn.
      * now rewrite map_id_on_item.
      * intros it' Hin. apply In_map_on_item in Hin.
        destruct Hin as [it [Hin [[_ ->]|[_ ->]]]];
          cbn [Item.id]; now apply Hb.
  - destruct (delete_item_cases i db) as [E|E]; rewrite E; cbn [state_of].
    + exact Hinv.
    + constructor; simpl_db.
      * intros it Hin. apply filter_In in Hin. now apply Hn.
      * now apply NoDup_map_filter.
      * intros it Hin. apply filter_In in Hin. now apply Hb.
  - destruct (add_purchase_cases b d i q r db) as [E|E]; rewrite E;
      cbn [state_of].
    + now apply stock_inv_flag.
    + constructor; simpl_db.
      * intros it' Hin. apply In_map_on_item in Hin.
        destruct Hin as [it [Hin [[_ ->]|[_ ->]]]];
          cbn [purchased Item.current_stock]; pose proof (Hn it Hin); lra.
      * now rewrite map_id_on_item.
      * intros it' Hin. apply In_map_on_item in Hin.
        destruct Hin as [it [Hin [[_ ->]|[_ ->]]]];
          cbn [purchased Item.id]; now apply Hb.
  - destruct (add_sale_cases b d i q r db) as [[m E]|[it0 [Hit0 [Hge E]]]];
      rewrite E; cbn [state_of].
    + now apply stock_inv_flag.
    + constructor; simpl_db.
      * intros it' Hin. apply In_map_on_item in Hin.
        destruct Hin as [it [Hin [[Hid ->]|[_ ->]]]];
          cbn [sold Item.current_stock]; [|now apply Hn].
        assert (it = it0)
          by (apply (find_by_id_unique i (items db)); assumption).
        subst it. lra.
      * now rewrite map_id_on_item.
      * intros it' Hin. apply In_map_on_item in Hin.
        destruct Hin as [it [Hin [[_ ->]|[_ ->]]]];
          cbn [sold Item.id]; now apply Hb.
Qed.

Lemma stock_inv_session (cs : list call) (db : database) :
  stock_inv db -> positive_quantities cs -> stock_inv (session cs db).
Proof.
  revert db. induction cs as [|c cs IH]; intros db Hinv Hcs; [exact Hinv|].
  cbn [session]. inversion Hcs as [|x xs Hc Hcs']; subst.
  apply IH; [|exact Hcs'].
  apply stock_inv_perform; [exact Hinv|]. destruct c; try exact I; exact Hc.
Qed.

Lemma positive_quantities_firstn (n : nat) (cs : list call) :
  positive_quantities cs -> positive_quantities (firstn n cs).
Proof.
  unfold positive_quantities. revert cs.
  induction n as [|n IH]; intros cs H; [constructor|].
  destruct cs as [|c cs]; [constructor|].
  inversion H; subst. cbn [firstn]. constructor; auto.
Qed.

(** Start from the empty database and run any session in which every
    [add_purchase] and every [add_sale] is called with a positive, finite
    quantity (every quantity of the main model is finite).  After each call
    of the session (after its first [n] calls, for every [n]), every item in
    the table has [current_stock >= 0]. *)
Theorem current_stock_never_negative
        (cs : list call) (n : nat) (it : Item.row) :
  positive_quantities cs ->
  In it (items (session (firstn n cs) create_tables)) ->
  (0 <= Item.current_stock it)%Q.
Proof.
  intros Hcs Hin.
  apply (inv_nonneg _ (stock_inv_session (firstn n cs) create_tables
                         stock_inv_create_tables
                         (positive_quantities_firstn n cs Hcs))).
  exact Hin.
Qed.

Lemma current_stock_never_negative_witness :
  positive_quantities bolt_session
  /\ In (Item.mk 1 "Bolt" 0 5 8)
        (items (session (firstn 4 bolt_session) create_tables))
  /\ (0 <= 0)%Q.
Proof.
  assert (H1 : positive_quantities bolt_session).
  { repeat constructor. }
  assert (H2 : In (Item.mk 1 "Bolt" 0 5 8)
                  (items (session (firstn 4 bolt_session) create_tables))).
  { vm_compute. left. reflexivity. }
  split; [exact H1|]. split; [exact H2|].
  exact (current_stock_never_negative bolt_session 4 _ H1 H2).
Defined.

(** C8, at the failing input.  The quantity [inf] is positive, so it passes
    the check of the entry form.  The purchase of [inf] commits and leaves
    [current_stock = inf]; the sale of [inf] passes the stock check
    ([inf < inf] is false), commits, and leaves [current_stock] NULL, which
    is no number at all.  From then on every sale of the item fails on the
    comparison with [None], and a purchase leaves the stock NULL. *)
Theorem add_sale_of_infinite_quantity_stores_null :
  PrimFloat.ltb 0 infinity = true
  /\ Ieee.add_purchase "P0001" "2024-01-01" 1 infinity 5 ieee_bolt =
       (true, ieee_infinite_purchase)
  /\ Ieee.stock_of 1 ieee_infinite_purchase = Some (Some infinity)
  /\ Ieee.add_sale "S0001" "2024-01-02" 1 infinity 8 ieee_infinite_purchase =
       (true, Ieee.Success, ieee_infinite_sale)
  /\ Ieee.stock_of 1 ieee_infinite_sale = Some None
  /\ Ieee.add_sale "S0002" "2024-01-03" 1 1 8 ieee_infinite_sale =
       (false,
        Ieee.ErrorText
          "'<' not supported between instances of 'NoneType' and 'float'",
        ieee_infinite_sale)
  /\ Ieee.stock_of 1
       (snd (Ieee.add_purchase "P0002" "2024-01-03" 1 4 5 ieee_infinite_sale))
     = Some None.
Proof. vm_compute. repeat split. Qed.

(** ** Bill numbers *)

Example get_next_bill_no_examples :
  get_next_bill_no "P" "P0007" = "P0008"
  /\ get_next_bill_no "S" "S0000" = "S0001"
  /\ get_next_bill_no "P" "P9999" = "P10000"
  /\ get_next_bill_no "P" "S0041" = "P0042"
  /\ get_next_bill_no "P" "P 12 " = "P0013"
  /\ get_next_bill_no "P" "P-5" = "P-004"
  /\ get_next_bill_no "P" "P1_0" = "P0011"
  /\ get_next_bill_no "P" "P1__0" = "P0001"
  /\ get_next_bill_no "P" "P+ 7" = "P0001"
  /\ get_next_bill_no "PO" "PO0007" = "PO0001"
  /\ get_next_bill_no "P" "7" = "P0001".
Proof. vm_compute. repeat split. Qed.

Lemma length_append (s1 s2 : string) :
  String.length (s1 ++ s2) = (String.length s1 + String.length s2)%nat.
Proof.
  induction s1 as [|c s1 IH]; [reflexivity|]. cbn [append String.length].
  now rewrite IH.
Qed.

Lemma length_zeros (k : nat) : String.length (zeros k) = k.
Proof. induction k as [|k IH]; [reflexivity|]. cbn. now rewrite IH. Qed.

Lemma length_zfill (w : nat) (s : string) :
  String.length (zfill w s) = Nat.max w (String.length s).
Proof. unfold zfill. rewrite length_append, length_zeros. lia. Qed.

Lemma zeros_string_of_uint (k : nat) (u : Decimal.uint) :
  (zeros k ++ NilEmpty.string_of_uint u)%string =
  NilEmpty.string_of_uint (Nat.iter k Decimal.D0 u).
Proof.
  induction k as [|k IH]; [reflexivity|].
  cbn [zeros append Nat.iter NilEmpty.string_of_uint]. now rewrite IH.
Qed.

Lemma of_uint_leading_zeros (k : nat) (u : Decimal.uint) :
  N.of_uint (Nat.iter k Decimal.D0 u) = N.of_uint u.
Proof. induction k as [|k IH]; [reflexivity|]. exact IH. Qed.

Lemma int_digits_string_of_uint (u : Decimal.uint) :
  int_digits true (NilEmpty.string_of_uint u) =
  Some (NilEmpty.string_of_uint u).
Proof.
  induction u; cbn [NilEmpty.string_of_uint int_digits]; [reflexivity|..];
    (replace (is_digit _) with true by reflexivity);
    rewrite IHu; reflexivity.
Qed.

Lemma int_digits_start (u : Decimal.uint) :
  u <> Decimal.Nil ->
  int_digits false (NilEmpty.string_of_uint u) =
  Some (NilEmpty.string_of_uint u).
Proof.
  intros Hu. destruct u; [contradiction|..];
    cbn [NilEmpty.string_of_uint int_digits];
    (replace (is_digit _) with true by reflexivity);
    rewrite int_digits_string_of_uint; reflexivity.
Qed.

Lemma lstrip_string_of_uint (u : Decimal.uint) :
  lstrip int_space (NilEmpty.string_of_uint u) = NilEmpty.string_of_uint u.
Proof. destruct u; reflexivity. Qed.

Lemma rstrip_string_of_uint (u : Decimal.uint) :
  rstrip int_space (NilEmpty.string_of_uint u) = NilEmpty.string_of_uint u.
Proof.
  induction u; cbn [NilEmpty.string_of_uint rstrip]; [reflexivity|..];
    rewrite IHu; destruct u; reflexivity.
Qed.

Lemma split_sign_string_of_uint (u : Decimal.uint) :
  split_sign (NilEmpty.string_of_uint u) =
  (false, NilEmpty.string_of_uint u).
Proof. destruct u; reflexivity. Qed.

(** [int()] on a non-empty string of decimal digits within the digit limit
    is the number the digits denote. *)
Lemma py_int_string_of_uint (u : Decimal.uint) :
  u <> Decimal.Nil ->
  (String.length (NilEmpty.string_of_uint u) <= int_max_str_digits)%nat ->
  py_int (NilEmpty.string_of_uint u) = Some (Z.of_N (N.of_uint u)).
Proof.
  intros Hu Hlen. unfold py_int, strip.
  rewrite lstrip_string_of_uint, rstrip_string_of_uint,
    split_sign_string_of_uint.
  unfold int_unsigned. rewrite (int_digits_start u Hu).
  apply Nat.ltb_ge in Hlen. rewrite Hlen. now rewrite NilEmpty.usu.
Qed.

Lemma format_04d_natural (m : N) :
  (String.length (decimal m) <= int_max_str_digits)%nat ->
  format_04d (Z.of_N m) = Some (zfill 4 (decimal m)).
Proof.
  intros Hlen. unfold format_04d. rewrite Zabs2N.id.
  apply Nat.ltb_ge in Hlen. rewrite Hlen.
  replace (Z.of_N m <? 0) with false; [reflexivity|].
  symmetry. apply Z.ltb_ge. apply N2Z.is_nonneg.
Qed.

Lemma string_of_uint_empty (u : Decimal.uint) :
  NilEmpty.string_of_uint u = EmptyString -> u = Decimal.Nil.
Proof. destruct u; [reflexivity|..]; discriminate. Qed.

Lemma get_next_bill_no_digits (prefix : string) (c : ascii) (u : Decimal.uint) :
  u <> Decimal.Nil ->
  (String.length (NilEmpty.string_of_uint u) <= int_max_str_digits)%nat ->
  (String.length (decimal (N.of_uint u + 1)) <= int_max_str_digits)%nat ->
  get_next_bill_no prefix (String c (NilEmpty.string_of_uint u)) =
  (prefix ++ zfill 4 (decimal (N.of_uint u + 1)))%string.
Proof.
  intros Hu Hlen Hnext. unfold get_next_bill_no.
  replace (1 <? String.length (String c (NilEmpty.string_of_uint u)))%nat
    with true.
  - rewrite (py_int_string_of_uint u Hu Hlen).
    replace (Z.of_N (N.of_uint u) + 1) with (Z.of_N (N.of_uint u + 1))
      by (rewrite N2Z.inj_add; reflexivity).
    now rewrite (format_04d_natural _ Hnext).
  - symmetry. apply Nat.ltb_lt. cbn [String.length].
    destruct (NilEmpty.string_of_uint u) eqn:E.
    + apply string_of_uint_empty in E. contradiction.
    + cbn [String.length]. lia.
Qed.

Lemma get_next_bill_no_successor (prefix : string) (c : ascii) (n : N) :
  (String.length (decimal n) <= int_max_str_digits)%nat ->
  (String.length (decimal (n + 1)) <= int_max_str_digits)%nat ->
  get_next_bill_no prefix (String c (zfill 4 (decimal n))) =
  (prefix ++ zfill 4 (decimal (n + 1)))%string.
Proof.
  intros Hlen Hnext.
  pose proof (length_zfill 4 (decimal n)) as Hz.
  set (u := Nat.iter (4 - String.length (decimal n)) Decimal.D0 (N.to_uint n)).
  assert (Hs : zfill 4 (decimal n) = NilEmpty.string_of_uint u).
  { unfold zfill, decimal, u. apply zeros_string_of_uint. }
  assert (Hn : N.of_uint u = n).
  { unfold u. rewrite of_uint_leading_zeros. apply DecimalN.Unsigned.of_to. }
  rewrite Hs in *. rewrite get_next_bill_no_digits.
  - now rewrite Hn.
  - intros Hnil. rewrite Hnil in Hz.
    cbn [NilEmpty.string_of_uint String.length] in Hz. lia.
  - rewrite Hz. unfold int_max_str_digits in *. lia.
  - now rewrite Hn.
Qed.

Lemma append_nil_r (s : string) : s ++ "" = s.
Proof. induction s as [|c s IH]; [reflexivity|]. cbn. now rewrite IH. Qed.

Lemma append_assoc (a b c : string) : (a ++ b) ++ c = a ++ b ++ c.
Proof. induction a as [|x a IH]; [reflexivity|]. cbn. now rewrite IH. Qed.

Lemma digit_not_space (c : ascii) : is_digit c = true -> int_space c = false.
Proof.
  destruct c as [[] [] [] [] [] [] [] []]; intros H; try reflexivity;
    discriminate H.
Qed.

Lemma digit_not_mark (c : ascii) :
  is_digit c = true ->
  Ascii.eqb c "_" = false /\ c <> "-"%char /\ c <> "+"%char.
Proof.
  destruct c as [[] [] [] [] [] [] [] []]; intros H;
    try discriminate H; repeat split; discriminate.
Qed.

Lemma lstrip_decomp p s :
  exists lead, s = lead ++ lstrip p s /\ string_forall p lead = true.
Proof.
  induction s as [|c s [lead [E H]]].
  - exists "". now split.
  - cbn [lstrip]. destruct (p c) eqn:Ec.
    + exists (String c lead). cbn. rewrite Ec, H. now rewrite <- E.
    + exists "". now split.
Qed.

Lemma rstrip_decomp p s :
  exists trail, s = rstrip p s ++ trail /\ string_forall p trail = true.
Proof.
  induction s as [|c s [trail [E H]]].
  - exists "". now split.
  - cbn [rstrip]. destruct (rstrip p s) as [|d r] eqn:Er.
    + cbn [append] in E. subst s. destruct (p c) eqn:Ec.
      * exists (String c trail). cbn. rewrite Ec, H. now split.
      * exists trail. now split.
    + exists trail. split; [|exact H]. rewrite E at 1. reflexivity.
Qed.

Lemma lstrip_spaces p lead s :
  string_forall p lead = true -> lstrip p (lead ++ s) = lstrip p s.
Proof.
  induction lead as [|c lead IH]; [reflexivity|]. cbn.
  intros H. apply andb_true_iff in H. destruct H as [Hc H].
  rewrite Hc. now apply IH.
Qed.

Lemma rstrip_all_spaces p trail :
  string_forall p trail = true -> rstrip p trail = "".
Proof.
  induction trail as [|c t IH]; [reflexivity|]. cbn.
  intros H. apply andb_true_iff in H. destruct H as [Hc H].
  now rewrite (IH H), Hc.
Qed.

Lemma rstrip_spaces p s trail :
  string_forall p trail = true -> rstrip p (s ++ trail) = rstrip p s.
Proof.
  intros H. induction s as [|c s IH].
  - cbn [append]. now rewrite rstrip_all_spaces.
  - cbn [append rstrip]. now rewrite IH.
Qed.

Lemma rstrip_ends p s c :
  p c = false -> rstrip p (s ++ String c "") = s ++ String c "".
Proof.
  intros Hc. induction s as [|d s IH].
  - cbn. now rewrite Hc.
  - cbn [append rstrip]. rewrite IH. destruct s; reflexivity.
Qed.

Lemma digits_last g :
  digit_group g -> exists t c, g = t ++ String c "" /\ is_digit c = true.
Proof.
  intros [Hne Hd]. induction g as [|c g IH]; [contradiction|].
  cbn in Hd. apply andb_true_iff in Hd. destruct Hd as [Hc Hd].
  destruct g as [|d g'].
  - exists "", c. now split.
  - destruct IH as [t [e [E He]]]; [discriminate|exact Hd|].
    exists (String c t), e. cbn [append]. now rewrite <- E.
Qed.

Lemma tail_groups_last groups :
  Forall digit_group groups -> groups <> [] ->
  exists t c, tail_groups groups = t ++ String c "" /\ is_digit c = true.
Proof.
  induction groups as [|g rest IH]; intros Hall Hne; [contradiction|].
  inversion Hall as [|x xs Hg Hrest]; subst. cbn [tail_groups].
  destruct rest as [|g' rest'].
  - destruct (digits_last g Hg) as [t [c [E Hc]]].
    exists ("_" ++ t), c. cbn [tail_groups]. rewrite append_nil_r, E.
    now split.
  - destruct IH as [t [c [E Hc]]]; [exact Hrest|discriminate|].
    exists ("_" ++ g ++ t), c. rewrite E. split; [|exact Hc].
    cbn [append]. now rewrite append_assoc.
Qed.

Lemma core_last g groups :
  digit_group g -> Forall digit_group groups ->
  exists t c, g ++ tail_groups groups = t ++ String c "" /\ is_digit c = true.
Proof.
  intros Hg Hall. destruct groups as [|g' rest].
  - cbn [tail_groups]. rewrite append_nil_r. now apply digits_last.
  - destruct (tail_groups_last (g' :: rest) Hall) as [t [c [E Hc]]];
      [discriminate|].
    exists (g ++ t), c. rewrite E. split; [|exact Hc].
    now rewrite append_assoc.
Qed.

Lemma int_digits_group b g rest :
  digit_group g ->
  int_digits b (g ++ rest) = option_map (append g) (int_digits true rest).
Proof.
  intros [Hne Hd]. revert b. induction g as [|c g IH]; intros b;
    [contradiction|].
  cbn in Hd. apply andb_true_iff in Hd. destruct Hd as [Hc Hd].
  cbn [append int_digits]. rewrite Hc. destruct g as [|d g'].
  - cbn [append]. now destruct (int_digits true rest).
  - rewrite IH by (discriminate || exact Hd).
    now destruct (int_digits true rest).
Qed.

Lemma int_digits_tail groups :
  Forall digit_group groups ->
  int_digits true (tail_groups groups) = Some (concat_groups groups).
Proof.
  induction groups as [|g rest IH]; intros Hall; [reflexivity|].
  inversion Hall as [|x xs Hg Hrest]; subst.
  cbn [tail_groups concat_groups append int_digits].
  replace (is_digit "_") with false by reflexivity.
  replace (Ascii.eqb "_" "_") with true by reflexivity.
  rewrite (int_digits_group false g _ Hg), (IH Hrest). reflexivity.
Qed.

Lemma uint_of_digits ds :
  string_forall is_digit ds = true ->
  exists u, NilEmpty.uint_of_string ds = Some u.
Proof.
  induction ds as [|c ds IH]; intros H; [now exists Decimal.Nil|].
  cbn in H. apply andb_true_iff in H. destruct H as [Hc H].
  destruct (IH H) as [u E]. cbn [NilEmpty.uint_of_string]. rewrite E.
  destruct c as [[] [] [] [] [] [] [] []]; try discriminate Hc;
    eexists; reflexivity.
Qed.

Lemma string_forall_app p a b :
  string_forall p (a ++ b) = string_forall p a && string_forall p b.
Proof.
  induction a as [|c a IH]; [reflexivity|]. cbn. now rewrite IH, andb_assoc.
Qed.

Lemma concat_groups_digits groups :
  Forall digit_group groups -> string_forall is_digit (concat_groups groups) = true.
Proof.
  induction 1 as [|g rest [_ Hg] _ IH]; [reflexivity|].
  cbn [concat_groups]. now rewrite string_forall_app, Hg, IH.
Qed.

Lemma split_sign_text sgn g rest :
  digit_group g ->
  split_sign (sign_text sgn ++ g ++ rest) =
  (match sgn with Minus => true | _ => false end, g ++ rest).
Proof.
  intros [Hne Hd]. destruct sgn; try reflexivity.
  destruct g as [|c g]; [contradiction|]. cbn in Hd.
  apply andb_true_iff in Hd. destruct Hd as [Hc _].
  destruct (digit_not_mark c Hc) as [_ [Hm Hp]].
  cbn [sign_text append split_sign].
  destruct c as [[] [] [] [] [] [] [] []]; try reflexivity;
    try discriminate Hc.
Qed.

Lemma lstrip_first p c s : p c = false -> lstrip p (String c s) = String c s.
Proof. intros H. cbn. now rewrite H. Qed.

(** Every decimal literal is read by [int()], with its value. *)
Lemma py_int_literal s z : int_literal s z -> py_int s = Some z.
Proof.
  intros [lead [sgn [g [groups [trail [-> [Hl [Ht [Hg [Hall [Hlen ->]]]]]]]]]]].
  destruct (core_last g groups Hg Hall) as [t [c [Ecore Hc]]].
  assert (Hstrip : strip int_space
            (lead ++ sign_text sgn ++ g ++ tail_groups groups ++ trail) =
          sign_text sgn ++ g ++ tail_groups groups).
  { unfold strip. rewrite lstrip_spaces by exact Hl.
    assert (Hfirst : lstrip int_space
              (sign_text sgn ++ g ++ tail_groups groups ++ trail) =
              sign_text sgn ++ g ++ tail_groups groups ++ trail).
    { destruct sgn; cbn [sign_text append]; try (apply lstrip_first; reflexivity).
      destruct Hg as [Hne Hd]. destruct g as [|d g']; [contradiction|].
      cbn in Hd. apply andb_true_iff in Hd. destruct Hd as [Hd _].
      cbn [append]. apply lstrip_first. now apply digit_not_space. }
    rewrite Hfirst.
    replace (sign_text sgn ++ g ++ tail_groups groups ++ trail)
      with ((sign_text sgn ++ g ++ tail_groups groups) ++ trail)
      by (now rewrite !append_assoc).
    rewrite rstrip_spaces by exact Ht.
    replace (g ++ tail_groups groups) with (t ++ String c "") in * by
      (now rewrite <- Ecore, ?append_assoc).
    rewrite <- append_assoc. apply rstrip_ends. now apply digit_not_space. }
  unfold py_int. rewrite Hstrip, (split_sign_text sgn g _ Hg).
  unfold int_unsigned.
  rewrite (int_digits_group false g _ Hg), (int_digits_tail groups Hall).
  cbn [option_map]. apply Nat.ltb_ge in Hlen. rewrite Hlen.
  unfold digits_value.
  destruct (uint_of_digits (g ++ concat_groups groups)) as [u Eu].
  { rewrite string_forall_app. destruct Hg as [_ Hg].
    now rewrite Hg, concat_groups_digits. }
  rewrite Eu. destruct sgn; reflexivity.
Qed.

Lemma int_digits_inv s :
  (forall ds, int_digits false s = Some ds ->
     exists g groups, digit_group g /\ Forall digit_group groups
       /\ s = g ++ tail_groups groups /\ ds = g ++ concat_groups groups)
  /\ (forall ds, int_digits true s = Some ds ->
        exists g groups, string_forall is_digit g = true
          /\ Forall digit_group groups
          /\ s = g ++ tail_groups groups /\ ds = g ++ concat_groups groups).
Proof.
  induction s as [|c s [IHf IHt]].
  - split; [discriminate|]. intros ds H. injection H as <-.
    exists "", []. repeat split. constructor.
  - cbn [int_digits]. destruct (is_digit c) eqn:Hc.
    + assert (Hboth : forall ds,
                option_map (String c) (int_digits true s) = Some ds ->
                exists g groups, digit_group g /\ Forall digit_group groups
                  /\ String c s = g ++ tail_groups groups
                  /\ ds = g ++ concat_groups groups).
      { intros ds H. destruct (int_digits true s) as [ds'|] eqn:E;
          [|discriminate]. injection H as <-.
        destruct (IHt ds' eq_refl) as [g [groups [Hg [Hall [Es Ed]]]]].
        exists (String c g), groups. split; [split; [discriminate|]|].
        - cbn. now rewrite Hc, Hg.
        - split; [exact Hall|]. cbn [append]. now rewrite <- Es, <- Ed. }
      split; [exact Hboth|].
      intros ds H. destruct (Hboth ds H) as [g [groups [[_ Hg] Hrest]]].
      now exists g, groups.
    + destruct (Ascii.eqb c "_") eqn:Eu; [|split; discriminate].
      apply Ascii.eqb_eq in Eu. subst c. split; [discriminate|].
      intros ds H. destruct (IHf ds H) as [g [groups [Hg [Hall [Es Ed]]]]].
      exists "", (g :: groups). split; [reflexivity|].
      split; [now constructor|]. cbn [append tail_groups concat_groups].
      now rewrite <- Es, <- Ed.
Qed.

Lemma split_sign_inv body neg unsigned :
  split_sign body = (neg, unsigned) ->
  exists sgn, body = sign_text sgn ++ unsigned
              /\ neg = match sgn with Minus => true | _ => false end.
Proof.
  unfold split_sign. intros H.
  destruct body as [|c t]; [injection H as <- <-; now exists NoSign|].
  destruct (Ascii.eqb c "-") eqn:Em.
  { apply Ascii.eqb_eq in Em. subst c. injection H as <- <-. now exists Minus. }
  destruct (Ascii.eqb c "+") eqn:Ep.
  { apply Ascii.eqb_eq in Ep. subst c. injection H as <- <-. now exists Plus. }
  exists NoSign.
  destruct c as [[] [] [] [] [] [] [] []]; try discriminate Em;
    try discriminate Ep; injection H as <- <-; now split.
Qed.

(** Whatever [int()] reads is a decimal literal with that value. *)
Lemma py_int_inv s z : py_int s = Some z -> int_literal s z.
Proof.
  unfold py_int. destruct (split_sign (strip int_space s)) as [neg unsigned] eqn:Es.
  intros H. unfold int_unsigned in H.
  destruct (int_digits false unsigned) as [ds|] eqn:Ed; [|discriminate].
  destruct (int_max_str_digits <? String.length ds)%nat eqn:El; [discriminate|].
  destruct (NilEmpty.uint_of_string ds) as [u|] eqn:Eu; [|discriminate].
  injection H as <-.
  destruct (proj1 (int_digits_inv unsigned) ds Ed)
    as [g [groups [Hg [Hall [Eun Eds]]]]].
  destruct (split_sign_inv _ _ _ Es) as [sgn [Ebody Eneg]].
  destruct (lstrip_decomp int_space s) as [lead [Elead Hlead]].
  destruct (rstrip_decomp int_space (lstrip int_space s)) as [trail [Etrail Htrail]].
  exists lead, sgn, g, groups, trail.
  split.
  { rewrite Elead at 1. rewrite Etrail at 1. fold (strip int_space s).
    rewrite Ebody, Eun. now rewrite !append_assoc. }
  split; [exact Hlead|]. split; [exact Htrail|]. split; [exact Hg|].
  split; [exact Hall|]. rewrite <- Eds. split.
  - now apply Nat.ltb_ge in El.
  - unfold digits_value. rewrite Eu, Eneg. destruct sgn; reflexivity.
Qed.

(** C5, as the code has it.  [get_next_bill_no] drops the first character of
    the last bill number, whatever it is and however long the prefix is, and
    reads the rest with [int()].  When the rest is a decimal literal
    (whitespace, an optional sign, digits with single underscores between
    them, whitespace; at most 4300 digits) the result is the prefix followed
    by the successor of its value, formatted with at least four characters:
    zeros are put in front of the digits, after the sign when the successor
    is negative, and a longer number keeps all its digits.  In particular,
    when the rest is a non-empty string of decimal digits the result is the
    prefix and the successor padded with zeros to four digits, and a number
    padded to four digits is followed by its successor padded the same way.
    When the last bill number has fewer than two characters, when the rest
    is no decimal literal, or when the successor has more than 4300 digits,
    the result is the prefix followed by "0001".  The three examples of the
    specification hold. *)
Theorem get_next_bill_no_drops_first_character :
  (forall (prefix : string) (c : ascii) (u : Decimal.uint),
      u <> Decimal.Nil ->
      (String.length (NilEmpty.string_of_uint u) <= int_max_str_digits)%nat ->
      (String.length (decimal (N.of_uint u + 1)) <= int_max_str_digits)%nat ->
      get_next_bill_no prefix (String c (NilEmpty.string_of_uint u)) =
      (prefix ++ zfill 4 (decimal (N.of_uint u + 1)))%string)
  /\ (forall (prefix : string) (c : ascii) (n : N),
         (String.length (decimal n) <= int_max_str_digits)%nat ->
         (String.length (decimal (n + 1)) <= int_max_str_digits)%nat ->
         get_next_bill_no prefix (String c (zfill 4 (decimal n))) =
         (prefix ++ zfill 4 (decimal (n + 1)))%string)
  /\ (forall s : string,
         String.length (zfill 4 s) = Nat.max 4 (String.length s))
  /\ (forall prefix last_bill : string,
         (String.length last_bill <= 1)%nat ->
         get_next_bill_no prefix last_bill = (prefix ++ "0001")%string)
  /\ (forall (prefix : string) (c : ascii) (rest : string),
         py_int rest = None ->
         get_next_bill_no prefix (String c rest) = (prefix ++ "0001")%string)
  /\ get_next_bill_no "P" "P0007" = "P0008"
  /\ get_next_bill_no "P" "" = "P0001"
  /\ get_next_bill_no "P" "garbage" = "P0001"
  /\ (forall (rest : string) (z : Z),
         py_int rest = Some z <-> int_literal rest z)
  /\ (forall (prefix : string) (c : ascii) (rest : string) (z : Z),
         int_literal rest z ->
         (String.length (decimal (Z.abs_N (z + 1))) <= int_max_str_digits)%nat ->
         get_next_bill_no prefix (String c rest) =
         (prefix ++
          if (z + 1 <? 0)%Z
          then String "-" (zfill 3 (decimal (Z.abs_N (z + 1))))
          else zfill 4 (decimal (Z.abs_N (z + 1))))%string)
  /\ (forall (prefix : string) (c : ascii) (rest : string) (z : Z),
         int_literal rest z ->
         (int_max_str_digits < String.length (decimal (Z.abs_N (z + 1))))%nat ->
         get_next_bill_no prefix (String c rest) = (prefix ++ "0001")%string)
  /\ (forall (prefix : string) (c : ascii) (rest : string),
         (forall z, ~ int_literal rest z) ->
         get_next_bill_no prefix (String c rest) = (prefix ++ "0001")%string)
  /\ get_next_bill_no "P" "P 12 " = "P0013"
  /\ get_next_bill_no "P" "P+7" = "P0008"
  /\ get_next_bill_no "P" "P1_0" = "P0011"
  /\ get_next_bill_no "P" "P-5" = "P-004"
  /\ get_next_bill_no "P" "P-12345" = "P-12344"
  /\ get_next_bill_no "P"
       (String "P"
          (String (ascii_of_N 160) (String "7" (String (ascii_of_N 133) ""))))
     = "P0008".
Proof.
  assert (Hnone : forall (prefix : string) (c : ascii) (rest : string),
             py_int rest = None ->
             get_next_bill_no prefix (String c rest) = (prefix ++ "0001")%string).
  { intros prefix c rest H. unfold get_next_bill_no. rewrite H.
    destruct (1 <? _)%nat; reflexivity. }
  assert (Hsome : forall (prefix : string) (c : ascii) (rest : string) (z : Z),
             int_literal rest z ->
             get_next_bill_no prefix (String c rest) =
             match format_04d (z + 1) with
             | Some text => (prefix ++ text)%string
             | None => (prefix ++ "0001")%string
             end).
  { intros prefix c rest z H. pose proof (py_int_literal rest z H) as E.
    unfold get_next_bill_no. rewrite E.
    replace (1 <? String.length (String c rest))%nat with true;
      [reflexivity|].
    symmetry. apply Nat.ltb_lt. destruct rest as [|d rest'].
    - vm_compute in E. discriminate E.
    - cbn [String.length]. lia. }
  split; [exact get_next_bill_no_digits|].
  split; [exact get_next_bill_no_successor|].
  split; [exact (length_zfill 4)|].
  split.
  { intros prefix last_bill Hlen. unfold get_next_bill_no.
    destruct last_bill as [|c rest]; [reflexivity|].
    replace (1 <? String.length (String c rest))%nat with false;
      [reflexivity|].
    symmetry. apply Nat.ltb_ge. exact Hlen. }
  split; [exact Hnone|].
  split; [vm_compute; reflexivity|]. split; [vm_compute; reflexivity|].
  split; [vm_compute; reflexivity|].
  split.
  { intros rest z. split; [apply py_int_inv | apply py_int_literal]. }
  split.
  { intros prefix c rest z H Hlen. rewrite (Hsome prefix c rest z H).
    unfold format_04d. apply Nat.ltb_ge in Hlen. now rewrite Hlen. }
  split.
  { intros prefix c rest z H Hlen. rewrite (Hsome prefix c rest z H).
    unfold format_04d. apply Nat.ltb_lt in Hlen. now rewrite Hlen. }
  split.
  { intros prefix c rest H. apply Hnone.
    destruct (py_int rest) as [z|] eqn:E; [|reflexivity].
    exfalso. apply (H z). now apply py_int_inv. }
  vm_compute. repeat split.
Qed.

Lemma get_next_bill_no_drops_first_character_witness :
  get_next_bill_no "S" "S0041" = "S0042".
Proof.
  assert (H1 : (String.length (decimal 41) <= int_max_str_digits)%nat)
    by (vm_compute; repeat constructor).
  assert (H2 : (String.length (decimal (41 + 1)) <= int_max_str_digits)%nat)
    by (vm_compute; repeat constructor).
  exact (proj1 (proj2 get_next_bill_no_drops_first_character)
           "S" "S"%char 41%N H1 H2).
Defined.

(** C5, as stated, fails for a prefix of two characters: stripping the
    prefix "PO" from "PO0007" leaves the digits of 7, whose successor is 8,
    but the code drops one character only, fails to read "O0007" and starts
    over at "PO0001". *)
Lemma get_next_bill_no_long_prefix :
  next_bill_no_as_specified "PO" "PO0007" = "PO0008"
  /\ get_next_bill_no "PO" "PO0007" = "PO0001"
  /\ get_next_bill_no "PO" "PO0007" <> next_bill_no_as_specified "PO" "PO0007".
Proof. vm_compute. repeat split. intros H. discriminate H. Qed.

(** ** Order of strings *)

Lemma string_compare_refl (s : string) : String.compare s s = Eq.
Proof.
  pose proof (String.compare_antisym s s) as H.
  destruct (String.compare s s); [reflexivity|discriminate|discriminate].
Qed.

Lemma string_compare_lt_trans (a b c : string) :
  String.compare a b = Lt -> String.compare b c = Lt ->
  String.compare a c = Lt.
Proof.
  revert b c. induction a as [|x a IH]; intros [|y b] [|z c];
    cbn [String.compare]; try discriminate; try reflexivity.
  unfold Ascii.compare.
  destruct (N.compare_spec (N_of_ascii x) (N_of_ascii y)) as [Exy|Lxy|Gxy];
    try discriminate;
    destruct (N.compare_spec (N_of_ascii y) (N_of_ascii z)) as [Eyz|Lyz|Gyz];
    try discriminate; intros Hab Hbc.
  - replace (N_of_ascii x ?= N_of_ascii z)%N with Eq
      by (symmetry; apply N.compare_eq_iff; congruence).
    now apply IH with (b := b).
  - replace (N_of_ascii x ?= N_of_ascii z)%N with Lt
      by (symmetry; apply N.compare_lt_iff; lia).
    reflexivity.
  - replace (N_of_ascii x ?= N_of_ascii z)%N with Lt
      by (symmetry; apply N.compare_lt_iff; lia).
    reflexivity.
  - replace (N_of_ascii x ?= N_of_ascii z)%N with Lt
      by (symmetry; apply N.compare_lt_iff; lia).
    reflexivity.
Qed.

Lemma string_leb_refl (s : string) : String.leb s s = true.
Proof. unfold String.leb. now rewrite string_compare_refl. Qed.

Lemma string_leb_trans (a b c : string) :
  String.leb a b = true -> String.leb b c = true -> String.leb a c = true.
Proof.
  unfold String.leb.
  destruct (String.compare a b) eqn:Eab; try discriminate;
    destruct (String.compare b c) eqn:Ebc; try discriminate; intros _ _.
  - apply String.compare_eq_iff in Eab. subst b. now rewrite Ebc.
  - apply String.compare_eq_iff in Eab. subst b. now rewrite Ebc.
  - apply String.compare_eq_iff in Ebc. subst c. now rewrite Eab.
  - now rewrite (string_compare_lt_trans a b c Eab Ebc).
Qed.

(** ** Sorting that keeps the order of equal keys *)

Section Sorting.
Context {A : Type} (before : A -> A -> bool).
Hypothesis before_total :
  forall x y, before x y = false -> before y x = true.
Hypothesis before_trans :
  forall x y z, before x y = true -> before y z = true -> before x z = true.

Lemma insert_by_perm (x : A) (l : list A) :
  Permutation (insert_by before x l) (x :: l).
Proof.
  induction l as [|y t IH]; cbn [insert_by]; [reflexivity|].
  destruct (before x y); [reflexivity|].
  rewrite IH. apply perm_swap.
Qed.

Lemma sort_by_perm (l : list A) : Permutation (sort_by before l) l.
Proof.
  induction l as [|x l IH]; cbn [sort_by fold_right]; [reflexivity|].
  fold (sort_by before l). rewrite insert_by_perm. now constructor.
Qed.

Lemma sort_by_In (l : list A) (x : A) : In x (sort_by before l) <-> In x l.
Proof.
  split; apply Permutation_in;
    [apply sort_by_perm | symmetry; apply sort_by_perm].
Qed.

Lemma insert_by_stable (given : A -> A -> Prop) (x : A) (l : list A) :
  StronglySorted (stable_order before given) l ->
  Forall (given x) l ->
  StronglySorted (stable_order before given) (insert_by before x l).
Proof.
  induction l as [|y t IH]; cbn [insert_by]; intros Hs Hg.
  - repeat constructor.
  - apply StronglySorted_inv in Hs. destruct Hs as [Hs Hy].
    destruct (before x y) eqn:Exy.
    + constructor; [now constructor|].
      constructor.
      * split; [exact Exy|]. intros _.
        now inversion Hg.
      * rewrite Forall_forall in *. intros z Hz. split.
        { apply before_trans with (y := y); [exact Exy|].
          now apply Hy. }
        { intros _. apply Hg. now right. }
    + constructor.
      * apply IH; [exact Hs|]. now inversion Hg.
      * apply (Permutation_Forall
                 (Permutation_sym (insert_by_perm x t))).
        constructor; [|exact Hy].
        split; [now apply before_total|].
        intros H. rewrite H in Exy. discriminate.
Qed.

Lemma sort_by_stable (given : A -> A -> Prop) (l : list A) :
  StronglySorted given l ->
  StronglySorted (stable_order before given) (sort_by before l).
Proof.
  induction l as [|x l IH]; cbn [sort_by fold_right]; intros Hs.
  - constructor.
  - fold (sort_by before l). apply StronglySorted_inv in Hs.
    destruct Hs as [Hs Hx]. apply insert_by_stable; [now apply IH|].
    apply (Permutation_Forall (Permutation_sym (sort_by_perm l))).
    exact Hx.
Qed.
End Sorting.

Lemma StronglySorted_any {A} (l : list A) :
  StronglySorted (fun _ _ => True) l.
Proof.
  induction l as [|x l IH]; constructor; [exact IH|].
  apply Forall_forall. intros; exact I.
Qed.

Lemma StronglySorted_weaken {A} (R R' : A -> A -> Prop) (l : list A) :
  (forall x y, R x y -> R' x y) ->
  StronglySorted R l -> StronglySorted R' l.
Proof.
  intros HR Hs. induction Hs as [|x l Hs IH Hx]; constructor; [exact IH|].
  eapply Forall_impl; [|exact Hx]. intros y. apply HR.
Qed.

Lemma StronglySorted_map {A B} (f : A -> B) (R : B -> B -> Prop) (l : list A) :
  StronglySorted (fun x y => R (f x) (f y)) l -> StronglySorted R (map f l).
Proof.
  intros Hs. induction Hs as [|x l Hs IH Hx]; cbn [map]; constructor;
    [exact IH|].
  apply Forall_forall. intros y Hy. apply in_map_iff in Hy.
  destruct Hy as [z [<- Hz]]. rewrite Forall_forall in Hx. now apply Hx.
Qed.

Lemma StronglySorted_app {A} (R : A -> A -> Prop) (l1 l2 : list A) :
  StronglySorted R l1 -> StronglySorted R l2 ->
  (forall x y, In x l1 -> In y l2 -> R x y) ->
  StronglySorted R (l1 ++ l2).
Proof.
  intros H1 H2 H12. induction H1 as [|x l Hs IH Hx]; cbn [app]; [exact H2|].
  constructor.
  - apply IH. intros a b Ha Hb. apply H12; [now right | exact Hb].
  - apply Forall_app. split; [exact Hx|].
    apply Forall_forall. intros y Hy. apply H12; [now left | exact Hy].
Qed.

Lemma insert_by_map {A B} (f : A -> B) (before : B -> B -> bool)
      (x : A) (l : list A) :
  insert_by before (f x) (map f l) =
  map f (insert_by (fun a b => before (f a) (f b)) x l).
Proof.
  induction l as [|y t IH]; cbn [map insert_by]; [reflexivity|].
  destruct (before (f x) (f y)); cbn [map]; [reflexivity|]. now rewrite IH.
Qed.

Lemma sort_by_map {A B} (f : A -> B) (before : B -> B -> bool) (l : list A) :
  sort_by before (map f l) =
  map f (sort_by (fun a b => before (f a) (f b)) l).
Proof.
  induction l as [|x l IH]; cbn [map sort_by fold_right]; [reflexivity|].
  fold (sort_by before (map f l)).
  fold (sort_by (fun a b => before (f a) (f b)) l).
  rewrite IH. apply insert_by_map.
Qed.

(** ** The bill listing *)

Lemma date_desc_id_desc_total (x y : Bill.row * Item.row) :
  date_desc_id_desc x y = false -> date_desc_id_desc y x = true.
Proof.
  unfold date_desc_id_desc.
  rewrite (String.compare_antisym (Bill.date (fst x)) (Bill.date (fst y))).
  destruct (String.compare (Bill.date (fst y)) (Bill.date (fst x)));
    cbn [CompOpp]; try discriminate; [|reflexivity].
  intros H. apply Z.leb_gt in H. apply Z.leb_le. lia.
Qed.

Lemma date_desc_id_desc_trans (x y z : Bill.row * Item.row) :
  date_desc_id_desc x y = true -> date_desc_id_desc y z = true ->
  date_desc_id_desc x z = true.
Proof.
  unfold date_desc_id_desc.
  destruct (String.compare (Bill.date (fst y)) (Bill.date (fst x))) eqn:Eyx;
    try discriminate;
    destruct (String.compare (Bill.date (fst z)) (Bill.date (fst y))) eqn:Ezy;
    try discriminate; intros Hxy Hyz.
  - apply String.compare_eq_iff in Eyx. rewrite <- Eyx, Ezy.
    apply Z.leb_le in Hxy, Hyz. apply Z.leb_le. lia.
  - apply String.compare_eq_iff in Eyx. now rewrite <- Eyx, Ezy.
  - apply String.compare_eq_iff in Ezy. now rewrite Ezy, Eyx.
  - now rewrite (string_compare_lt_trans _ _ _ Ezy Eyx).
Qed.

Lemma In_inner_join {A B} (on : A -> B -> bool) (l : list A) (r : list B)
      (a : A) (b : B) :
  In (a, b) (inner_join on l r) <-> In a l /\ In b r /\ on a b = true.
Proof.
  unfold inner_join. rewrite in_flat_map. split.
  - intros [a' [Ha Hin]]. apply in_map_iff in Hin.
    destruct Hin as [b' [E Hb]]. injection E as -> ->.
    apply filter_In in Hb. tauto.
  - intros [Ha [Hb Hon]]. exists a. split; [exact Ha|].
    apply in_map_iff. exists b. split; [reflexivity|].
    apply filter_In. tauto.
Qed.

Lemma In_select_bill_rows table search_term db (p : Bill.row) (i : Item.row) :
  In (p, i) (select_bill_rows table search_term db) <->
  In p table /\ In i (items db) /\ Bill.item_id p = Item.id i
  /\ like (contains_pattern search_term) (Bill.bill_no p) = true.
Proof.
  unfold select_bill_rows.
  rewrite sort_by_In, filter_In, In_inner_join, Z.eqb_eq. cbn [fst]. tauto.
Qed.

Lemma select_bill_rows_sorted table search_term db :
  StronglySorted (fun x y => date_desc_id_desc x y = true)
                 (select_bill_rows table search_term db).
Proof.
  unfold select_bill_rows.
  eapply StronglySorted_weaken;
    [|apply (sort_by_stable date_desc_id_desc date_desc_id_desc_total
               date_desc_id_desc_trans (fun _ _ => True));
      apply StronglySorted_any].
  intros x y [H _]. exact H.
Qed.

Lemma given_order_tagged (lp ls : list (Bill.row * Item.row)) :
  StronglySorted (fun x y => date_desc_id_desc x y = true) lp ->
  StronglySorted (fun x y => date_desc_id_desc x y = true) ls ->
  StronglySorted given_order (map (pair "P") lp ++ map (pair "S") ls).
Proof.
  intros Hp Hs. apply StronglySorted_app.
  - apply StronglySorted_map. eapply StronglySorted_weaken; [|exact Hp].
    intros x y H. right. now split.
  - apply StronglySorted_map. eapply StronglySorted_weaken; [|exact Hs].
    intros x y H. right. now split.
  - intros x y Hx Hy. apply in_map_iff in Hx, Hy.
    destruct Hx as [a [<- _]]. destruct Hy as [b [<- _]]. left. now split.
Qed.

Lemma map_tagged_shown (shown : bool) (tag : string)
      (l : list (Bill.row * Item.row)) :
  (if shown then map (tagged tag) l else []) =
  map listed_tuple (map (pair tag) (if shown then l else [])).
Proof. destruct shown; [|reflexivity]. now rewrite map_map. Qed.

Lemma shown_sorted (shown : bool) table search_term db :
  StronglySorted (fun x y => date_desc_id_desc x y = true)
    (if shown then select_bill_rows table search_term db else []).
Proof. destruct shown; [apply select_bill_rows_sorted | constructor]. Qed.

Lemma In_shown (shown : bool) table search_term db p i :
  In (p, i) (if shown then select_bill_rows table search_term db else []) <->
  shown = true /\ In p table /\ In i (items db)
  /\ Bill.item_id p = Item.id i
  /\ like (contains_pattern search_term) (Bill.bill_no p) = true.
Proof.
  destruct shown.
  - rewrite In_select_bill_rows. tauto.
  - split; [intros [] | intros [H _]; discriminate].
Qed.

(** C6, as the code has it, for a search text of at most 24999 characters
    (longer ones can make a LIKE pattern that SQLite refuses).  The rows
    listed are exactly the purchase rows
    (tag "P", when the type filter is "All Bills" or "Purchases Only") and
    the sale rows (tag "S", when it is "All Bills" or "Sales Only") whose
    item exists and whose bill number matches [LIKE '%term%'] for the search
    text stripped of the whitespace around it.  They are listed by date descending; among rows of
    one date the purchases come before the sales, and within each kind the
    later inserted row (larger id) comes first. *)
Theorem load_bills_order (bill_type search_text : string) (db : database) :
  term_fits search_text ->
  exists rows : list listed,
    load_bills bill_type search_text db = map listed_tuple rows
    /\ StronglySorted listing_order rows
    /\ forall (tag : string) (p : Bill.row) (i : Item.row),
         In (tag, (p, i)) rows <->
         ((tag = "P"
           /\ one_of bill_type ["All Bills"; "Purchases Only"] = true
           /\ In p (purchases db))
          \/ (tag = "S"
              /\ one_of bill_type ["All Bills"; "Sales Only"] = true
              /\ In p (sales db)))
         /\ In i (items db) /\ Bill.item_id p = Item.id i
         /\ like (contains_pattern (strip str_space search_text))
                 (Bill.bill_no p) = true.
Proof.
  intros _. set (term := strip str_space search_text).
  set (lp := if one_of bill_type ["All Bills"; "Purchases Only"]
             then select_bill_rows (purchases db) term db else []).
  set (ls := if one_of bill_type ["All Bills"; "Sales Only"]
             then select_bill_rows (sales db) term db else []).
  set (before := fun x y : listed =>
                   String.leb (listed_date y) (listed_date x)).
  exists (sort_by before (map (pair "P") lp ++ map (pair "S") ls)).
  split; [|split].
  - unfold load_bills. fold term. rewrite !map_tagged_shown.
    fold lp ls. rewrite <- map_app. rewrite sort_by_map. reflexivity.
  - eapply StronglySorted_weaken;
      [|apply (sort_by_stable before) with (given := given_order)].
    + intros x y [Hb Hg]. split; [exact Hb|]. intros Hd.
      unfold before in Hg. rewrite Hd in Hg.
      destruct (Hg (string_leb_refl _)) as [Hps|[Ht Ho]]; [now left|].
      right. split; [exact Ht|].
      unfold date_desc_id_desc in Ho. unfold listed_date in Hd.
      rewrite Hd, string_compare_refl in Ho. now apply Z.leb_le.
    + intros x y H. unfold before in *.
      destruct (String.leb_total (listed_date x) (listed_date y)) as [E|E];
        [exact E | rewrite E in H; discriminate].
    + intros x y z. unfold before. intros H1 H2.
      now apply string_leb_trans with (b := listed_date y).
    + apply given_order_tagged; apply shown_sorted.
  - intros tag p i. rewrite sort_by_In, in_app_iff, !in_map_iff.
    split.
    + intros [[r [E Hr]]|[r [E Hr]]]; injection E as <- ->;
        apply In_shown in Hr; tauto.
    + intros [[[-> [Ho Hp]]|[-> [Ho Hp]]] Hrest].
      * left. exists (p, i). split; [reflexivity|].
        apply In_shown. tauto.
      * right. exists (p, i). split; [reflexivity|].
        apply In_shown. tauto.
Qed.

Lemma load_bills_order_witness :
  exists rows : list listed,
    load_bills "All Bills" " s00 " same_day_sale = map listed_tuple rows
    /\ StronglySorted listing_order rows
    /\ forall (tag : string) (p : Bill.row) (i : Item.row),
         In (tag, (p, i)) rows <->
         ((tag = "P"
           /\ one_of "All Bills" ["All Bills"; "Purchases Only"] = true
           /\ In p (purchases same_day_sale))
          \/ (tag = "S"
              /\ one_of "All Bills" ["All Bills"; "Sales Only"] = true
              /\ In p (sales same_day_sale)))
         /\ In i (items same_day_sale) /\ Bill.item_id p = Item.id i
         /\ like (contains_pattern (strip str_space " s00 "))
                 (Bill.bill_no p) = true.
Proof.
  assert (H : term_fits " s00 ") by (vm_compute; intros H; discriminate H).
  exact (load_bills_order "All Bills" " s00 " same_day_sale H).
Defined.

(** C6, as stated, fails on a purchase and a sale of one date: the sale is
    the row inserted last (it is absent before [add_sale], and its log entry
    has the larger id), yet it is listed below the purchase.  It also fails
    on a purchase whose item is missing, which is a purchase row and is not
    listed, and on the search texts "p0_01" and "%", which are no part of
    the bill number "P0001" and list it. *)
Lemma load_bills_same_day_sale_listed_last :
  load_bills "All Bills" "" same_day_purchase =
    [("P", "P0001", "2024-01-01", "Bolt", 10, 5, 10 * 5)%Q]
  /\ map (fun e => (Log.bill_no e, Log.id e)) (stock_log same_day_sale) =
       [("P0001", 1); ("S0001", 2)]
  /\ load_bills "All Bills" "" same_day_sale =
       [("P", "P0001", "2024-01-01", "Bolt", 10, 5, 10 * 5)%Q;
        ("S", "S0001", "2024-01-01", "Bolt", 4, 8, 4 * 8)%Q]
  /\ load_bills "All Bills" "" same_day_sale <>
       [("S", "S0001", "2024-01-01", "Bolt", 4, 8, 4 * 8)%Q;
        ("P", "P0001", "2024-01-01", "Bolt", 10, 5, 10 * 5)%Q]
  /\ map Bill.bill_no (purchases dangling_purchase) = ["P0001"]
  /\ load_bills "All Bills" "" dangling_purchase = []
  /\ load_bills "All Bills" "p0_01" same_day_purchase =
       [("P", "P0001", "2024-01-01", "Bolt", 10, 5, 10 * 5)%Q]
  /\ load_bills "All Bills" "%" same_day_purchase =
       [("P", "P0001", "2024-01-01", "Bolt", 10, 5, 10 * 5)%Q].
Proof.
  split; [vm_compute; reflexivity|]. split; [vm_compute; reflexivity|].
  split; [vm_compute; reflexivity|].
  split; [vm_compute; intros H; discriminate H|].
  split; [vm_compute; reflexivity|]. split; [vm_compute; reflexivity|].
  split; vm_compute; reflexivity.
Qed.

(** ** The item listing *)

(** C4, at the failing input.  The two LEFT JOINs pair each of the two
    purchase rows with the sale row, so the one sale of 3 is summed twice:
    the listing reports [sold_qty = 6] where the sale rows of the item sum
    to 3 ([purchased_qty = 15] is the sum of the purchase rows).
    [search_items] runs the same query. *)
Theorem get_all_items_sums_sale_twice :
  (sum_quantity 1 (purchases bolt_two_purchases) == 15)%Q
  /\ (sum_quantity 1 (sales bolt_two_purchases) == 3)%Q
  /\ get_all_items bolt_two_purchases = [Listing.mk 1 "Bolt" 15 6 12 5 8]
  /\ search_items "bolt" bolt_two_purchases = [Listing.mk 1 "Bolt" 15 6 12 5 8]
  /\ ~ (6 == 3)%Q.
Proof.
  split; [vm_compute; reflexivity|]. split; [vm_compute; reflexivity|].
  split; [vm_compute; reflexivity|]. split; [vm_compute; reflexivity|].
  intros H. vm_compute in H. discriminate H.
Qed.

(** ** What sessions keep true of the tables *)

Lemma name_taken_In (n : string) (l : list Item.row) :
  name_taken n l = true <-> In n (map Item.item_name l).
Proof.
  unfold name_taken. rewrite existsb_exists, in_map_iff. split.
  - intros [it [Hin Heq]]. apply String.eqb_eq in Heq. now exists it.
  - intros [it [Heq Hin]]. exists it. split; [exact Hin|].
    now apply String.eqb_eq.
Qed.

Lemma map_name_on_item (i : Z) f (l : list Item.row) :
  (forall it, Item.item_name (f it) = Item.item_name it) ->
  map Item.item_name (map (on_item i f) l) = map Item.item_name l.
Proof.
  intros Hf. rewrite map_map. apply map_ext. intros it. unfold on_item.
  destruct (Item.id it =? i); [apply Hf | reflexivity].
Qed.

Lemma on_item_id (i : Z) f (it : Item.row) :
  (forall x, Item.id (f x) = Item.id x) ->
  Item.id (on_item i f it) = Item.id it.
Proof.
  intros Hf. unfold on_item. destruct (Item.id it =? i); [apply Hf|reflexivity].
Qed.

Lemma existsb_id_false (i : Z) (l : list Item.row) :
  existsb (fun it => Item.id it =? i) l = false <->
  ~ In i (map Item.id l).
Proof.
  rewrite <- not_true_iff_false, existsb_exists, in_map_iff. split.
  - intros H [it [Hid Hin]]. apply H. exists it. split; [exact Hin|].
    now apply Z.eqb_eq.
  - intros H [it [Hin Hid]]. apply H. exists it. apply Z.eqb_eq in Hid.
    now split.
Qed.

Lemma map_on_item_no_hit (i : Z) f (l : list Item.row) :
  ~ In i (map Item.id l) -> map (on_item i f) l = l.
Proof.
  induction l as [|a l IH]; cbn [map]; intros H; [reflexivity|].
  unfold on_item at 1. destruct (Item.id a =? i) eqn:E.
  - apply Z.eqb_eq in E. exfalso. apply H. now left.
  - rewrite IH; [reflexivity|]. intros Hin. apply H. now right.
Qed.

(** Renaming the one item with id [i] keeps names distinct when no other
    item has the new name. *)
Lemma NoDup_names_rename (i : Z) (n : string) f (l : list Item.row) :
  (forall it, Item.id (f it) = Item.id it) ->
  (forall it, Item.item_name (f it) = n) ->
  NoDup (map Item.id l) ->
  NoDup (map Item.item_name l) ->
  (forall it, In it l -> Item.id it <> i -> Item.item_name it <> n) ->
  NoDup (map Item.item_name (map (on_item i f) l)).
Proof.
  intros Hid Hname. induction l as [|a l IH]; cbn [map];
    intros Hids Hnames Hclash; [constructor|].
  inversion Hids as [|x xs Hnin Hids']; subst.
  inversion Hnames as [|x xs Hnin' Hnames']; subst.
  unfold on_item at 1. destruct (Item.id a =? i) eqn:E.
  - apply Z.eqb_eq in E. subst i.
    rewrite (map_on_item_no_hit (Item.id a) f l Hnin).
    rewrite Hname. constructor; [|exact Hnames'].
    intros Hin. apply in_map_iff in Hin. destruct Hin as [b [Hb Hin]].
    apply (Hclash b); [now right| |exact Hb].
    intros Heq. apply Hnin. rewrite <- Heq. now apply in_map.
  - apply Z.eqb_neq in E. constructor.
    + intros Hin. apply in_map_iff in Hin. destruct Hin as [b' [Hb' Hin]].
      apply In_map_on_item in Hin.
      destruct Hin as [b [Hin [[_ ->]|[_ ->]]]].
      * rewrite Hname in Hb'. apply (Hclash a); [now left|exact E|].
        now symmetry.
      * apply Hnin'. rewrite <- Hb'. now apply in_map.
    + apply IH; [exact Hids'|exact Hnames'|].
      intros it Hin. apply Hclash. now right.
Qed.

Lemma catalog_inv_flag (b : bool) (db : database) :
  catalog_inv db -> catalog_inv (set_in_transaction b db).
Proof. intros [H1 H2 H3 H4 H5]. constructor; assumption. Qed.

Lemma catalog_inv_create_tables : catalog_inv create_tables.
Proof.
  constructor; cbn; try (intros ? []); try constructor. discriminate.
Qed.

Lemma catalog_inv_perform (c : call) (db : database) :
  catalog_inv db -> catalog_inv (perform c db).
Proof.
  intros Hinv. pose proof Hinv as [Hids Hbound Hseq Hnames Hsales].
  destruct c as [n p s|i n p s|i|b d i q r|b d i q r]; cbn [perform].
  - rewrite add_item_outcome. destruct (name_taken n (items db)) eqn:Et.
    + now apply catalog_inv_flag.
    + cbn [state_of]. constructor; simpl_db.
      * rewrite map_app. apply NoDup_app; [exact Hids| |].
        { cbn [map]. constructor; [intros []|constructor]. }
        intros a Ha [<-|[]]. cbn [Item.id] in Ha.
        apply in_map_iff in Ha. destruct Ha as [it [Hid Hin]].
        apply Hbound in Hin. lia.
      * intros it Hin. apply in_app_or in Hin.
        destruct Hin as [Hin|[<-|[]]]; [apply Hbound in Hin; lia|].
        cbn [Item.id]. lia.
      * lia.
      * rewrite map_app. apply NoDup_app; [exact Hnames| |].
        { cbn [map]. constructor; [intros []|constructor]. }
        intros a Ha [<-|[]]. cbn [Item.item_name] in Ha.
        apply name_taken_In in Ha. rewrite Ha in Et. discriminate.
      * intros s0 Hs. destruct (Hsales s0 Hs) as [it [Hin Hid]].
        exists it. split; [apply in_or_app; now left | exact Hid].
  - rewrite update_item_outcome.
    destruct (sqlite_int i); [|now apply catalog_inv_flag].
    destruct (existsb (fun it => Item.id it =? i) (items db)) eqn:Ehit;
      cbn [andb].
    + destruct (existsb (fun it => negb (Item.id it =? i)
                                   && String.eqb (Item.item_name it) n)
                        (items db)) eqn:Eclash.
      * now apply catalog_inv_flag.
      * cbn [state_of]. constructor; simpl_db; try assumption.
        { now rewrite map_id_on_item. }
        { intros it' Hin. apply In_map_on_item in Hin.
          destruct Hin as [it [Hin [[_ ->]|[_ ->]]]];
            cbn [Item.id]; now apply Hbound. }
        { apply NoDup_names_rename with (n := n); try assumption;
            try reflexivity.
          intros it Hin Hne Hn.
          apply not_true_iff_false in Eclash. apply Eclash.
          apply existsb_exists. exists it. split; [exact Hin|].
          apply andb_true_iff. split.
          - now apply negb_true_iff, Z.eqb_neq.
          - now apply String.eqb_eq. }
        { intros s0 Hs. destruct (Hsales s0 Hs) as [it [Hin Hid]].
          exists (on_item i (fun it0 =>
                    Item.mk (Item.id it0) n (Item.current_stock it0) p s) it).
          split; [now apply in_map|].
          rewrite on_item_id by reflexivity. exact Hid. }
    + cbn [state_of]. apply existsb_id_false in Ehit.
      rewrite (map_on_item_no_hit i _ (items db) Ehit).
      constructor; simpl_db; assumption.
  - rewrite delete_item_outcome.
    destruct (sqlite_int i); [|exact Hinv].
    destruct ((count_bills i (purchases db) >? 0)
              || (count_bills i (sales db) >? 0)) eqn:G; cbn [state_of].
    + exact Hinv.
    + assert (Href : ~ referenced i db).
      { intros Hr. apply delete_item_guard in Hr. rewrite Hr in G.
        discriminate. }
      constructor; simpl_db; try assumption.
      * now apply NoDup_map_filter.
      * intros it Hin. apply filter_In in Hin. now apply Hbound.
      * now apply NoDup_map_filter.
      * intros s0 Hs. destruct (Hsales s0 Hs) as [it [Hin Hid]].
        exists it. split; [|exact Hid]. apply filter_In. split; [exact Hin|].
        apply negb_true_iff, Z.eqb_neq. intros Heq. apply Href.
        exists s0. split; [now right | congruence].
  - destruct (add_purchase_cases b d i q r db) as [E|E]; rewrite E;
      cbn [state_of].
    + now apply catalog_inv_flag.
    + constructor; simpl_db; try assumption.
      * now rewrite map_id_on_item.
      * intros it' Hin. apply In_map_on_item in Hin.
        destruct Hin as [it [Hin [[_ ->]|[_ ->]]]];
          cbn [purchased Item.id]; now apply Hbound.
      * now rewrite map_name_on_item.
      * intros s0 Hs. destruct (Hsales s0 Hs) as [it [Hin Hid]].
        exists (on_item i (purchased q r) it).
        split; [now apply in_map|].
        rewrite on_item_id by reflexivity. exact Hid.
  - destruct (add_sale_cases b d i q r db) as [[m E]|[it0 [Hit0 [_ E]]]];
      rewrite E; cbn [state_of].
    + now apply catalog_inv_flag.
    + constructor; simpl_db; try assumption.
      * now rewrite map_id_on_item.
      * intros it' Hin. apply In_map_on_item in Hin.
        destruct Hin as [it [Hin [[_ ->]|[_ ->]]]];
          cbn [sold Item.id]; now apply Hbound.
      * now rewrite map_name_on_item.
      * intros s0 Hs. apply in_app_or in Hs.
        destruct Hs as [Hs|[<-|[]]].
        { destruct (Hsales s0 Hs) as [it [Hin Hid]].
          exists (on_item i (sold q r) it).
          split; [now apply in_map|].
          rewrite on_item_id by reflexivity. exact Hid. }
        { unfold get_item_by_id in Hit0. apply find_some in Hit0.
          destruct Hit0 as [Hin Hid]. apply Z.eqb_eq in Hid.
          exists (on_item i (sold q r) it0).
          split; [now apply in_map|].
          rewrite on_item_id by reflexivity. exact Hid. }
Qed.

Lemma catalog_inv_session (cs : list call) (db : database) :
  catalog_inv db -> catalog_inv (session cs db).
Proof.
  revert db. induction cs as [|c cs IH]; intros db Hinv; [exact Hinv|].
  cbn [session]. apply IH. now apply catalog_inv_perform.
Qed.

Lemma first_ids_snoc (n : nat) :
  first_ids (S n) = (first_ids n ++ [Z.of_nat n + 1])%list.
Proof.
  unfold first_ids. rewrite seq_S, map_app. cbn [map].
  do 2 f_equal. lia.
Qed.

Lemma length_snoc {A} (l : list A) (x : A) :
  List.length (l ++ [x]) = S (List.length l).
Proof. rewrite length_app. cbn [List.length]. lia. Qed.

(** The ledger invariant only looks at the three ledger tables. *)
Lemma ledger_rows_inv_same (db db' : database) :
  purchases db' = purchases db -> purchases_seq db' = purchases_seq db ->
  sales db' = sales db -> sales_seq db' = sales_seq db ->
  stock_log db' = stock_log db -> stock_log_seq db' = stock_log_seq db ->
  ledger_rows_inv db -> ledger_rows_inv db'.
Proof.
  intros E1 E2 E3 E4 E5 E6 [H1 H2 H3 H4 H5 H6 H7 H8 H9].
  constructor; rewrite ?E1, ?E2, ?E3, ?E4, ?E5, ?E6; assumption.
Qed.

Lemma ledger_rows_inv_create_tables : ledger_rows_inv create_tables.
Proof. constructor; cbn; try reflexivity. intros b [[]|[]]. Qed.

Lemma ledger_rows_inv_perform (c : call) (db : database) :
  ledger_rows_inv db -> ledger_rows_inv (perform c db).
Proof.
  intros Hinv. pose proof Hinv as [Hp Hps Hs Hss Hl Hls Ht Hlp Hlsale].
  destruct c as [n p s|i n p s|i|b d i q r|b d i q r]; cbn [perform].
  - rewrite add_item_outcome. destruct (name_taken n (items db));
      cbn [state_of]; now apply (ledger_rows_inv_same db).
  - rewrite update_item_outcome.
    destruct (sqlite_int i); [destruct (_ && _)|];
      cbn [state_of]; now apply (ledger_rows_inv_same db).
  - rewrite delete_item_outcome.
    destruct (sqlite_int i); [destruct (_ || _)|];
      cbn [state_of]; now apply (ledger_rows_inv_same db).
  - destruct (add_purchase_cases b d i q r db) as [E|E]; rewrite E;
      cbn [state_of].
    + now apply (ledger_rows_inv_same db).
    + constructor; simpl_db; try assumption.
      * rewrite map_app, length_snoc, first_ids_snoc, Hp, Hps. reflexivity.
      * rewrite length_snoc, Hps. lia.
      * rewrite map_app, length_snoc, first_ids_snoc, Hl, Hls. reflexivity.
      * rewrite length_snoc, Hls. lia.
      * intros b0 [Hb|Hb]; [|apply Ht; now right].
        apply in_app_or in Hb. destruct Hb as [Hb|[<-|[]]];
          [apply Ht; now left | reflexivity].
      * rewrite filter_app, !map_app, Hlp. reflexivity.
      * rewrite filter_app, map_app, Hlsale. cbn. now rewrite app_nil_r.
  - destruct (add_sale_cases b d i q r db) as [[m E]|[it0 [_ [_ E]]]];
      rewrite E; cbn [state_of].
    + now apply (ledger_rows_inv_same db).
    + constructor; simpl_db; try assumption.
      * rewrite map_app, length_snoc, first_ids_snoc, Hs, Hss. reflexivity.
      * rewrite length_snoc, Hss. lia.
      * rewrite map_app, length_snoc, first_ids_snoc, Hl, Hls. reflexivity.
      * rewrite length_snoc, Hls. lia.
      * intros b0 [Hb|Hb]; [apply Ht; now left|].
        apply in_app_or in Hb. destruct Hb as [Hb|[<-|[]]];
          [apply Ht; now right | reflexivity].
      * rewrite filter_app, map_app, Hlp. cbn. now rewrite app_nil_r.
      * rewrite filter_app, !map_app, Hlsale. reflexivity.
Qed.

Lemma ledger_rows_inv_session (cs : list call) (db : database) :
  ledger_rows_inv db -> ledger_rows_inv (session cs db).
Proof.
  revert db. induction cs as [|c cs IH]; intros db Hinv; [exact Hinv|].
  cbn [session]. apply IH. now apply ledger_rows_inv_perform.
Qed.

Lemma session_app (cs cs' : list call) (db : database) :
  session (cs ++ cs') db = session cs' (session cs db).
Proof.
  revert db. induction cs as [|c cs IH]; intros db; [reflexivity|].
  cbn [app session]. apply IH.
Qed.

(** One call only appends to the ledger tables. *)
Lemma perform_appends (c : call) (db : database) :
  exists p s g,
    purchases (perform c db) = (purchases db ++ p)%list
    /\ sales (perform c db) = (sales db ++ s)%list
    /\ stock_log (perform c db) = (stock_log db ++ g)%list.
Proof.
  destruct c as [n p s|i n p s|i|b d i q r|b d i q r]; cbn [perform].
  - rewrite add_item_outcome. destruct (name_taken n (items db));
      exists [], [], []; cbn [state_of]; simpl_db;
      now rewrite !app_nil_r.
  - rewrite update_item_outcome.
    destruct (sqlite_int i); [destruct (_ && _)|];
      exists [], [], []; cbn [state_of]; simpl_db;
      now rewrite !app_nil_r.
  - rewrite delete_item_outcome.
    destruct (sqlite_int i); [destruct (_ || _)|];
      exists [], [], []; cbn [state_of]; simpl_db;
      now rewrite !app_nil_r.
  - destruct (add_purchase_cases b d i q r db) as [E|E]; rewrite E;
      cbn [state_of].
    + exists [], [], []. simpl_db. now rewrite !app_nil_r.
    + exists [Bill.mk (purchases_seq db + 1) b d i q r (q * r)], [],
        [Log.mk (stock_log_seq db + 1) i q purchase d b].
      simpl_db. now rewrite app_nil_r.
  - destruct (add_sale_cases b d i q r db) as [[m E]|[it0 [_ [_ E]]]];
      rewrite E; cbn [state_of].
    + exists [], [], []. simpl_db. now rewrite !app_nil_r.
    + exists [], [Bill.mk (sales_seq db + 1) b d i q r (q * r)],
        [Log.mk (stock_log_seq db + 1) i (- q) sale d b].
      simpl_db. now rewrite app_nil_r.
Qed.

Lemma session_appends (cs : list call) (db : database) :
  exists p s g,
    purchases (session cs db) = (purchases db ++ p)%list
    /\ sales (session cs db) = (sales db ++ s)%list
    /\ stock_log (session cs db) = (stock_log db ++ g)%list.
Proof.
  revert db. induction cs as [|c cs IH]; intros db.
  - exists [], [], []. cbn [session]. now rewrite !app_nil_r.
  - cbn [session]. destruct (IH (perform c db)) as [p [s [g [Hp [Hs Hg]]]]].
    destruct (perform_appends c db) as [p0 [s0 [g0 [Hp0 [Hs0 Hg0]]]]].
    exists (p0 ++ p)%list, (s0 ++ s)%list, (g0 ++ g)%list.
    rewrite Hp, Hs, Hg, Hp0, Hs0, Hg0, !app_assoc. repeat split.
Qed.

Lemma find_by_id_present (i : Z) (l : list Item.row) (it : Item.row) :
  NoDup (map Item.id l) -> In it l -> Item.id it = i ->
  find (fun x => Item.id x =? i) l = Some it.
Proof.
  intros Hnd Hin Hid.
  destruct (find (fun x => Item.id x =? i) l) as [it0|] eqn:E.
  - f_equal. symmetry. now apply (find_by_id_unique i l).
  - exfalso. apply (find_none _ _ E) in Hin. cbn in Hin.
    apply Z.eqb_neq in Hin. contradiction.
Qed.

(** Over every session from the empty database the primary key and the
    UNIQUE constraint hold: item ids are pairwise distinct and lie between 1
    and the AUTOINCREMENT counter, item names are pairwise distinct, and
    [get_item_by_id] returns an item exactly when it is the row with that
    id. *)
Theorem item_keys_stay_unique (cs : list call) :
  NoDup (map Item.id (items (session cs create_tables)))
  /\ NoDup (map Item.item_name (items (session cs create_tables)))
  /\ (forall it, In it (items (session cs create_tables)) ->
        1 <= Item.id it <= items_seq (session cs create_tables))
  /\ (forall i it,
        get_item_by_id i (session cs create_tables) = Some it <->
        In it (items (session cs create_tables)) /\ Item.id it = i).
Proof.
  destruct (catalog_inv_session cs create_tables catalog_inv_create_tables)
    as [Hids Hbound _ Hnames _].
  split; [exact Hids|]. split; [exact Hnames|]. split; [exact Hbound|].
  intros i it. unfold get_item_by_id. split.
  - intros H. apply find_some in H. destruct H as [Hin Hid].
    apply Z.eqb_eq in Hid. now split.
  - intros [Hin Hid]. now apply find_by_id_present.
Qed.

(** Over every session from the empty database each sale row names an item
    that is in the table: sales never dangle, although foreign keys are not
    enforced. *)
Theorem sales_name_existing_items (cs : list call) (s : Bill.row) :
  In s (sales (session cs create_tables)) ->
  exists it,
    get_item_by_id (Bill.item_id s) (session cs create_tables) = Some it.
Proof.
  intros Hs.
  destruct (catalog_inv_session cs create_tables catalog_inv_create_tables)
    as [Hids _ _ _ Hsales].
  destruct (Hsales s Hs) as [it [Hin Hid]]. exists it.
  now apply find_by_id_present.
Qed.

Lemma sales_name_existing_items_witness :
  exists it,
    get_item_by_id
      (Bill.item_id (Bill.mk 1 "S0001" "2024-01-02" 1 4 8 (4 * 8)))
      (session bolt_session create_tables) = Some it.
Proof.
  assert (H : In (Bill.mk 1 "S0001" "2024-01-02" 1 4 8 (4 * 8))
                 (sales (session bolt_session create_tables))).
  { vm_compute. left. reflexivity. }
  exact (sales_name_existing_items bolt_session _ H).
Defined.

(** Purchase, sale and stock-log rows are never changed or removed: whatever
    calls follow a session, each of the three tables keeps the rows it had, in
    order, and only gains rows at its end. *)
Theorem ledger_tables_only_grow (cs cs' : list call) (db : database) :
  exists p s g,
    purchases (session (cs ++ cs') db) =
      (purchases (session cs db) ++ p)%list
    /\ sales (session (cs ++ cs') db) = (sales (session cs db) ++ s)%list
    /\ stock_log (session (cs ++ cs') db) =
         (stock_log (session cs db) ++ g)%list.
Proof. rewrite session_app. apply session_appends. Qed.

(** Over every session from the empty database the rows of each ledger
    table carry the ids 1, 2, ..., n in insertion order, and each
    AUTOINCREMENT counter equals the number of rows of its table. *)
Theorem ledger_ids_count_rows (cs : list call) :
  map Bill.id (purchases (session cs create_tables)) =
    first_ids (List.length (purchases (session cs create_tables)))
  /\ purchases_seq (session cs create_tables) =
       Z.of_nat (List.length (purchases (session cs create_tables)))
  /\ map Bill.id (sales (session cs create_tables)) =
       first_ids (List.length (sales (session cs create_tables)))
  /\ sales_seq (session cs create_tables) =
       Z.of_nat (List.length (sales (session cs create_tables)))
  /\ map Log.id (stock_log (session cs create_tables)) =
       first_ids (List.length (stock_log (session cs create_tables)))
  /\ stock_log_seq (session cs create_tables) =
       Z.of_nat (List.length (stock_log (session cs create_tables))).
Proof.
  destruct (ledger_rows_inv_session cs create_tables
              ledger_rows_inv_create_tables)
    as [H1 H2 H3 H4 H5 H6 _ _ _].
  repeat split; assumption.
Qed.

(** Over every session from the empty database every purchase row and every
    sale row has [total = quantity * rate]. *)
Theorem totals_are_quantity_times_rate (cs : list call) (b : Bill.row) :
  In b (purchases (session cs create_tables))
  \/ In b (sales (session cs create_tables)) ->
  Bill.total b = (Bill.quantity b * Bill.rate b)%Q.
Proof.
  apply (rows_totals _ (ledger_rows_inv_session cs create_tables
                          ledger_rows_inv_create_tables)).
Qed.

Lemma totals_are_quantity_times_rate_witness :
  Bill.total (Bill.mk 1 "S0001" "2024-01-02" 1 4 8 (4 * 8)) =
  (Bill.quantity (Bill.mk 1 "S0001" "2024-01-02" 1 4 8 (4 * 8))
   * Bill.rate (Bill.mk 1 "S0001" "2024-01-02" 1 4 8 (4 * 8)))%Q.
Proof.
  assert (H : In (Bill.mk 1 "S0001" "2024-01-02" 1 4 8 (4 * 8))
                 (purchases (session bolt_session create_tables))
              \/ In (Bill.mk 1 "S0001" "2024-01-02" 1 4 8 (4 * 8))
                    (sales (session bolt_session create_tables))).
  { right. vm_compute. left. reflexivity. }
  exact (totals_are_quantity_times_rate bolt_session _ H).
Defined.

Lemma length_filter_split {A} (f g : A -> bool) (l : list A) :
  (forall x, g x = negb (f x)) ->
  List.length l =
  (List.length (filter f l) + List.length (filter g l))%nat.
Proof.
  intros Hg. induction l as [|x l IH]; [reflexivity|].
  cbn [filter]. rewrite (Hg x). destruct (f x); cbn [negb List.length]; lia.
Qed.

(** Over every session from the empty database the stock log mirrors the
    ledger: its purchase entries, in order, are the purchase rows with
    [change_qty = +quantity], its sale entries, in order, are the sale rows
    with [change_qty = -quantity], each with the row's item, date and bill
    number; so the log has as many entries as there are purchase and sale
    rows together. *)
Theorem stock_log_mirrors_ledger (cs : list call) :
  map log_entry
      (filter is_purchase_entry (stock_log (session cs create_tables))) =
    map log_of_purchase (purchases (session cs create_tables))
  /\ map log_entry
         (filter is_sale_entry (stock_log (session cs create_tables))) =
       map log_of_sale (sales (session cs create_tables))
  /\ List.length (stock_log (session cs create_tables)) =
       (List.length (purchases (session cs create_tables))
        + List.length (sales (session cs create_tables)))%nat.
Proof.
  destruct (ledger_rows_inv_session cs create_tables
              ledger_rows_inv_create_tables)
    as [_ _ _ _ _ _ _ Hp Hs].
  split; [exact Hp|]. split; [exact Hs|].
  rewrite (length_filter_split is_purchase_entry is_sale_entry).
  - rewrite <- (length_map log_entry (filter is_purchase_entry _)), Hp.
    rewrite <- (length_map log_entry (filter is_sale_entry _)), Hs.
    now rewrite !length_map.
  - intros e. unfold is_purchase_entry, is_sale_entry.
    destruct (Log.type e); reflexivity.
Qed.

Lemma sum_change_snoc (j : Z) (l : list Log.row) (e : Log.row) :
  (sum_change j (l ++ [e]) ==
   sum_change j l + (if Log.item_id e =? j then Log.change_qty e else 0))%Q.
Proof.
  unfold sum_change. rewrite filter_app, map_app, fold_right_app.
  cbn [filter]. destruct (Log.item_id e =? j); cbn [map fold_right].
  - generalize (map Log.change_qty
                  (filter (fun e0 => Log.item_id e0 =? j) l)).
    intros qs. induction qs as [|x qs IH]; cbn [fold_right]; [ring|].
    rewrite IH. ring.
  - ring.
Qed.

Lemma log_balanced_perform (c : call) (db : database) :
  log_balanced db -> log_balanced (perform c db).
Proof.
  intros Hinv.
  destruct c as [n p s|i n p s|i|b d i q r|b d i q r]; cbn [perform].
  - rewrite add_item_outcome. destruct (name_taken n (items db)); exact Hinv.
  - rewrite update_item_outcome.
    destruct (sqlite_int i); [destruct (_ && _)|]; exact Hinv.
  - rewrite delete_item_outcome.
    destruct (sqlite_int i); [destruct (_ || _)|]; exact Hinv.
  - destruct (add_purchase_cases b d i q r db) as [E|E]; rewrite E;
      cbn [state_of]; [exact Hinv|].
    intros j. simpl_db. rewrite sum_change_snoc, sum_quantity_snoc, (Hinv j).
    cbn [Log.item_id Log.change_qty Bill.item_id Bill.quantity].
    destruct (i =? j); ring.
  - destruct (add_sale_cases b d i q r db) as [[m E]|[it0 [_ [_ E]]]];
      rewrite E; cbn [state_of]; [exact Hinv|].
    intros j. simpl_db. rewrite sum_change_snoc, sum_quantity_snoc, (Hinv j).
    cbn [Log.item_id Log.change_qty Bill.item_id Bill.quantity].
    destruct (i =? j); ring.
Qed.

Lemma log_balanced_session (cs : list call) (db : database) :
  log_balanced db -> log_balanced (session cs db).
Proof.
  revert db. induction cs as [|c cs IH]; intros db Hinv; [exact Hinv|].
  cbn [session]. apply IH. now apply log_balanced_perform.
Qed.

(** Start from the empty database and run any session.  Take an item of
    the table whose purchases were all committed once it existed, such that
    every quantity committed for it is a whole number and these quantities
    add up to at most 2^53.  Then its [current_stock] equals the sum of the
    signed [change_qty] of the stock-log entries naming it: the audit trail
    replays to the stored stock. *)
Theorem current_stock_is_log_total (cs : list call) (it : Item.row) :
  whole_quantities (Item.id it) (2 ^ 53) cs create_tables ->
  purchases_follow_creation (Item.id it) cs create_tables ->
  In it (items (session cs create_tables)) ->
  (Item.current_stock it ==
   sum_change (Item.id it) (stock_log (session cs create_tables)))%Q.
Proof.
  intros _ Hcs Hin.
  assert (Hinit : log_balanced create_tables)
    by (intros j; vm_compute; reflexivity).
  pose proof (log_balanced_session cs create_tables Hinit (Item.id it)) as Hb.
  pose proof (inv_stock _ _ (ledger_inv_session _ cs create_tables
                               (ledger_inv_create_tables _) Hcs)
                it Hin eq_refl) as Hs.
  rewrite Hb. exact Hs.
Qed.

Lemma current_stock_is_log_total_witness :
  (3 == sum_change 1 (stock_log (session bolt_session create_tables)))%Q.
Proof.
  assert (H0 : whole_quantities 1 (2 ^ 53) bolt_session create_tables).
  { split; [vm_compute; repeat split|]. vm_compute. intros H. discriminate H. }
  assert (H1 : purchases_follow_creation 1 bolt_session create_tables).
  { cbn [bolt_session purchases_follow_creation follows_creation].
    repeat split; intros _ _; vm_compute; intros H; discriminate H. }
  assert (H2 : In (Item.mk 1 "Bolt" 3 6 8)
                  (items (session bolt_session create_tables))).
  { vm_compute. left. reflexivity. }
  exact (current_stock_is_log_total bolt_session (Item.mk 1 "Bolt" 3 6 8)
           H0 H1 H2).
Defined.

(** ** Recording sales *)


(** On a connection with no open transaction, a sale for an id that no item
    has leaves the database as it was and returns [(False, "Item not
    found")] when the id is a 64-bit integer, and [False] with the text of
    [OverflowError] when it is not. *)
Theorem add_sale_item_not_found bill_no date item_id quantity rate db :
  in_transaction db = false ->
  get_item_by_id item_id db = None ->
  add_sale bill_no date item_id quantity rate db =
  Returned
    (false,
     if sqlite_int item_id then ItemNotFound
     else ErrorText "Python int too large to convert to SQLite INTEGER")
    db.
Proof.
  intros Hidle Hnone. destruct (sqlite_int item_id) eqn:Hid.
  - now apply add_sale_not_found.
  - now apply add_sale_unbound.
Qed.

Lemma add_sale_item_not_found_witness :
  add_sale "S0001" "2024-01-02" (2 ^ 63) 1 8 bolt_stocked =
  Returned
    (false, ErrorText "Python int too large to convert to SQLite INTEGER")
    bolt_stocked.
Proof.
  assert (H1 : in_transaction bolt_stocked = false)
    by (vm_compute; reflexivity).
  assert (H2 : get_item_by_id (2 ^ 63) bolt_stocked = None)
    by (vm_compute; reflexivity).
  exact (add_sale_item_not_found "S0001" "2024-01-02" (2 ^ 63) 1 8
           bolt_stocked H1 H2).
Defined.

(** [add_purchase] returns [True] exactly when it is called with no
    transaction open and an id that SQLite can hold, and neither
    [add_purchase] nor [add_sale] ever leaves a transaction open: a purchase
    with such an id that failed succeeds when it is called again. *)
Theorem add_purchase_succeeds_iff_idle
        (bill_no date : string) (item_id : Z) (quantity rate : Q)
        (db : database) :
  ((exists db', add_purchase bill_no date item_id quantity rate db =
                  Returned true db')
   <-> in_transaction db = false /\ sqlite_int item_id = true)
  /\ in_transaction
       (state_of (add_purchase bill_no date item_id quantity rate db)) = false
  /\ in_transaction
       (state_of (add_sale bill_no date item_id quantity rate db)) = false
  /\ (sqlite_int item_id = true ->
      exists db'',
        add_purchase bill_no date item_id quantity rate
          (state_of (add_purchase bill_no date item_id quantity rate db)) =
        Returned true db'').
Proof.
  assert (Hidle : in_transaction
            (state_of (add_purchase bill_no date item_id quantity rate db))
            = false).
  { destruct (add_purchase_cases bill_no date item_id quantity rate db)
      as [E|E]; rewrite E; reflexivity. }
  split; [|split; [exact Hidle|split]].
  - split.
    + intros [db' H]. destruct (in_transaction db) eqn:Htx.
      * rewrite add_purchase_pending in H by exact Htx. discriminate.
      * destruct (sqlite_int item_id) eqn:Hid; [now split|].
        rewrite add_purchase_unbound in H by exact Hid. discriminate.
    + intros [Htx Hid]. eexists. now apply add_purchase_idle.
  - destruct (add_sale_cases bill_no date item_id quantity rate db)
      as [[m E]|[it [_ [_ E]]]]; rewrite E; reflexivity.
  - intros Hid. eexists. now apply add_purchase_idle.
Qed.

(** ** The item catalogue *)

Lemma find_app_absent (i : Z) (l : list Item.row) (x : Item.row) :
  ~ In i (map Item.id l) ->
  find (fun it => Item.id it =? i) (l ++ [x]) =
  if Item.id x =? i then Some x else None.
Proof.
  induction l as [|a l IH]; cbn [map app find]; intros H; [reflexivity|].
  destruct (Item.id a =? i) eqn:E.
  - apply Z.eqb_eq in E. exfalso. apply H. now left.
  - apply IH. intros Hin. apply H. now right.
Qed.

Lemma find_app_other (i : Z) (l : list Item.row) (x : Item.row) :
  Item.id x <> i ->
  find (fun it => Item.id it =? i) (l ++ [x]) =
  find (fun it => Item.id it =? i) l.
Proof.
  intros Hx. induction l as [|a l IH]; cbn [app find].
  - apply Z.eqb_neq in Hx. now rewrite Hx.
  - destruct (Item.id a =? i); [reflexivity|exact IH].
Qed.

(** In every database a session from the empty one can reach, [add_item]
    returns [True] exactly when no item has the name.  It then adds one item
    under the next id, with stock 0 and the given prices, which
    [get_item_by_id] finds; every other lookup and every ledger row is as
    before, and a second [add_item] with that name is refused.  When the
    name is taken it returns [False] and changes no row. *)
Theorem add_item_adds_once (cs : list call)
        (item_name : string) (purchase_price sale_price : Q) :
  exists (ok : bool) (db' : database),
    add_item item_name purchase_price sale_price (session cs create_tables) =
      Returned ok db'
    /\ (ok = true <->
        ~ In item_name
             (map Item.item_name (items (session cs create_tables))))
    /\ if ok then
         get_item_by_id (items_seq (session cs create_tables) + 1) db' =
           Some (Item.mk (items_seq (session cs create_tables) + 1)
                         item_name 0 purchase_price sale_price)
         /\ (forall j, j <> items_seq (session cs create_tables) + 1 ->
               get_item_by_id j db' =
               get_item_by_id j (session cs create_tables))
         /\ items_seq db' = items_seq (session cs create_tables) + 1
         /\ purchases db' = purchases (session cs create_tables)
         /\ sales db' = sales (session cs create_tables)
         /\ stock_log db' = stock_log (session cs create_tables)
         /\ (forall p s, exists db'',
               add_item item_name p s db' = Returned false db'')
       else same_rows db' (session cs create_tables).
Proof.
  set (db := session cs create_tables).
  destruct (catalog_inv_session cs create_tables catalog_inv_create_tables)
    as [_ Hbound _ _ _]. fold db in Hbound.
  rewrite add_item_outcome.
  destruct (name_taken item_name (items db)) eqn:Et.
  - exists false, (set_in_transaction true db). split; [reflexivity|].
    split; [|repeat split].
    split; [discriminate|]. intros Hn. exfalso. apply Hn.
    now apply name_taken_In.
  - eexists true, _. split; [reflexivity|]. split.
    + split; [|reflexivity]. intros _ Hin. apply name_taken_In in Hin.
      rewrite Hin in Et. discriminate.
    + unfold get_item_by_id. simpl_db.
      split; [|split; [|repeat split]].
      * rewrite find_app_absent.
        { cbn [Item.id]. now rewrite Z.eqb_refl. }
        intros Hin. apply in_map_iff in Hin. destruct Hin as [it [Hid Hin]].
        apply Hbound in Hin. lia.
      * intros j Hj. apply find_app_other. cbn [Item.id]. congruence.
      * intros p s. rewrite add_item_outcome. simpl_db.
        replace (name_taken item_name (items db ++ _)) with true;
          [eexists; reflexivity|].
        symmetry. apply name_taken_In. rewrite map_app. apply in_or_app.
        right. now left.
Qed.

Lemma update_item_effect
        (item_id : Z) (item_name : string) (purchase_price sale_price : Q)
        (db : database) :
  sqlite_int item_id = true ->
  exists (ok : bool) (db' : database),
    update_item item_id item_name purchase_price sale_price db =
      Returned ok db'
    /\ (ok = false <->
        (exists it, get_item_by_id item_id db = Some it)
        /\ exists other, In other (items db) /\ Item.id other <> item_id
                         /\ Item.item_name other = item_name)
    /\ if ok then
         (forall it, get_item_by_id item_id db = Some it ->
            get_item_by_id item_id db' =
              Some (Item.mk (Item.id it) item_name (Item.current_stock it)
                            purchase_price sale_price))
         /\ (get_item_by_id item_id db = None -> items db' = items db)
         /\ (forall j, j <> item_id ->
               get_item_by_id j db' = get_item_by_id j db)
         /\ items_seq db' = items_seq db
         /\ purchases db' = purchases db /\ sales db' = sales db
         /\ stock_log db' = stock_log db
         /\ in_transaction db' = false
       else same_rows db' db /\ in_transaction db' = true.
Proof.
  intros Hbound. rewrite update_item_outcome, Hbound.
  set (hit := existsb (fun it => Item.id it =? item_id) (items db)).
  set (clash := existsb (fun it => negb (Item.id it =? item_id)
                                   && String.eqb (Item.item_name it) item_name)
                        (items db)).
  assert (Hhit : hit = true <-> exists it, get_item_by_id item_id db = Some it).
  { unfold hit, get_item_by_id. rewrite existsb_exists. split.
    - intros [it [Hin Hid]].
      destruct (find (fun x => Item.id x =? item_id) (items db)) as [y|] eqn:E;
        [now exists y|].
      apply (find_none _ _ E) in Hin. cbn in Hin. congruence.
    - intros [it H]. apply find_some in H. now exists it. }
  assert (Hclash : clash = true <->
            exists other, In other (items db) /\ Item.id other <> item_id
                          /\ Item.item_name other = item_name).
  { unfold clash. rewrite existsb_exists. split.
    - intros [o [Hin H]]. apply andb_true_iff in H. destruct H as [H1 H2].
      apply negb_true_iff, Z.eqb_neq in H1. apply String.eqb_eq in H2.
      now exists o.
    - intros [o [Hin [H1 H2]]]. exists o. split; [exact Hin|].
      apply andb_true_iff. split.
      + now apply negb_true_iff, Z.eqb_neq.
      + now apply String.eqb_eq. }
  destruct (hit && clash) eqn:G.
  - exists false, (set_in_transaction true db). split; [reflexivity|].
    apply andb_true_iff in G. destruct G as [G1 G2].
    split; [|repeat split]. split; [|reflexivity].
    intros _. split; [now apply Hhit | now apply Hclash].
  - eexists true, _. split; [reflexivity|]. split.
    + split; [discriminate|]. intros [H1 H2].
      apply Hhit in H1. apply Hclash in H2. rewrite H1, H2 in G.
      discriminate.
    + unfold get_item_by_id. simpl_db.
      split; [|split; [|split; [|repeat split]]].
      * intros it Hit. rewrite find_map_on_item by reflexivity.
        rewrite Hit. cbn [option_map]. unfold on_item.
        apply find_some in Hit. destruct Hit as [_ Hit]. now rewrite Hit.
      * intros Hnone. now apply map_on_item_absent.
      * intros j Hj. rewrite find_map_on_item by reflexivity.
        destruct (find (fun x => Item.id x =? j) (items db)) as [x|] eqn:Hx;
          [|reflexivity].
        cbn [option_map]. unfold on_item.
        apply find_some in Hx. destruct Hx as [_ Hx]. apply Z.eqb_eq in Hx.
        destruct (Item.id x =? item_id) eqn:E'; [|reflexivity].
        apply Z.eqb_eq in E'. congruence.
Qed.

(** [update_item] never touches stock or ledger rows.  Called with an id
    that SQLite can hold: when an item has the id and no other item has the
    new name, it returns [True] and the item keeps its id and
    [current_stock] and takes the new name and prices; when no item has the
    id it also returns [True] and changes nothing; every other lookup is as
    before; when an item has the id and another item has the new name it
    returns [False], changes no row and leaves a transaction open.  Called
    with any other id it raises [OverflowError], changes no row and leaves a
    transaction open. *)
Theorem update_item_keeps_stock
        (item_id : Z) (item_name : string) (purchase_price sale_price : Q)
        (db : database) :
  (sqlite_int item_id = false ->
   update_item item_id item_name purchase_price sale_price db =
   Raised (OverflowError "Python int too large to convert to SQLite INTEGER")
          (set_in_transaction true db))
  /\ (sqlite_int item_id = true ->
      exists (ok : bool) (db' : database),
        update_item item_id item_name purchase_price sale_price db =
          Returned ok db'
        /\ (ok = false <->
            (exists it, get_item_by_id item_id db = Some it)
            /\ exists other, In other (items db) /\ Item.id other <> item_id
                             /\ Item.item_name other = item_name)
        /\ if ok then
             (forall it, get_item_by_id item_id db = Some it ->
                get_item_by_id item_id db' =
                  Some (Item.mk (Item.id it) item_name (Item.current_stock it)
                                purchase_price sale_price))
             /\ (get_item_by_id item_id db = None -> items db' = items db)
             /\ (forall j, j <> item_id ->
                   get_item_by_id j db' = get_item_by_id j db)
             /\ items_seq db' = items_seq db
             /\ purchases db' = purchases db /\ sales db' = sales db
             /\ stock_log db' = stock_log db
             /\ in_transaction db' = false
           else same_rows db' db /\ in_transaction db' = true).
Proof.
  split.
  - intros Hid. now rewrite update_item_outcome, Hid.
  - apply update_item_effect.
Qed.

Lemma update_item_keeps_stock_witness :
  update_item (2 ^ 63) "Nut" 1 2 bolt_stocked =
  Raised (OverflowError "Python int too large to convert to SQLite INTEGER")
         (set_in_transaction true bolt_stocked).
Proof.
  assert (H : sqlite_int (2 ^ 63) = false) by reflexivity.
  exact (proj1 (update_item_keeps_stock (2 ^ 63) "Nut" 1 2 bolt_stocked) H).
Defined.

(** ** Last and next bill numbers *)

Lemma last_by_id_snoc (l : list Bill.row) (x : Bill.row) :
  last_by_id (l ++ [x]) =
  match last_by_id l with
  | None => Some x
  | Some a => if Bill.id a <? Bill.id x then Some x else Some a
  end.
Proof.
  unfold last_by_id. rewrite fold_left_app. cbn [fold_left].
  destruct (fold_left _ l None); reflexivity.
Qed.

Lemma last_by_id_In (l : list Bill.row) (a : Bill.row) :
  last_by_id l = Some a -> In a l.
Proof.
  revert a. induction l as [|x l IH] using rev_ind; intros a H.
  - discriminate.
  - rewrite last_by_id_snoc in H. apply in_or_app.
    destruct (last_by_id l) as [b|].
    + destruct (Bill.id b <? Bill.id x).
      * injection H as <-. right. now left.
      * injection H as <-. left. now apply IH.
    + injection H as <-. right. now left.
Qed.

Lemma In_first_ids (n : nat) (z : Z) :
  In z (first_ids n) <-> 1 <= z <= Z.of_nat n.
Proof.
  unfold first_ids. rewrite in_map_iff. split.
  - intros [k [<- Hk]]. apply in_seq in Hk. lia.
  - intros Hz. exists (Z.to_nat z). split; [lia|]. apply in_seq. lia.
Qed.

(** In a table whose ids are 1, ..., n in order, the row with the greatest
    id is the last row. *)
Lemma last_by_id_last (l : list Bill.row) :
  map Bill.id l = first_ids (List.length l) ->
  last_by_id l = match rev l with b :: _ => Some b | [] => None end.
Proof.
  destruct l as [|x0 l0] using rev_ind; [reflexivity|]. clear IHl0.
  intros Hids. rewrite rev_app_distr. cbn [rev app].
  rewrite last_by_id_snoc.
  destruct (last_by_id l0) as [a|] eqn:Ea; [|reflexivity].
  apply last_by_id_In in Ea.
  rewrite map_app, length_snoc, first_ids_snoc in Hids. cbn [map] in Hids.
  apply app_inj_tail in Hids. destruct Hids as [Hl Hx].
  assert (Ha : In (Bill.id a) (first_ids (List.length l0)))
    by (rewrite <- Hl; now apply in_map).
  apply In_first_ids in Ha.
  replace (Bill.id a <? Bill.id x0) with true; [reflexivity|].
  symmetry. apply Z.ltb_lt. lia.
Qed.

(** Over every session from the empty database, ORDER BY id DESC LIMIT 1
    is the row inserted last: [get_last_purchase_bill_no] is the bill number
    of the last purchase row, "P0000" when there is none, and
    [get_last_sale_bill_no] that of the last sale row, "S0000" when there is
    none.  So right after an [add_purchase] that returned [True] the last
    purchase bill number is the one it was called with. *)
Theorem last_bill_no_is_latest (cs : list call) :
  get_last_purchase_bill_no (session cs create_tables) =
    match rev (purchases (session cs create_tables)) with
    | b :: _ => Bill.bill_no b
    | [] => "P0000"
    end
  /\ get_last_sale_bill_no (session cs create_tables) =
       match rev (sales (session cs create_tables)) with
       | b :: _ => Bill.bill_no b
       | [] => "S0000"
       end
  /\ (forall bill_no date item_id quantity rate db',
        add_purchase bill_no date item_id quantity rate
                     (session cs create_tables) = Returned true db' ->
        get_last_purchase_bill_no db' = bill_no).
Proof.
  destruct (ledger_rows_inv_session cs create_tables
              ledger_rows_inv_create_tables)
    as [Hp Hps Hs _ _ _ _ _ _].
  unfold get_last_purchase_bill_no, get_last_sale_bill_no.
  rewrite (last_by_id_last _ Hp), (last_by_id_last _ Hs).
  split; [destruct (rev _); reflexivity|].
  split; [destruct (rev _); reflexivity|].
  intros b d i q r db' H.
  destruct (add_purchase_cases b d i q r (session cs create_tables))
    as [E|E]; rewrite E in H; [discriminate|].
  injection H as <-. simpl_db. rewrite last_by_id_last.
  - rewrite rev_app_distr. reflexivity.
  - rewrite map_app, length_snoc, first_ids_snoc, Hp, Hps. reflexivity.
Qed.

Lemma decimal_length_small (k : nat) :
  Z.of_nat k <= 10000 ->
  (String.length (decimal (N.of_nat k)) <= int_max_str_digits)%nat.
Proof.
  intros Hk.
  assert (Hall : forallb (fun j => String.length (decimal (N.of_nat j)) <=? 5)%nat
                         (seq 0 (Z.to_nat 10001)) = true)
    by (vm_compute; reflexivity).
  rewrite forallb_forall in Hall.
  assert (Hin : In k (seq 0 (Z.to_nat 10001))) by (apply in_seq; lia).
  apply Hall in Hin. apply Nat.leb_le in Hin.
  unfold int_max_str_digits. lia.
Qed.

Lemma proposed_after_numbered (k : nat) (db : database) :
  numbered k db -> Z.of_nat k < 10000 ->
  update_entry_form "Purchase Entry" db = purchase_label (S k).
Proof.
  intros [Hidle [Hlen [Hids [Hseq Hbills]]]] Hk.
  unfold update_entry_form. cbn [String.eqb Ascii.eqb Bool.eqb].
  unfold get_last_purchase_bill_no. rewrite <- Hlen in Hids.
  rewrite (last_by_id_last _ Hids).
  destruct k as [|k].
  - destruct (purchases db); [|discriminate]. vm_compute. reflexivity.
  - assert (Hlast : match rev (purchases db) with
                    | b :: _ => Some (Bill.bill_no b)
                    | [] => None
                    end = Some (purchase_label (S k))).
    { rewrite <- (rev_involutive (purchases db)) in Hbills.
      destruct (rev (purchases db)) as [|b t].
      - cbn in Hlen. rewrite <- (rev_involutive (purchases db)) in Hlen.
        destruct (rev (purchases db)); discriminate.
      - cbn [rev] in Hbills. rewrite map_app, seq_S, map_app in Hbills.
        cbn [map] in Hbills. apply app_inj_tail in Hbills.
        destruct Hbills as [_ ->]. reflexivity. }
    destruct (rev (purchases db)) as [|b t]; [discriminate|].
    injection Hlast as ->. unfold purchase_label at 1.
    rewrite get_next_bill_no_successor.
    + unfold purchase_label. cbn [append].
      replace (N.of_nat (S k) + 1)%N with (N.of_nat (S (S k))) by lia.
      reflexivity.
    + apply decimal_length_small. lia.
    + replace (N.of_nat (S k) + 1)%N with (N.of_nat (S (S k))) by lia.
      apply decimal_length_small. lia.
Qed.

Lemma save_purchases_numbered
      (entries : list (string * Z * Q * Q)) (k : nat) (db : database) :
  numbered k db -> Forall entry_id_fits entries ->
  Z.of_nat (k + List.length entries) < 10000 ->
  numbered (k + List.length entries) (save_purchases_as_proposed entries db).
Proof.
  revert k db. induction entries as [|[[[d i] q] r] rest IH];
    intros k db Hn Hids' Hk; cbn [save_purchases_as_proposed List.length] in *.
  - now rewrite Nat.add_0_r.
  - replace (k + S (List.length rest))%nat
      with (S k + List.length rest)%nat by lia.
    inversion Hids' as [|x xs Hi Hrest]; subst.
    apply IH; [|exact Hrest|lia].
    rewrite (proposed_after_numbered k db Hn) by lia.
    destruct Hn as [Hidle [Hlen [Hids [Hseq Hbills]]]].
    rewrite add_purchase_idle by assumption. cbn [state_of].
    unfold numbered. simpl_db.
    split; [reflexivity|]. split; [rewrite length_snoc; lia|].
    split; [rewrite map_app, first_ids_snoc, Hids, Hseq; reflexivity|].
    split; [lia|].
    rewrite map_app, seq_S, map_app, Hbills. reflexivity.
Qed.

(** Start with no purchase rows and no open transaction, and record up to
    9998 purchases one after the other, each for an id that SQLite can hold
    and under the bill number the entry form proposes.  Then the purchases
    carry the bill numbers "P0001", "P0002", ... in order, and the form next
    proposes the number after the last. *)
Theorem proposed_bill_numbers_run_in_sequence
        (entries : list (string * Z * Q * Q)) (db : database) :
  purchases db = [] -> purchases_seq db = 0 -> in_transaction db = false ->
  Forall entry_id_fits entries ->
  Z.of_nat (List.length entries) < 9999 ->
  map Bill.bill_no (purchases (save_purchases_as_proposed entries db)) =
    map purchase_label (seq 1 (List.length entries))
  /\ update_entry_form "Purchase Entry"
       (save_purchases_as_proposed entries db) =
     purchase_label (S (List.length entries)).
Proof.
  intros Hp Hs Hidle Hfit Hlen.
  assert (H0 : numbered 0 db).
  { unfold numbered. rewrite Hp, Hs. repeat split. exact Hidle. }
  pose proof (save_purchases_numbered entries 0 db H0 Hfit) as Hn.
  cbn [Nat.add] in Hn. specialize (Hn ltac:(lia)).
  split.
  - apply Hn.
  - apply proposed_after_numbered; [exact Hn|lia].
Qed.

Lemma proposed_bill_numbers_run_in_sequence_witness :
  map Bill.bill_no
      (purchases
         (save_purchases_as_proposed
            two_entries
            (state_of (add_item "Bolt" 10 15 create_tables)))) =
    ["P0001"; "P0002"]
  /\ update_entry_form "Purchase Entry"
       (save_purchases_as_proposed
          two_entries
          (state_of (add_item "Bolt" 10 15 create_tables))) = "P0003".
Proof.
  assert (H1 : purchases (state_of (add_item "Bolt" 10 15 create_tables)) = [])
    by reflexivity.
  assert (H2 : purchases_seq (state_of (add_item "Bolt" 10 15 create_tables))
               = 0) by reflexivity.
  assert (H3 : in_transaction (state_of (add_item "Bolt" 10 15 create_tables))
               = false) by reflexivity.
  assert (H4 : Z.of_nat
                 (List.length
                    two_entries)
               < 9999) by (cbn; lia).
  assert (H5 : Forall entry_id_fits two_entries) by (repeat constructor).
  exact (proposed_bill_numbers_run_in_sequence _ _ H1 H2 H3 H5 H4).
Defined.

(** ** LIKE and the two searches *)

Lemma like_percent (p s : string) :
  like_chars (String "%" p) s =
  like_chars p s
  || match s with
     | EmptyString => false
     | String _ t => like_chars (String "%" p) t
     end.
Proof. destruct s; reflexivity. Qed.

Lemma like_char (c : ascii) (p : string) (d : ascii) (t : string) :
  Ascii.eqb c "%" = false ->
  like_chars (String c p) (String d t) =
  (Ascii.eqb c "_" || Ascii.eqb (to_lower c) (to_lower d)) && like_chars p t.
Proof. intros H. cbn [like_chars]. now rewrite H. Qed.

Lemma like_any (s : string) : like_chars "%" s = true.
Proof.
  induction s as [|d t IH]; rewrite like_percent; [reflexivity|].
  rewrite IH. apply orb_true_r.
Qed.

Lemma like_skip (p a s : string) :
  like_chars (String "%" p) s = true ->
  like_chars (String "%" p) (a ++ s) = true.
Proof.
  intros H. induction a as [|d a IH]; [exact H|].
  cbn [append]. rewrite like_percent, IH. apply orb_true_r.
Qed.

Lemma like_fold_prefix (term found rest : string) :
  lower_string found = lower_string term ->
  like_chars (term ++ "%") (found ++ rest) = true.
Proof.
  revert found. induction term as [|c term IH]; intros found Hf.
  - destruct found; [|discriminate]. cbn [append]. apply like_any.
  - destruct found as [|d found]; [discriminate|].
    cbn [lower_string] in Hf. injection Hf as Hc Hf.
    cbn [append]. destruct (Ascii.eqb c "%") eqn:Ec.
    + apply Ascii.eqb_eq in Ec. subst c.
      rewrite like_percent. apply orb_true_iff. right.
      rewrite like_percent. apply orb_true_iff. left. now apply IH.
    + rewrite like_char by exact Ec. rewrite (IH found Hf), Hc.
      rewrite Ascii.eqb_refl. now rewrite orb_true_r.
Qed.

Lemma c_string_app (a b : string) :
  no_nul a -> c_string (a ++ b) = (a ++ c_string b)%string.
Proof.
  unfold no_nul. induction a as [|c a IH]; intros H; [reflexivity|].
  cbn [append c_string] in *. destruct (Ascii.eqb c Ascii.zero);
    [discriminate|].
  injection H as H. now rewrite IH.
Qed.

Lemma to_lower_zero (c : ascii) :
  Ascii.eqb (to_lower c) Ascii.zero = Ascii.eqb c Ascii.zero.
Proof. destruct c as [[] [] [] [] [] [] [] []]; reflexivity. Qed.

Lemma no_nul_lower (a b : string) :
  lower_string a = lower_string b -> no_nul a -> no_nul b.
Proof.
  unfold no_nul. revert b. induction a as [|c a IH]; intros [|d b] H Ha;
    try discriminate; [reflexivity|].
  cbn [lower_string] in H. injection H as Hc H.
  cbn [c_string] in *. rewrite <- to_lower_zero, <- Hc, to_lower_zero.
  destruct (Ascii.eqb c Ascii.zero); [discriminate|].
  injection Ha as Ha. now rewrite (IH b H Ha).
Qed.

(** [LIKE '%term%'] accepts every string that contains the term before any
    NUL character, whatever the case of its ASCII letters and whatever the
    characters of the term (a [%] or [_] in the term also stands for
    itself). *)
Lemma like_finds_substring_lemma (term found before rest : string) :
  no_nul before -> no_nul found ->
  lower_string found = lower_string term ->
  like (contains_pattern term) (before ++ found ++ rest) = true.
Proof.
  intros Hb Hfound Hf. pose proof (no_nul_lower _ _ Hf Hfound) as Hterm.
  unfold like, contains_pattern.
  rewrite (c_string_app before _ Hb), (c_string_app found _ Hfound).
  change ("%" ++ term ++ "%")%string with (String "%" (term ++ "%")).
  cbn [c_string]. replace (Ascii.eqb "%" Ascii.zero) with false by reflexivity.
  rewrite (c_string_app term _ Hterm).
  change (c_string "%") with "%".
  apply like_skip. rewrite like_percent. apply orb_true_iff. left.
  now apply like_fold_prefix.
Qed.

Lemma filter_all {A} (f : A -> bool) (l : list A) :
  (forall x, f x = true) -> filter f l = l.
Proof.
  intros H. induction l as [|x l IH]; [reflexivity|].
  cbn [filter]. now rewrite H, IH.
Qed.

Lemma like_empty_term (s : string) : like (contains_pattern "") s = true.
Proof.
  unfold like, contains_pattern. cbn [append].
  change (c_string "%%") with "%%".
  generalize (c_string s). clear s. intros s. rewrite like_percent.
  destruct s as [|d t]; [reflexivity|]. now rewrite like_any.
Qed.

(** With an empty search term nothing is filtered out. *)
Lemma search_items_empty_term (db : database) :
  search_items "" db = get_all_items db.
Proof.
  unfold search_items, get_all_items. rewrite filter_all; [reflexivity|].
  intros r. apply like_empty_term.
Qed.

(** ** The item listing, row by row *)

Lemma flat_map_flat_map {A B C} (f : A -> list B) (g : B -> list C)
      (l : list A) :
  flat_map g (flat_map f l) = flat_map (fun x => flat_map g (f x)) l.
Proof.
  induction l as [|x l IH]; [reflexivity|].
  cbn [flat_map]. now rewrite flat_map_app, IH.
Qed.

Lemma flat_map_of_map {A B C} (g : A -> B) (f : B -> list C) (l : list A) :
  flat_map f (map g l) = flat_map (fun x => f (g x)) l.
Proof.
  induction l as [|x l IH]; [reflexivity|]. cbn [map flat_map].
  now rewrite IH.
Qed.

Lemma left_join_opt_rows {A B} (on : A -> B -> bool) (l : list A)
      (r : list B) :
  left_join on l r =
  flat_map (fun a => map (pair a) (opt_rows (filter (on a) r))) l.
Proof.
  unfold left_join. apply flat_map_ext. intros a. unfold opt_rows.
  destruct (filter (on a) r) as [|b m]; [reflexivity|].
  now rewrite map_map.
Qed.

Lemma items_purchases_sales_by_item (db : database) :
  items_purchases_sales db = flat_map (item_rows db) (items db).
Proof.
  unfold items_purchases_sales. rewrite !left_join_opt_rows.
  rewrite flat_map_flat_map. apply flat_map_ext. intros i.
  rewrite flat_map_of_map. reflexivity.
Qed.

Lemma opt_rows_nonempty {B} (l : list B) : opt_rows l <> [].
Proof. destruct l; discriminate. Qed.

Lemma item_rows_item (db : database) (i : Item.row) (r : joined) :
  In r (item_rows db i) -> fst (fst r) = i.
Proof.
  unfold item_rows. intros H. apply in_flat_map in H.
  destruct H as [op [_ Hr]]. apply in_map_iff in Hr.
  destruct Hr as [os [<- _]]. reflexivity.
Qed.

Lemma item_rows_nonempty (db : database) (i : Item.row) :
  item_rows db i <> [].
Proof.
  unfold item_rows.
  destruct (opt_rows (filter (fun p => Item.id i =? Bill.item_id p)
                             (purchases db))) as [|op ops] eqn:E.
  - now apply opt_rows_nonempty in E.
  - cbn [flat_map]. intros H. apply app_eq_nil in H. destruct H as [H _].
    apply map_eq_nil in H. now apply opt_rows_nonempty in H.
Qed.

Lemma aggregate_item_rows (db : database) (i : Item.row) :
  aggregate (item_rows db i) = [listing_row db i].
Proof.
  pose proof (item_rows_nonempty db i) as Hne.
  pose proof (item_rows_item db i) as Hit.
  unfold listing_row. destruct (item_rows db i) as [|[[j op] os] rest];
    [contradiction|].
  assert (Hj : j = i) by (apply (Hit (j, op, os)); now left).
  subst j. reflexivity.
Qed.

(** The keys of a block of rows that all carry key [k], in front of rows
    that do not. *)
Lemma nodup_block (blk rest : list Z) (k : Z) :
  blk <> [] -> (forall x, In x blk -> x = k) -> ~ In k rest ->
  nodup Z.eq_dec (blk ++ rest) = k :: nodup Z.eq_dec rest.
Proof.
  induction blk as [|x blk IH]; intros Hne Hall Hnin; [contradiction|].
  assert (Hx : x = k) by (apply Hall; now left). subst x.
  cbn [app nodup].
  destruct (in_dec Z.eq_dec k (blk ++ rest)) as [Hin|Hout].
  - destruct blk as [|y blk].
    + cbn [app] in Hin. contradiction.
    + apply IH; [discriminate| |exact Hnin].
      intros z Hz. apply Hall. now right.
  - destruct blk as [|y blk]; [reflexivity|].
    exfalso. apply Hout. left. apply Hall. right. now left.
Qed.

Lemma keys_of_rows (db : database) (its : list Item.row) (k : Z) :
  In k (map (fun r : joined => Item.id (fst (fst r)))
            (flat_map (item_rows db) its)) ->
  In k (map Item.id its).
Proof.
  intros H. apply in_map_iff in H. destruct H as [r [<- Hr]].
  apply in_flat_map in Hr. destruct Hr as [i [Hi Hr]].
  apply item_rows_item in Hr. rewrite Hr. now apply in_map.
Qed.

Lemma nodup_keys (db : database) (its : list Item.row) :
  NoDup (map Item.id its) ->
  nodup Z.eq_dec
        (map (fun r : joined => Item.id (fst (fst r)))
             (flat_map (item_rows db) its)) =
  map Item.id its.
Proof.
  induction its as [|i its IH]; intros Hnd; [reflexivity|].
  inversion Hnd as [|x xs Hnin Hnd']; subst.
  cbn [flat_map map]. rewrite map_app.
  rewrite (nodup_block _ _ (Item.id i)).
  - now rewrite IH.
  - intros H. apply map_eq_nil in H. now apply item_rows_nonempty in H.
  - intros x Hx. apply in_map_iff in Hx. destruct Hx as [r [<- Hr]].
    apply item_rows_item in Hr. now rewrite Hr.
  - intros H. apply keys_of_rows in H. contradiction.
Qed.

Lemma filter_all_in {A} (f : A -> bool) (l : list A) :
  (forall x, In x l -> f x = true) -> filter f l = l.
Proof.
  induction l as [|x l IH]; intros H; [reflexivity|]. cbn [filter].
  rewrite (H x) by now left. f_equal. apply IH. intros y Hy. apply H.
  now right.
Qed.

Lemma filter_none_in {A} (f : A -> bool) (l : list A) :
  (forall x, In x l -> f x = false) -> filter f l = [].
Proof.
  induction l as [|x l IH]; intros H; [reflexivity|]. cbn [filter].
  rewrite (H x) by now left. apply IH. intros y Hy. apply H. now right.
Qed.

(** Filtering joined rows by a condition on the item filters the items. *)
Lemma filter_rows_by_item (db : database) (P : Item.row -> bool)
      (its : list Item.row) :
  filter (fun r : joined => P (fst (fst r))) (flat_map (item_rows db) its) =
  flat_map (item_rows db) (filter P its).
Proof.
  induction its as [|i its IH]; [reflexivity|].
  cbn [flat_map filter]. rewrite filter_app, IH.
  destruct (P i) eqn:E; cbn [flat_map]; f_equal.
  - apply filter_all_in. intros r Hr. apply item_rows_item in Hr.
    now rewrite Hr.
  - rewrite filter_none_in; [reflexivity|]. intros r Hr.
    apply item_rows_item in Hr. now rewrite Hr.
Qed.

Lemma filter_id_singleton (its : list Item.row) (i : Item.row) :
  NoDup (map Item.id its) -> In i its ->
  filter (fun j => Item.id j =? Item.id i) its = [i].
Proof.
  induction its as [|a its IH]; intros Hnd Hin; [destruct Hin|].
  inversion Hnd as [|x xs Hnin Hnd']; subst. cbn [filter].
  destruct Hin as [->|Hin].
  - rewrite Z.eqb_refl. f_equal. apply filter_none_in. intros j Hj.
    apply Z.eqb_neq. intros Heq. apply Hnin. rewrite <- Heq.
    now apply in_map.
  - destruct (Item.id a =? Item.id i) eqn:E; [|now apply IH].
    apply Z.eqb_eq in E. exfalso. apply Hnin. rewrite E. now apply in_map.
Qed.

Lemma group_by_items (db : database) (its : list Item.row) :
  NoDup (map Item.id its) ->
  group_by (fun r : joined => Item.id (fst (fst r)))
           (flat_map (item_rows db) its) =
  map (item_rows db) its.
Proof.
  intros Hnd. unfold group_by. rewrite (nodup_keys db its Hnd), map_map.
  apply map_ext_in. intros i Hi.
  rewrite (filter_rows_by_item db (fun j => Item.id j =? Item.id i)).
  rewrite (filter_id_singleton its i Hnd Hi). cbn [flat_map].
  apply app_nil_r.
Qed.

(** The listing over the joined rows of items with distinct ids: one row
    per item, sorted by name. *)
Lemma select_listing_items (db : database) (its : list Item.row) :
  NoDup (map Item.id its) ->
  select_listing (flat_map (item_rows db) its) =
  sort_by by_name (map (listing_row db) its).
Proof.
  intros Hnd. unfold select_listing. rewrite (group_by_items db its Hnd).
  rewrite flat_map_of_map. f_equal.
  induction its as [|i its IH]; [reflexivity|]. cbn [flat_map map].
  inversion Hnd; subst. rewrite aggregate_item_rows, IH by assumption.
  reflexivity.
Qed.

Lemma not_null_app (a b : list (option Q)) :
  not_null (a ++ b) = (not_null a ++ not_null b)%list.
Proof. apply flat_map_app. Qed.

Lemma qsum_nil : qsum [] = 0%Q.
Proof. reflexivity. Qed.

Lemma qsum_cons (x : Q) (l : list Q) : qsum (x :: l) = (x + qsum l)%Q.
Proof. reflexivity. Qed.

Lemma not_null_nil : not_null [] = [].
Proof. reflexivity. Qed.

Lemma not_null_cons (x : option Q) (col : list (option Q)) :
  not_null (x :: col) =
  ((match x with Some v => [v] | None => [] end) ++ not_null col)%list.
Proof. reflexivity. Qed.

Lemma qsum_app (a b : list Q) : (qsum (a ++ b) == qsum a + qsum b)%Q.
Proof.
  induction a as [|x a IH]; cbn [app].
  - rewrite qsum_nil. ring.
  - rewrite !qsum_cons, IH. ring.
Qed.

Lemma qsum_cons_option (x : option Q) (col : list (option Q)) :
  (qsum (not_null (x :: col)) == null_as_zero x + qsum (not_null col))%Q.
Proof.
  rewrite not_null_cons, qsum_app.
  destruct x; cbn [null_as_zero]; rewrite ?qsum_cons, ?qsum_nil; ring.
Qed.

Lemma qsum_constant {A} (x : option Q) (m : list A) :
  (qsum (not_null (map (fun _ => x) m)) ==
   inject_Z (Z.of_nat (List.length m)) * null_as_zero x)%Q.
Proof.
  induction m as [|a m IH].
  - cbn [map List.length Z.of_nat]. rewrite not_null_nil, qsum_nil.
    change (inject_Z 0) with 0%Q. ring.
  - cbn [map List.length]. rewrite qsum_cons_option, IH.
    rewrite Nat2Z.inj_succ, <- Z.add_1_r, inject_Z_plus.
    change (inject_Z 1) with 1%Q. ring.
Qed.

Lemma coalesce_fold (column : list (option Q)) (acc : option Q) :
  (coalesce
     (fold_left (fun acc x =>
                   match x, acc with
                   | None, _ => acc
                   | Some v, None => Some v
                   | Some v, Some a => Some (a + v)%Q
                   end) column acc) 0
   == coalesce acc 0 + qsum (not_null column))%Q.
Proof.
  revert acc. induction column as [|x column IH]; intros acc.
  - cbn [fold_left]. rewrite not_null_nil, qsum_nil. ring.
  - cbn [fold_left]. rewrite IH, qsum_cons_option.
    destruct x as [v|]; destruct acc as [a|];
      cbn [coalesce null_as_zero]; ring.
Qed.

(** [COALESCE(SUM(column), 0)] is the sum of the values that are not NULL. *)
Lemma coalesce_sql_sum (column : list (option Q)) :
  (coalesce (sql_sum column) 0 == qsum (not_null column))%Q.
Proof. unfold sql_sum. rewrite coalesce_fold. cbn [coalesce]. ring. Qed.

(** A column that repeats, for each left row, one value per right row. *)
Lemma qsum_repeated {A B} (f : A -> option Q) (m : list B) (l : list A) :
  (qsum (not_null (flat_map (fun a => map (fun _ => f a) m) l)) ==
   inject_Z (Z.of_nat (List.length m)) * qsum (not_null (map f l)))%Q.
Proof.
  induction l as [|a l IH].
  - cbn [flat_map map]. rewrite not_null_nil, qsum_nil. ring.
  - cbn [flat_map map]. rewrite not_null_app, qsum_app, IH, qsum_constant.
    rewrite qsum_cons_option. ring.
Qed.

(** A column that repeats, for each left row, the whole right column. *)
Lemma qsum_copies {A} (col : list (option Q)) (l : list A) :
  (qsum (not_null (flat_map (fun _ => col) l)) ==
   inject_Z (Z.of_nat (List.length l)) * qsum (not_null col))%Q.
Proof.
  induction l as [|a l IH].
  - cbn [flat_map List.length Z.of_nat]. rewrite not_null_nil, qsum_nil.
    change (inject_Z 0) with 0%Q. ring.
  - cbn [flat_map List.length]. rewrite not_null_app, qsum_app, IH.
    rewrite Nat2Z.inj_succ, <- Z.add_1_r, inject_Z_plus.
    change (inject_Z 1) with 1%Q. ring.
Qed.

Lemma qsum_opt_rows (l : list Bill.row) :
  (qsum (not_null (map (option_map Bill.quantity) (opt_rows l))) ==
   qsum (map Bill.quantity l))%Q.
Proof.
  destruct l as [|b l].
  - cbn [opt_rows map option_map]. rewrite qsum_cons_option.
    rewrite not_null_nil, !qsum_nil. cbn [null_as_zero]. ring.
  - unfold opt_rows. rewrite map_map.
    generalize (b :: l). intros m. induction m as [|x m IH];
      [reflexivity|].
    cbn [map]. rewrite qsum_cons_option, qsum_cons.
    cbn [option_map null_as_zero]. rewrite IH. reflexivity.
Qed.

Lemma length_opt_rows {B} (l : list B) :
  Z.of_nat (List.length (opt_rows l)) = Z.max 1 (Z.of_nat (List.length l)).
Proof.
  destruct l as [|b l]; [reflexivity|].
  unfold opt_rows. rewrite length_map. cbn [List.length]. lia.
Qed.

Lemma filter_item_id_sym (i : Z) (l : list Bill.row) :
  filter (fun b => i =? Bill.item_id b) l =
  filter (fun b => Bill.item_id b =? i) l.
Proof. apply filter_ext. intros b. apply Z.eqb_sym. Qed.

(** What the listing reports for one item: the sum of its purchase
    quantities once per sale row of the item (once when it has none), and
    the sum of its sale quantities once per purchase row (once when it has
    none). *)
Lemma listing_row_sums (db : database) (i : Item.row) :
  (Listing.purchased_qty (listing_row db i) ==
   inject_Z (Z.max 1 (count_bills (Item.id i) (sales db)))
   * sum_quantity (Item.id i) (purchases db))%Q
  /\ (Listing.sold_qty (listing_row db i) ==
      inject_Z (Z.max 1 (count_bills (Item.id i) (purchases db)))
      * sum_quantity (Item.id i) (sales db))%Q.
Proof.
  unfold listing_row. cbn [Listing.purchased_qty Listing.sold_qty].
  rewrite !coalesce_sql_sum. unfold item_rows, count_bills, sum_quantity.
  rewrite <- !filter_item_id_sym.
  set (ps := filter (fun b => Item.id i =? Bill.item_id b) (purchases db)).
  set (ss := filter (fun b => Item.id i =? Bill.item_id b) (sales db)).
  rewrite <- !length_opt_rows. split.
  - rewrite flat_map_concat_map, concat_map, map_map, <- flat_map_concat_map.
    erewrite flat_map_ext.
    2:{ intros op. rewrite map_map. cbn [purchase_quantity fst snd].
        reflexivity. }
    rewrite (qsum_repeated (option_map Bill.quantity)).
    now rewrite qsum_opt_rows.
  - rewrite flat_map_concat_map, concat_map, map_map, <- flat_map_concat_map.
    erewrite flat_map_ext.
    2:{ intros op. rewrite map_map. cbn [sale_quantity snd].
        rewrite <- (map_map (fun x => x) (option_map Bill.quantity)).
        rewrite map_id. reflexivity. }
    rewrite qsum_copies. now rewrite qsum_opt_rows.
Qed.

Section FilterSorted.
Context {A : Type} (before : A -> A -> bool) (keep : A -> bool).
Hypothesis before_total :
  forall x y, before x y = false -> before y x = true.
Hypothesis before_trans :
  forall x y z, before x y = true -> before y z = true -> before x z = true.

Lemma insert_by_first (x : A) (l : list A) :
  (forall z, In z l -> before x z = true) -> insert_by before x l = x :: l.
Proof.
  destruct l as [|y t]; [reflexivity|]. intros H. cbn [insert_by].
  now rewrite (H y) by now left.
Qed.

Lemma filter_insert_by (x : A) (l : list A) :
  StronglySorted (fun a b => before a b = true) l ->
  filter keep (insert_by before x l) =
  if keep x then insert_by before x (filter keep l) else filter keep l.
Proof.
  induction l as [|y t IH]; intros Hs.
  - cbn [insert_by filter]. destruct (keep x); reflexivity.
  - apply StronglySorted_inv in Hs. destruct Hs as [Hs Hy].
    cbn [insert_by]. destruct (before x y) eqn:Exy.
    + cbn [filter]. destruct (keep x); [|reflexivity].
      rewrite insert_by_first; [reflexivity|].
      intros z Hz. destruct (keep y).
      * destruct Hz as [<-|Hz]; [exact Exy|].
        apply filter_In in Hz. destruct Hz as [Hz _].
        rewrite Forall_forall in Hy.
        now apply before_trans with (y := y); [|apply Hy].
      * apply filter_In in Hz. destruct Hz as [Hz _].
        rewrite Forall_forall in Hy.
        now apply before_trans with (y := y); [|apply Hy].
    + cbn [filter]. rewrite (IH Hs).
      destruct (keep y), (keep x); try reflexivity.
      cbn [insert_by]. now rewrite Exy.
Qed.

(** Filtering a sorted list is sorting the filtered list. *)
Lemma filter_sort_by (l : list A) :
  filter keep (sort_by before l) = sort_by before (filter keep l).
Proof.
  induction l as [|x l IH]; [reflexivity|].
  cbn [sort_by fold_right]. fold (sort_by before l).
  rewrite filter_insert_by.
  - cbn [filter]. rewrite IH. destruct (keep x); reflexivity.
  - eapply StronglySorted_weaken;
      [|apply (sort_by_stable before before_total before_trans
                 (fun _ _ => True)); apply StronglySorted_any].
    intros a b [H _]. exact H.
Qed.
End FilterSorted.

Lemma by_name_total (a b : Listing.row) :
  by_name a b = false -> by_name b a = true.
Proof.
  unfold by_name. intros H.
  destruct (String.leb_total (Listing.item_name a) (Listing.item_name b))
    as [E|E]; [rewrite E in H; discriminate | exact E].
Qed.

Lemma by_name_trans (a b c : Listing.row) :
  by_name a b = true -> by_name b c = true -> by_name a c = true.
Proof. unfold by_name. apply string_leb_trans. Qed.

Lemma filter_map_commute {A B} (g : A -> B) (f : B -> bool) (l : list A) :
  filter f (map g l) = map g (filter (fun x => f (g x)) l).
Proof.
  induction l as [|x l IH]; [reflexivity|]. cbn [map filter].
  rewrite IH. destruct (f (g x)); reflexivity.
Qed.

Lemma get_all_items_rows (db : database) :
  NoDup (map Item.id (items db)) ->
  get_all_items db = sort_by by_name (map (listing_row db) (items db)).
Proof.
  intros Hnd. unfold get_all_items.
  rewrite items_purchases_sales_by_item. now apply select_listing_items.
Qed.

Lemma search_items_rows (term : string) (db : database) :
  NoDup (map Item.id (items db)) ->
  search_items term db =
  sort_by by_name
    (map (listing_row db)
         (filter (fun i => like (contains_pattern term) (Item.item_name i))
                 (items db))).
Proof.
  intros Hnd. unfold search_items. rewrite items_purchases_sales_by_item.
  rewrite (filter_rows_by_item db
             (fun i => like (contains_pattern term) (Item.item_name i))).
  apply select_listing_items. now apply NoDup_map_filter.
Qed.

(** The item listing over every database that a session from the empty one
    can reach with whole-number quantities, the quantities added up and
    multiplied by the number of calls staying within 2^53 (so that the sums
    of the query are exact in binary64): [get_all_items] returns one row per
    item (the row ids are a
    permutation of the item ids), in ascending order of name, each row with
    the item's name, stock and prices; its [purchased_qty] is the sum of the
    item's purchase quantities multiplied by the number of its sale rows
    (by 1 when it has none), and its [sold_qty] the sum of the item's sale
    quantities multiplied by the number of its purchase rows (by 1 when it
    has none). *)
Theorem get_all_items_lists_each_item (cs : list call) :
  whole_session cs ->
  Permutation (map Listing.id (get_all_items (session cs create_tables)))
              (map Item.id (items (session cs create_tables)))
  /\ StronglySorted
       (fun a b => String.leb (Listing.item_name a) (Listing.item_name b)
                   = true)
       (get_all_items (session cs create_tables))
  /\ forall r, In r (get_all_items (session cs create_tables)) ->
       exists i,
         In i (items (session cs create_tables))
         /\ Listing.id r = Item.id i
         /\ Listing.item_name r = Item.item_name i
         /\ Listing.current_stock r = Item.current_stock i
         /\ Listing.purchase_price r = Item.purchase_price i
         /\ Listing.sale_price r = Item.sale_price i
         /\ (Listing.purchased_qty r ==
             inject_Z (Z.max 1 (count_bills (Item.id i)
                                  (sales (session cs create_tables))))
             * sum_quantity (Item.id i)
                 (purchases (session cs create_tables)))%Q
         /\ (Listing.sold_qty r ==
             inject_Z (Z.max 1 (count_bills (Item.id i)
                                  (purchases (session cs create_tables))))
             * sum_quantity (Item.id i)
                 (sales (session cs create_tables)))%Q.
Proof.
  intros _. set (db := session cs create_tables).
  destruct (catalog_inv_session cs create_tables catalog_inv_create_tables)
    as [Hids _ _ _ _]. fold db in Hids.
  rewrite (get_all_items_rows db Hids). split; [|split].
  - rewrite (Permutation_map Listing.id
               (sort_by_perm by_name (map (listing_row db) (items db)))).
    rewrite map_map. reflexivity.
  - eapply StronglySorted_weaken;
      [|apply (sort_by_stable by_name by_name_total by_name_trans
                 (fun _ _ => True)); apply StronglySorted_any].
    intros a b [H _]. exact H.
  - intros r Hr. apply sort_by_In in Hr. apply in_map_iff in Hr.
    destruct Hr as [i [<- Hi]]. exists i.
    destruct (listing_row_sums db i) as [Hp Hs].
    repeat split; assumption.
Qed.

Lemma get_all_items_lists_each_item_witness :
  Permutation
    (map Listing.id (get_all_items (session bolt_session create_tables)))
    (map Item.id (items (session bolt_session create_tables))).
Proof.
  assert (H0 : whole_session bolt_session).
  { split; [repeat constructor|]. vm_compute. intros H. discriminate H. }
  exact (proj1 (get_all_items_lists_each_item bolt_session H0)).
Defined.

(** Over every database a session from the empty one can reach, and for a
    term of at most 24999 characters, [search_items(term)] returns exactly
    the rows of [get_all_items()] whose item name matches [LIKE '%term%'], in
    the same order; with an empty term it returns them all; and every item
    whose name contains the term before any NUL character, in any letter
    case, has a row in the result. *)
Theorem search_items_filters_listing (cs : list call) (term : string) :
  term_fits term ->
  search_items term (session cs create_tables) =
    filter (fun r => like (contains_pattern term) (Listing.item_name r))
           (get_all_items (session cs create_tables))
  /\ search_items "" (session cs create_tables) =
       get_all_items (session cs create_tables)
  /\ forall i before found rest,
       In i (items (session cs create_tables)) ->
       Item.item_name i = (before ++ found ++ rest)%string ->
       no_nul before -> no_nul found ->
       lower_string found = lower_string term ->
       In (Item.id i)
          (map Listing.id (search_items term (session cs create_tables))).
Proof.
  intros _. set (db := session cs create_tables).
  destruct (catalog_inv_session cs create_tables catalog_inv_create_tables)
    as [Hids _ _ _ _]. fold db in Hids.
  split; [|split].
  - rewrite (search_items_rows term db Hids), (get_all_items_rows db Hids).
    rewrite (filter_sort_by by_name _ by_name_total by_name_trans).
    now rewrite filter_map_commute.
  - apply search_items_empty_term.
  - intros i before found rest Hi Hname Hb Hn Hfound.
    rewrite (search_items_rows term db Hids).
    apply in_map_iff. exists (listing_row db i). split; [reflexivity|].
    apply sort_by_In. apply in_map. apply filter_In. split; [exact Hi|].
    rewrite Hname. now apply like_finds_substring_lemma.
Qed.

Lemma search_items_filters_listing_witness :
  search_items "bo" (session bolt_session create_tables) =
  filter (fun r => like (contains_pattern "bo") (Listing.item_name r))
         (get_all_items (session bolt_session create_tables)).
Proof.
  assert (H : term_fits "bo") by (vm_compute; intros H; discriminate H).
  exact (proj1 (search_items_filters_listing bolt_session "bo" H)).
Defined.

(** For a search text of at most 24999 characters: a purchase or sale row
    of a kind the type filter shows, whose item exists and whose bill number
    contains the stripped search text before any NUL character, in any
    letter case, is in the bill listing. *)
Theorem load_bills_finds_bill_no
        (bill_type search_text tag : string) (db : database)
        (p : Bill.row) (i : Item.row) (before found rest : string) :
  term_fits search_text ->
  (tag = "P" /\ one_of bill_type ["All Bills"; "Purchases Only"] = true
   /\ In p (purchases db))
  \/ (tag = "S" /\ one_of bill_type ["All Bills"; "Sales Only"] = true
      /\ In p (sales db)) ->
  In i (items db) -> Bill.item_id p = Item.id i ->
  Bill.bill_no p = (before ++ found ++ rest)%string ->
  no_nul before -> no_nul found ->
  lower_string found = lower_string (strip str_space search_text) ->
  In (tagged tag (p, i)) (load_bills bill_type search_text db).
Proof.
  intros _ Hkind Hi Hid Hno Hb Hn Hfound. unfold load_bills.
  apply sort_by_In. apply in_or_app.
  assert (Hlike : like (contains_pattern (strip str_space search_text))
                       (Bill.bill_no p) = true)
    by (rewrite Hno; now apply like_finds_substring_lemma).
  destruct Hkind as [[-> [Ho Hp]]|[-> [Ho Hp]]]; [left|right];
    rewrite Ho; apply in_map; apply In_select_bill_rows; tauto.
Qed.

Lemma load_bills_finds_bill_no_witness :
  In (tagged "S" (Bill.mk 1 "S0001" "2024-01-01" 1 4 8 (4 * 8),
                  Item.mk 1 "Bolt" 6 5 8))
     (load_bills "Sales Only" " s00 " same_day_sale).
Proof.
  assert (H1 : ("S" = "P"
                /\ one_of "Sales Only" ["All Bills"; "Purchases Only"] = true
                /\ In (Bill.mk 1 "S0001" "2024-01-01" 1 4 8 (4 * 8))
                      (purchases same_day_sale))
               \/ ("S" = "S"
                   /\ one_of "Sales Only" ["All Bills"; "Sales Only"] = true
                   /\ In (Bill.mk 1 "S0001" "2024-01-01" 1 4 8 (4 * 8))
                         (sales same_day_sale))).
  { right. split; [reflexivity|]. split; [vm_compute; reflexivity|].
    vm_compute. left. reflexivity. }
  assert (H2 : In (Item.mk 1 "Bolt" 6 5 8) (items same_day_sale)).
  { vm_compute. left. reflexivity. }
  assert (H3 : Bill.item_id (Bill.mk 1 "S0001" "2024-01-01" 1 4 8 (4 * 8)) =
               Item.id (Item.mk 1 "Bolt" 6 5 8)) by reflexivity.
  assert (H4 : Bill.bill_no (Bill.mk 1 "S0001" "2024-01-01" 1 4 8 (4 * 8)) =
               ("" ++ "S00" ++ "01")%string) by reflexivity.
  assert (H5 : lower_string "S00" = lower_string (strip str_space " s00 "))
    by (vm_compute; reflexivity).
  assert (H6 : no_nul "") by reflexivity.
  assert (H7 : no_nul "S00") by reflexivity.
  assert (H8 : term_fits " s00 ") by (vm_compute; intros H; discriminate H).
  exact (load_bills_finds_bill_no "Sales Only" " s00 " "S" same_day_sale
           _ _ "" "S00" "01" H8 H1 H2 H3 H4 H6 H7 H5).
Defined.
